(** * iPhoneAutoFileBackup: the macOS backup script [macos/iphone_backup.py]

    A shallow embedding of the device-backup engine: media enumeration on
    the two transports (mounted filesystem, adb shell), the space
    preflight, the sequential transfer pass, size verification and the
    deletion step of [main]; then the session around it: the tooling and
    connection checks, mounting and unmounting, and the whole of [main]
    for a parsed command line.

    Conventions of the embedding.
    - A Python [str] is a [string]; a character is a code point below 256.
      [lower], [upper] and [strip] follow Python on that range.  Comparison
      of strings is by code point, as in Python.
    - A Python [int] is a [Z].  A Python [float] is kept as an exact
      rational [Q]; division by zero is the only float fault that is
      modelled.  [OverflowError], which [int / int] raises when the
      quotient is beyond the float range, is not: the theorems about the
      figures that are printed are stated for integers within that range
      ([float_safe]).
    - The outside world (device, destination volume, clock, terminal) is an
      abstract state [W] with one operation per system call the script
      makes.  Every operation that can raise reports how it ended, except
      [input], which gives the next line typed: the end of the input is
      not modelled, and what is stated about a run with a prompt in it is
      stated for a prompt that returns a line. *)

From Stdlib Require Import List String Ascii Bool ZArith QArith Lia.
From Stdlib Require Import Sorted Permutation DecimalString.
Import ListNotations.

Local Open Scope string_scope.
Local Open Scope Z_scope.

(** ** Python [str] methods used by the script *)

Module PyStr.

Definition code (c : ascii) : N := N_of_ascii c.

Definition in_range (lo hi : N) (c : ascii) : bool :=
  (N.leb lo (code c) && N.leb (code c) hi)%bool.

(** [str.isspace] on code points below 256: TAB..CR, FS..US, space,
    NEL and NBSP. *)
Definition isspace (c : ascii) : bool :=
  (in_range 9 13 c || in_range 28 32 c
   || N.eqb (code c) 133 || N.eqb (code c) 160)%bool.

(** Upper-case letters whose lower-case form is 32 code points up:
    A..Z, and the Latin-1 capitals except the multiplication sign. *)
Definition isupper32 (c : ascii) : bool :=
  (in_range 65 90 c || in_range 192 214 c || in_range 216 222 c)%bool.

Definition lower_char (c : ascii) : ascii :=
  if isupper32 c then ascii_of_N (code c + 32) else c.

(** Lower-case letters whose upper-case form is again below 256.  The
    three others ([0xB5], [0xDF], [0xFF]) have an upper-case form outside
    the range and are left as they are; the script only compares the
    result with ["Y"], which no form of them equals. *)
Definition islower32 (c : ascii) : bool :=
  (in_range 97 122 c || in_range 224 246 c || in_range 248 254 c)%bool.

Definition upper_char (c : ascii) : ascii :=
  if islower32 c then ascii_of_N (code c - 32) else c.

Fixpoint map_chars (f : ascii -> ascii) (s : string) : string :=
  match s with
  | EmptyString => EmptyString
  | String c r => String (f c) (map_chars f r)
  end.

Definition lower : string -> string := map_chars lower_char.
Definition upper : string -> string := map_chars upper_char.

Fixpoint lstrip (s : string) : string :=
  match s with
  | EmptyString => EmptyString
  | String c r => if isspace c then lstrip r else s
  end.

Fixpoint all_space (s : string) : bool :=
  match s with
  | EmptyString => true
  | String c r => (isspace c && all_space r)%bool
  end.

Fixpoint rstrip (s : string) : string :=
  match s with
  | EmptyString => EmptyString
  | String c r => if all_space s then EmptyString else String c (rstrip r)
  end.

Definition strip (s : string) : string := rstrip (lstrip s).

(** [s.split(sep)] for a one-character separator: never the empty list. *)
Fixpoint split (sep : ascii) (s : string) : list string :=
  match s with
  | EmptyString => [EmptyString]
  | String c r =>
      if Ascii.eqb c sep then EmptyString :: split sep r
      else match split sep r with
           | [] => [String c EmptyString]
           | w :: ws => String c w :: ws
           end
  end.

Definition isdigit (c : ascii) : bool := in_range 48 57 c.

Definition digit_val (c : ascii) : Z := Z.of_N (code c) - 48.

(** The digits of a decimal literal, where single underscores may sit
    between digits.  [prev_digit] tells whether the previous character
    was a digit; [acc] is the value read so far. *)
Fixpoint digits (prev_digit : bool) (acc : Z) (s : string) : option Z :=
  match s with
  | EmptyString => if prev_digit then Some acc else None
  | String c r =>
      if isdigit c then digits true (10 * acc + digit_val c) r
      else if (Ascii.eqb c "_" && prev_digit)%bool then
        match r with
        | String d _ => if isdigit d then digits false acc r else None
        | EmptyString => None
        end
      else None
  end.

(** [int(s)] in base 10; [None] stands for [ValueError].  The limit that
    recent versions put on the number of digits is not modelled. *)
Definition int (s : string) : option Z :=
  match strip s with
  | String "+" r => digits false 0 r
  | String "-" r => option_map Z.opp (digits false 0 r)
  | t => digits false 0 t
  end.

End PyStr.

(** ** [os.path] on POSIX *)

Module OsPath.

Definition sep : ascii := "/".
Definition extsep : ascii := ".".

Fixpoint ends_with_sep (s : string) : bool :=
  match s with
  | EmptyString => false
  | String c EmptyString => Ascii.eqb c sep
  | String _ r => ends_with_sep r
  end.

Definition starts_with_sep (s : string) : bool :=
  match s with
  | String c _ => Ascii.eqb c sep
  | EmptyString => false
  end.

(** [os.path.join(a, b)] *)
Definition join (a b : string) : string :=
  if starts_with_sep b then b
  else if (String.eqb a EmptyString || ends_with_sep a)%bool then a ++ b
  else a ++ String sep b.

(** The part of [p] after the last separator; [acc] is that part for
    the characters already passed. *)
Fixpoint after_last_sep (acc p : string) : string :=
  match p with
  | EmptyString => acc
  | String c r =>
      if Ascii.eqb c sep then after_last_sep r r else after_last_sep acc r
  end.

(** [os.path.basename(p)] *)
Definition basename (p : string) : string := after_last_sep p p.

(** [p.rfind(c)]: the last index of [c], or [-1]. *)
Fixpoint rfind_from (i : Z) (found : Z) (c : ascii) (p : string) : Z :=
  match p with
  | EmptyString => found
  | String d r => rfind_from (i + 1) (if Ascii.eqb d c then i else found) c r
  end.

Definition rfind (c : ascii) (p : string) : Z := rfind_from 0 (-1) c p.

Definition slice (lo hi : Z) (p : string) : string :=
  substring (Z.to_nat lo) (Z.to_nat (hi - lo)) p.

Fixpoint all_extsep (s : string) : bool :=
  match s with
  | EmptyString => true
  | String c r => (Ascii.eqb c extsep && all_extsep r)%bool
  end.

(** [os.path.splitext(p)]: the extension starts at the last dot of the
    last component, unless that component has only dots before it. *)
Definition splitext (p : string) : string * string :=
  let sepIndex := rfind sep p in
  let dotIndex := rfind extsep p in
  let n := Z.of_nat (String.length p) in
  if (sepIndex <? dotIndex)
  then if all_extsep (slice (sepIndex + 1) dotIndex p)
       then (p, EmptyString)
       else (slice 0 dotIndex p, slice dotIndex n p)
  else (p, EmptyString).

End OsPath.

(** ** Candidates and the extension allow-list *)

(** A media item as the script carries it: [(source_path, file_name, size)]. *)
Definition Candidate : Type := string * string * Z.

Definition sourceRef (c : Candidate) : string := fst (fst c).
Definition fileName (c : Candidate) : string := snd (fst c).
Definition sizeBytes (c : Candidate) : Z := snd c.

Definition SUPPORTED_EXTENSIONS : list string :=
  [".mov"; ".mp4"; ".avi"; ".jpg"; ".jpeg"; ".png"; ".heic"].

(** [x in l] on a list of strings. *)
Definition str_in (x : string) (l : list string) : bool :=
  existsb (String.eqb x) l.

(** [os.path.splitext(file)[1].lower()] *)
Definition extension (file : string) : string :=
  PyStr.lower (snd (OsPath.splitext file)).

(** ** [sorted(l, key=...)] with string keys

    Python's sort is stable; a stable sort has one possible result, here
    produced by insertion from the right. *)

Section Sorted.
Context {A : Type} (key : A -> string).

Fixpoint insert (x : A) (l : list A) : list A :=
  match l with
  | [] => [x]
  | y :: r => if (key x <=? key y)%string then x :: l else y :: insert x r
  end.

Fixpoint sorted (l : list A) : list A :=
  match l with
  | [] => []
  | x :: r => insert x (sorted r)
  end.
End Sorted.

(** ** The outside world *)

(** The exceptions a call of the script can end with.  All are below
    [Exception] except [KeyboardInterrupt]; [SubprocessError] covers
    [TimeoutExpired] and [CalledProcessError]. *)
Inductive Raised : Type :=
| OSError
| ValueError
| ZeroDivisionError
| SubprocessError
| OtherException
| KeyboardInterrupt.

(** The handlers of the script: which exceptions a clause catches. *)
Definition except_Exception (e : Raised) : bool :=
  match e with KeyboardInterrupt => false | _ => true end.

Definition except_OSError (e : Raised) : bool :=
  match e with OSError => true | _ => false end.

Definition except_ValueError (e : Raised) : bool :=
  match e with ValueError => true | _ => false end.

Inductive Res (A : Type) : Type :=
| Ret (a : A)
| Raise (e : Raised).
Arguments Ret {A} a.
Arguments Raise {A} e.

(** [subprocess.CompletedProcess] *)
Record Completed : Type := mkCompleted { returncode : Z; stdout : string }.

(** The system calls of the script over a world [W].  Reads leave the
    world as it is; the others return the world after the call. *)
Class OS (W : Type) : Type := {
  (** [os.stat(path).st_size]; [None] when the path cannot be stat'ed. *)
  stat_size : string -> W -> option Z;
  (** [shutil.disk_usage(path).free]; [None] when the call raises. *)
  disk_usage_free : string -> W -> option Z;
  (** [os.walk(top)] *)
  os_walk : string -> W -> list (string * list string * list string);
  (** [time.time()] *)
  time_time : W -> Q * W;
  (** [input(prompt)] *)
  input : W -> string * W;
  (** [shutil.copy2(src, dst)] *)
  shutil_copy2 : string -> string -> W -> Res unit * W;
  (** [os.remove(path)] *)
  os_remove : string -> W -> Res unit * W;
  (** [subprocess.run(args, capture_output=True, text=True, timeout=...)] *)
  subprocess_run : list string -> W -> Res Completed * W
}.

Inductive DeviceKind : Type := iPhone | Android.

(** The fields of a [DeviceBackup] object. *)
Record Backup : Type := mkBackup {
  kind : DeviceKind;
  destination : string;
  mount_point : option string;
  verified_files : list string;
  failed_files : list string
}.

Definition device_type (b : Backup) : string :=
  match kind b with iPhone => "iPhone" | Android => "Android" end.

(** What the script prints, one constructor per message. *)
Inductive Message : Type :=
| MsgSpaceCheck (required_gb available_gb : Q)
| MsgInsufficient (shortage_gb : Q)
| MsgSufficient
| MsgCouldNotCheck
| MsgVerifying
| MsgVerified (n : nat)
| MsgSomeFailed
| MsgFailedItem (file_name : string)
| MsgDcimNotFound (path : string)
| MsgCouldNotAccess (file : string)
| MsgNoDcimAccess
| MsgErrorFinding
| MsgSkipped (file_name : string) (idx total : nat) (progress : Q)
| MsgCopied (file_name : string) (idx total : nat) (progress size_mb speed_mbps : Q)
| MsgErrorCopying (file_name : string)
| MsgDeleting
| MsgDeleted (base : string)
| MsgErrorDeleting (base : string)
| MsgCancelled
| MsgStarting (dest : string)
| MsgNoFiles
| MsgInterrupted
| MsgSkippedDeletion
| MsgDone.

(** What a run does that can be seen from outside: the lines it prints
    and the calls that act on the device or the destination. *)
Inductive Event : Type :=
| Print (m : Message)
| CallCopy2 (src dst : string)
| CallRemove (path : string)
| CallRun (args : list string).

(** ** The monad of the script: state, trace and exceptions *)

Section Monad.
Context {W : Type}.

(** The world together with the backup object the methods act on. *)
Record State : Type := mkState { world : W; self : Backup }.

(** A computation returns or raises, leaves a state, and adds events. *)
Definition M (A : Type) : Type := State -> Res A * State * list Event.

Definition ret {A} (a : A) : M A := fun s => (Ret a, s, []).

Definition bind {A B} (m : M A) (f : A -> M B) : M B :=
  fun s =>
    match m s with
    | (Ret a, s1, t1) =>
        match f a s1 with
        | (r, s2, t2) => (r, s2, (t1 ++ t2)%list)
        end
    | (Raise e, s1, t1) => (Raise e, s1, t1)
    end.

Definition raise {A} (e : Raised) : M A := fun s => (Raise e, s, []).

Definition emit (e : Event) : M unit := fun s => (Ret tt, s, [e]).

Definition print (m : Message) : M unit := emit (Print m).

(** A read of the world. *)
Definition read {A} (f : W -> A) : M A := fun s => (Ret (f (world s)), s, []).

(** A call that changes the world. *)
Definition call {A} (f : W -> A * W) : M A :=
  fun s => match f (world s) with
           | (a, w) => (Ret a, mkState w (self s), [])
           end.

(** A call that changes the world and may raise. *)
Definition call_res {A} (f : W -> Res A * W) : M A :=
  fun s => match f (world s) with
           | (r, w) => (r, mkState w (self s), [])
           end.

Definition get_self : M Backup := fun s => (Ret (self s), s, []).

Definition set_self (b : Backup) : M unit :=
  fun s => (Ret tt, mkState (world s) b, []).

(** [try: body  except <catches>: handler] *)
Definition try_except {A} (catches : Raised -> bool)
    (body : M A) (handler : M A) : M A :=
  fun s =>
    match body s with
    | (Raise e, s1, t1) =>
        if catches e then
          match handler s1 with
          | (r, s2, t2) => (r, s2, (t1 ++ t2)%list)
          end
        else (Raise e, s1, t1)
    | out => out
    end.

(** [try: body  finally: fin]: [fin] always runs; what [body] raised
    goes on afterwards unless [fin] raised itself. *)
Definition try_finally {A} (body : M A) (fin : M unit) : M A :=
  fun s =>
    match body s with
    | (r, s1, t1) =>
        match fin s1 with
        | (Ret _, s2, t2) => (r, s2, (t1 ++ t2)%list)
        | (Raise e, s2, t2) => (Raise e, s2, (t1 ++ t2)%list)
        end
    end.

(** [for x in l: body(x)] *)
Fixpoint for_each {A} (l : list A) (body : A -> M unit) : M unit :=
  match l with
  | [] => ret tt
  | x :: r => bind (body x) (fun _ => for_each r body)
  end.

(** A loop that carries the local variables [acc] it assigns. *)
Fixpoint for_fold {A S} (l : list A) (acc : S) (body : A -> S -> M S) : M S :=
  match l with
  | [] => ret acc
  | x :: r => bind (body x acc) (fun acc' => for_fold r acc' body)
  end.

(** A read of the world that raises [e] when it gives nothing. *)
Definition read_or_raise {A} (e : Raised) (f : W -> option A) : M A :=
  fun s => match f (world s) with
           | Some a => (Ret a, s, [])
           | None => (Raise e, s, [])
           end.

(** Python's [a / b] on numbers: [ZeroDivisionError] when [b] is zero. *)
Definition truediv (a b : Q) : M Q :=
  if Qeq_bool b 0 then raise ZeroDivisionError else ret (a / b)%Q.

Definition result {A} (o : Res A * State * list Event) : Res A := fst (fst o).
Definition final {A} (o : Res A * State * list Event) : State := snd (fst o).
Definition trace {A} (o : Res A * State * list Event) : list Event := snd o.

End Monad.

Arguments State W : clear implicits.
Arguments M W A : clear implicits.

Declare Scope py_scope.
Delimit Scope py_scope with py.
Notation "x <- m ;; k" := (bind m (fun x => k))
  (at level 61, m at next level, right associativity) : py_scope.
Notation "' p <- m ;; k" := (bind m (fun x => match x with p => k end))
  (at level 61, p pattern, m at next level, right associativity) : py_scope.
Notation "m ;; k" := (bind m (fun _ => k))
  (at level 61, right associativity) : py_scope.

Local Open Scope py_scope.

(** [a < b] on floats. *)
Definition Qltb (a b : Q) : bool := negb (Qle_bool b a).

(** Calls shared by the classes. *)
Section SystemCalls.
Context {W : Type} {os : OS W}.

(** [os.path.exists(path)] *)
Definition path_exists (path : string) : M W bool :=
  read (fun w => match stat_size path w with Some _ => true | None => false end).

(** [os.path.getsize(path)] *)
Definition getsize (path : string) : M W Z :=
  read_or_raise OSError (stat_size path).

(** [os.path.exists(path) and os.path.getsize(path) == size] *)
Definition exists_with_size (path : string) (size : Z) : M W bool :=
  e <- path_exists path ;;
  if e then n <- getsize path ;; ret (n =? size) else ret false.

(** [subprocess.run(args, ...)] *)
Definition run (args : list string) : M W Completed :=
  emit (CallRun args) ;; call_res (subprocess_run args).

(** [int(s)] *)
Definition int (s : string) : M W Z :=
  match PyStr.int s with
  | Some n => ret n
  | None => raise ValueError
  end.

(** [input(prompt).strip().upper()] *)
Definition ask : M W string :=
  r <- call input ;; ret (PyStr.upper (PyStr.strip r)).

(** The throughput lines shared by the two [copy_files]:
    [size_mb = size / (1024 * 1024)] and
    [speed_mbps = size_mb / elapsed if elapsed > 0 else 0]. *)
Definition size_mb_of (size : Z) : M W Q :=
  truediv (inject_Z size) (inject_Z (1024 * 1024)).

Definition speed_mbps_of (size_mb elapsed : Q) : M W Q :=
  if Qltb 0 elapsed then truediv size_mb elapsed else ret 0%Q.

(** [(idx * 100) / total_files] *)
Definition progress_of (idx total_files : nat) : M W Q :=
  truediv (inject_Z (Z.of_nat idx * 100)) (inject_Z (Z.of_nat total_files)).

(** [enumerate(files, 1)] *)
Definition enumerate1 {A} (l : list A) : list (nat * A) :=
  combine (seq 1 (List.length l)) l.
End SystemCalls.

(** ** [class DeviceBackup] *)

Module DeviceBackup.
Section Methods.
Context {W : Type} {os : OS W}.

Definition GiB : Q := inject_Z (1024 ^ 3).

Definition check_disk_space (required_bytes : Z) : M W bool :=
  try_except except_Exception
    (b <- get_self ;;
     available_bytes <- read_or_raise OSError (disk_usage_free (destination b)) ;;
     required_gb <- truediv (inject_Z required_bytes) GiB ;;
     available_gb <- truediv (inject_Z available_bytes) GiB ;;
     print (MsgSpaceCheck required_gb available_gb) ;;
     if available_bytes <? required_bytes then
       shortage_gb <- truediv (inject_Z (required_bytes - available_bytes)) GiB ;;
       print (MsgInsufficient shortage_gb) ;;
       ret false
     else
       print MsgSufficient ;;
       ret true)
    (print MsgCouldNotCheck ;;
     ret true).

(** The body of the loop of [verify_files], on the two lists it fills. *)
Definition verify_one (item : Candidate) (acc : list string * list string)
  : M W (list string * list string) :=
  let '(source_path, file_name, size) := item in
  let '(verified, failed) := acc in
  b <- get_self ;;
  let dest_path := OsPath.join (destination b) file_name in
  ok <- exists_with_size dest_path size ;;
  if ok then ret ((verified ++ [source_path])%list, failed)
  else ret (verified, (failed ++ [file_name])%list).

Definition verify_files (files : list Candidate)
  : M W (list string * list string) :=
  print MsgVerifying ;;
  '(verified, failed) <- for_fold files ([], []) verify_one ;;
  print (MsgVerified (List.length verified)) ;;
  (match failed with
   | [] => ret tt
   | _ => print MsgSomeFailed ;;
          for_each failed (fun f => print (MsgFailedItem f))
   end) ;;
  b <- get_self ;;
  set_self (mkBackup (kind b) (destination b) (mount_point b) verified failed) ;;
  ret (verified, failed).

End Methods.
End DeviceBackup.

(** ** [class iPhoneBackup(DeviceBackup)] *)

Module iPhoneBackup.
Section Methods.
Context {W : Type} {os : OS W}.

(** The body of the inner loop of [find_media_files], on the list
    [media_files] it appends to. *)
Definition scan_file (root file : string) (media_files : list Candidate)
  : M W (list Candidate) :=
  let ext := extension file in
  if str_in ext SUPPORTED_EXTENSIONS then
    let full_path := OsPath.join root file in
    try_except except_OSError
      (size <- getsize full_path ;;
       ret (media_files ++ [(full_path, file, size)])%list)
      (print (MsgCouldNotAccess file) ;;
       ret media_files)
  else ret media_files.

(** The body of the outer loop: one [(root, dirs, files)] of the walk. *)
Definition scan_dir (entry : string * list string * list string)
    (media_files : list Candidate) : M W (list Candidate) :=
  let '(root, dirs, files) := entry in
  for_fold files media_files (scan_file root).

Definition find_media_files : M W (list Candidate) :=
  b <- get_self ;;
  match mount_point b with
  | None => ret []
  | Some mp =>
      if String.eqb mp EmptyString then ret []
      else
        let dcim_path := OsPath.join mp "DCIM" in
        found <- path_exists dcim_path ;;
        if negb found then
          print (MsgDcimNotFound dcim_path) ;;
          ret []
        else
          walk <- read (os_walk dcim_path) ;;
          media_files <- for_fold walk [] scan_dir ;;
          ret (sorted fileName media_files)
  end.

(** The body of the loop of [copy_files]. *)
Definition copy_one (total_files : nat) (item : nat * Candidate) : M W unit :=
  let '(idx, (source_path, file_name, size)) := item in
  b <- get_self ;;
  let dest_path := OsPath.join (destination b) file_name in
  already <- exists_with_size dest_path size ;;
  if already then
    progress <- progress_of idx total_files ;;
    print (MsgSkipped file_name idx total_files progress)
  else
    start_time <- call time_time ;;
    try_except except_Exception
      (emit (CallCopy2 source_path dest_path) ;;
       call_res (shutil_copy2 source_path dest_path) ;;
       now <- call time_time ;;
       let elapsed := (now - start_time)%Q in
       size_mb <- size_mb_of size ;;
       speed_mbps <- speed_mbps_of size_mb elapsed ;;
       progress <- progress_of idx total_files ;;
       print (MsgCopied file_name idx total_files progress size_mb speed_mbps))
      (print (MsgErrorCopying file_name)).

Definition copy_files (files : list Candidate) : M W unit :=
  let total_files := List.length files in
  for_each (enumerate1 files) (copy_one total_files).

(** The body of the loop of [delete_files]. *)
Definition delete_one (path : string) : M W unit :=
  try_except except_Exception
    (emit (CallRemove path) ;;
     call_res (os_remove path) ;;
     print (MsgDeleted (OsPath.basename path)))
    (print (MsgErrorDeleting (OsPath.basename path))).

Definition delete_files (file_paths : list string) : M W unit :=
  print MsgDeleting ;;
  for_each file_paths delete_one.

End Methods.
End iPhoneBackup.

(** ** [class AndroidBackup(DeviceBackup)] *)

Module AndroidBackup.
Section Methods.
Context {W : Type} {os : OS W}.

(** The text [s] between double quotes, as the f-strings build it. *)
Definition quoted (s : string) : string :=
  String "034" (s ++ String "034" EmptyString).

Definition find_cmd (dcim_path : string) : list string :=
  ["adb"; "shell"; "find " ++ dcim_path ++ " -type f"].

Definition stat_cmd (file_path : string) : list string :=
  ["adb"; "shell"; "stat -c %s " ++ quoted file_path].

Definition pull_cmd (source_path dest_path : string) : list string :=
  ["adb"; "pull"; source_path; dest_path].

Definition rm_cmd (path : string) : list string :=
  ["adb"; "shell"; "rm " ++ quoted path].

(** The body of the loop of [find_media_files]: one line of the
    listing, on the list [media_files] it appends to. *)
Definition scan_path (file_path : string) (media_files : list Candidate)
  : M W (list Candidate) :=
  let file_path := PyStr.strip file_path in
  if String.eqb file_path EmptyString then ret media_files
  else
    let file_name := OsPath.basename file_path in
    let ext := extension file_name in
    if str_in ext SUPPORTED_EXTENSIONS then
      size_result <- run (stat_cmd file_path) ;;
      if returncode size_result =? 0 then
        try_except except_ValueError
          (size <- int (PyStr.strip (stdout size_result)) ;;
           ret (media_files ++ [(file_path, file_name, size)])%list)
          (ret media_files)
      else ret media_files
    else ret media_files.

Definition find_media_files : M W (list Candidate) :=
  let dcim_path := "/sdcard/DCIM" in
  try_except except_Exception
    (result <- run (find_cmd dcim_path) ;;
     if negb (returncode result =? 0) then
       print MsgNoDcimAccess ;;
       ret []
     else
       let file_paths := PyStr.split "010" (PyStr.strip (stdout result)) in
       media_files <- for_fold file_paths [] scan_path ;;
       ret (sorted fileName media_files))
    (print MsgErrorFinding ;;
     ret []).

Definition copy_one (total_files : nat) (item : nat * Candidate) : M W unit :=
  let '(idx, (source_path, file_name, size)) := item in
  b <- get_self ;;
  let dest_path := OsPath.join (destination b) file_name in
  already <- exists_with_size dest_path size ;;
  if already then
    progress <- progress_of idx total_files ;;
    print (MsgSkipped file_name idx total_files progress)
  else
    start_time <- call time_time ;;
    try_except except_Exception
      (result <- run (pull_cmd source_path dest_path) ;;
       if returncode result =? 0 then
         now <- call time_time ;;
         let elapsed := (now - start_time)%Q in
         size_mb <- size_mb_of size ;;
         speed_mbps <- speed_mbps_of size_mb elapsed ;;
         progress <- progress_of idx total_files ;;
         print (MsgCopied file_name idx total_files progress size_mb speed_mbps)
       else
         print (MsgErrorCopying file_name))
      (print (MsgErrorCopying file_name)).

Definition copy_files (files : list Candidate) : M W unit :=
  let total_files := List.length files in
  for_each (enumerate1 files) (copy_one total_files).

(** The body of the loop of [delete_files]. *)
Definition delete_one (path : string) : M W unit :=
  try_except except_Exception
    (result <- run (rm_cmd path) ;;
     if returncode result =? 0 then
       print (MsgDeleted (OsPath.basename path))
     else
       print (MsgErrorDeleting (OsPath.basename path)))
    (print (MsgErrorDeleting (OsPath.basename path))).

Definition delete_files (file_paths : list string) : M W unit :=
  print MsgDeleting ;;
  for_each file_paths delete_one.

End Methods.
End AndroidBackup.

(** ** [main], from the question to commence up to the final report

    Dependency checks, the connection test and the mount come before and
    do not touch the catalog; the backup object arrives here as they left
    it.  An early [return] of the script is the branch that ends. *)

Section Main.
Context {W : Type} {os : OS W}.

(** Method dispatch on the class of the backup object. *)
Definition find_media_files : M W (list Candidate) :=
  b <- get_self ;;
  match kind b with
  | iPhone => iPhoneBackup.find_media_files
  | Android => AndroidBackup.find_media_files
  end.

Definition copy_files (files : list Candidate) : M W unit :=
  b <- get_self ;;
  match kind b with
  | iPhone => iPhoneBackup.copy_files files
  | Android => AndroidBackup.copy_files files
  end.

Definition delete_files (file_paths : list string) : M W unit :=
  b <- get_self ;;
  match kind b with
  | iPhone => iPhoneBackup.delete_files file_paths
  | Android => AndroidBackup.delete_files file_paths
  end.

(** The [finally] clause of the transfer: verify, then offer deletion. *)
Definition verify_and_delete (media_files : list Candidate) : M W unit :=
  '(verified, failed) <- DeviceBackup.verify_files media_files ;;
  match verified with
  | [] => ret tt
  | _ =>
      response <- ask ;;
      if String.eqb response "Y" then delete_files verified
      else print MsgSkippedDeletion
  end.

(** Lines 439 to 457: copy, verify, delete, report. *)
Definition transfer_stage (media_files : list Candidate) : M W unit :=
  try_finally
    (try_except except_Exception
       (copy_files media_files)
       (print MsgInterrupted))
    (verify_and_delete media_files) ;;
  print MsgDone.

(** [sum(size for _, _, size in media_files)] *)
Definition total_size (media_files : list Candidate) : Z :=
  fold_left Z.add (map sizeBytes media_files) 0.

(** Lines 430 to 457: the space check and what follows it. *)
Definition preflight_stage (media_files : list Candidate) : M W unit :=
  sufficient <- DeviceBackup.check_disk_space (total_size media_files) ;;
  if negb sufficient then
    response <- ask ;;
    if negb (String.eqb response "Y") then print MsgCancelled
    else transfer_stage media_files
  else transfer_stage media_files.

Definition main_run : M W unit :=
  response <- ask ;;
  if negb (String.eqb response "Y") then print MsgCancelled
  else
    b <- get_self ;;
    print (MsgStarting (destination b)) ;;
    media_files <- find_media_files ;;
    match media_files with
    | [] => print MsgNoFiles
    | _ => preflight_stage media_files
    end.

End Main.

(** ** Vocabulary of the properties *)

Section Vocabulary.
Context {W : Type} {os : OS W}.

(** The destination holds a file for the candidate with the recorded
    size: the path exists and its size is [sizeBytes]. *)
Definition dest_has (w : W) (dest : string) (c : Candidate) : Prop :=
  exists n, stat_size (OsPath.join dest (fileName c)) w = Some n
            /\ n = sizeBytes c.

Definition dest_hasb (w : W) (dest : string) (c : Candidate) : bool :=
  match stat_size (OsPath.join dest (fileName c)) w with
  | Some n => n =? sizeBytes c
  | None => false
  end.

(** The two lists verification builds, in catalog order. *)
Definition verified_of (w : W) (dest : string) (files : list Candidate)
  : list string :=
  map sourceRef (filter (dest_hasb w dest) files).

Definition failed_of (w : W) (dest : string) (files : list Candidate)
  : list string :=
  map fileName (filter (fun c => negb (dest_hasb w dest c)) files).
End Vocabulary.

(** The lines [verify_files] prints about the items that failed. *)
Definition failed_report (failed : list string) : list Event :=
  match failed with
  | [] => []
  | _ => Print MsgSomeFailed :: map (fun f => Print (MsgFailedItem f)) failed
  end.

(** Every event of every run of [m] satisfies [P]. *)
Definition emits_only {W A} (P : Event -> Prop) (m : M W A) : Prop :=
  forall s, Forall P (trace (m s)).

(** No run of [m] changes the backup object. *)
Definition keeps_self {W A} (m : M W A) : Prop :=
  forall s, self (final (m s)) = self s.

(** The event is a delete call for the locator [p], on either transport. *)
Definition is_delete_of (p : string) (e : Event) : Prop :=
  e = CallRemove p \/ e = CallRun (AndroidBackup.rm_cmd p).

(** Every delete call the event makes is for a locator of [paths]. *)
Definition deletes_within (paths : list string) (e : Event) : Prop :=
  forall p, is_delete_of p e -> In p paths.

(** The locators the trace issues a delete call for. *)
Definition deleted (t : list Event) (p : string) : Prop :=
  exists e, In e t /\ is_delete_of p e.

(** [enumerate(l, k)] *)
Definition enumerate_from {A} (k : nat) (l : list A) : list (nat * A) :=
  combine (seq k (List.length l)) l.

(** The sum of the recorded sizes of a catalog. *)
Fixpoint sum_sizes (files : list Candidate) : Z :=
  match files with
  | [] => 0
  | c :: r => sizeBytes c + sum_sizes r
  end.

(** A byte count in GiB, as the space check prints it. *)
Definition in_GiB (bytes : Z) : Q := (inject_Z bytes / DeviceBackup.GiB)%Q.

(** Whatever [m] returns satisfies [Q]. *)
Definition returns_only {W A} (Q : A -> Prop) (m : M W A) : Prop :=
  forall s a, result (m s) = Ret a -> Q a.

(** The file name has an extension of the allow-list, whatever its case. *)
Definition supported (file : string) : Prop :=
  In (extension file) SUPPORTED_EXTENSIONS.

(** The same, said without [lower] on one side only: the extension and
    some entry of the allow-list are equal once both are lower-cased. *)
Definition matches_ignoring_case (file : string) : Prop :=
  exists a, In a SUPPORTED_EXTENSIONS
            /\ PyStr.lower (snd (OsPath.splitext file)) = PyStr.lower a.

(** Every candidate collected so far has a supported extension. *)
Definition all_supported (media : list Candidate) : Prop :=
  Forall (fun c => supported (fileName c)) media.

(** What [find_media_files] returns is [sorted] applied to a list of
    candidates with supported extensions. *)
Definition is_catalog (catalog : list Candidate) : Prop :=
  exists raw, catalog = sorted fileName raw /\ all_supported raw.

(** The event is a fetch call, on either transport. *)
Definition is_fetch (e : Event) : bool :=
  match e with
  | CallCopy2 _ _ => true
  | CallRun (a :: b :: _) => (String.eqb a "adb" && String.eqb b "pull")%bool
  | _ => false
  end.

(** [a] comes no later than [b] by its key. *)
Definition key_le {A} (key : A -> string) (a b : A) : Prop :=
  (key a <=? key b)%string = true.

(** The file names of a catalog never go down. *)
Definition name_sorted (l : list Candidate) : Prop :=
  StronglySorted (key_le fileName) l.

(** ** The figures of a progress line and the outcome of one step *)

Section Outcomes.
Context {W : Type} {os : OS W}.

(** The guarded division: the quotient when time has passed, zero
    otherwise. *)
Definition speed (size_mb elapsed : Q) : Q :=
  if Qltb 0 elapsed then (size_mb / elapsed)%Q else 0%Q.

Definition progress (idx total : nat) : Q :=
  (inject_Z (Z.of_nat idx * 100) / inject_Z (Z.of_nat total))%Q.

Definition size_mb (size : Z) : Q :=
  (inject_Z size / inject_Z (1024 * 1024))%Q.

Definition dest_path (s : State W) (c : Candidate) : string :=
  OsPath.join (destination (self s)) (fileName c).

(** What the step does when the destination lacks the file, by the way
    the copy ends. *)
Definition iPhone_copy_outcome (total idx : nat) (c : Candidate) (s : State W)
  : Res unit * State W * list Event :=
  let '(t0, w0) := time_time (world s) in
  let call := CallCopy2 (sourceRef c) (dest_path s c) in
  match shutil_copy2 (sourceRef c) (dest_path s c) w0 with
  | (Ret _, w1) =>
      let '(t1, w2) := time_time w1 in
      (Ret tt, mkState w2 (self s),
       [call; Print (MsgCopied (fileName c) idx total (progress idx total)
                       (size_mb (sizeBytes c))
                       (speed (size_mb (sizeBytes c)) (t1 - t0)%Q))])
  | (Raise KeyboardInterrupt, w1) =>
      (Raise KeyboardInterrupt, mkState w1 (self s), [call])
  | (Raise _, w1) =>
      (Ret tt, mkState w1 (self s), [call; Print (MsgErrorCopying (fileName c))])
  end.

Definition Android_copy_outcome (total idx : nat) (c : Candidate) (s : State W)
  : Res unit * State W * list Event :=
  let '(t0, w0) := time_time (world s) in
  let cmd := AndroidBackup.pull_cmd (sourceRef c) (dest_path s c) in
  match subprocess_run cmd w0 with
  | (Ret r, w1) =>
      if returncode r =? 0 then
        let '(t1, w2) := time_time w1 in
        (Ret tt, mkState w2 (self s),
         [CallRun cmd;
          Print (MsgCopied (fileName c) idx total (progress idx total)
                   (size_mb (sizeBytes c))
                   (speed (size_mb (sizeBytes c)) (t1 - t0)%Q))])
      else
        (Ret tt, mkState w1 (self s),
         [CallRun cmd; Print (MsgErrorCopying (fileName c))])
  | (Raise KeyboardInterrupt, w1) =>
      (Raise KeyboardInterrupt, mkState w1 (self s), [CallRun cmd])
  | (Raise _, w1) =>
      (Ret tt, mkState w1 (self s),
       [CallRun cmd; Print (MsgErrorCopying (fileName c))])
  end.

(** The line printed for a candidate that is skipped. *)
Definition skip_line (total : nat) (item : nat * Candidate) : Event :=
  Print (MsgSkipped (fileName (snd item)) (fst item) total
           (progress (fst item) total)).

(** The loop body of [copy_files] of each class, and what it does. *)
Definition copy_one_of (k : DeviceKind) : nat -> nat * Candidate -> M W unit :=
  match k with
  | iPhone => iPhoneBackup.copy_one
  | Android => AndroidBackup.copy_one
  end.

Definition copy_outcome (k : DeviceKind) :=
  match k with
  | iPhone => iPhone_copy_outcome
  | Android => Android_copy_outcome
  end.

Definition copy_step (k : DeviceKind) (total : nat) (item : nat * Candidate)
    (s : State W) : Res unit * State W * list Event :=
  if dest_hasb (world s) (destination (self s)) (snd item)
  then (Ret tt, s, [skip_line total item])
  else copy_outcome k total (fst item) (snd item) s.

(** The call that fetches the candidate, as it shows in the trace. *)
Definition fetch_call (k : DeviceKind) (s : State W) (c : Candidate) : Event :=
  match k with
  | iPhone => CallCopy2 (sourceRef c) (dest_path s c)
  | Android => CallRun (AndroidBackup.pull_cmd (sourceRef c) (dest_path s c))
  end.

(** How the fetch of the candidate ends in the world [w], whatever the
    transport: it returns with success, fails with an exception the step
    handles, or is interrupted. *)
Inductive FetchEnd : Type := FetchOk | FetchFailed | FetchInterrupted.

Definition fetch_end (k : DeviceKind) (s : State W) (c : Candidate) (w : W)
  : FetchEnd * W :=
  match k with
  | iPhone =>
      match shutil_copy2 (sourceRef c) (dest_path s c) w with
      | (Ret _, w1) => (FetchOk, w1)
      | (Raise KeyboardInterrupt, w1) => (FetchInterrupted, w1)
      | (Raise _, w1) => (FetchFailed, w1)
      end
  | Android =>
      match subprocess_run
              (AndroidBackup.pull_cmd (sourceRef c) (dest_path s c)) w with
      | (Ret r, w1) => (if returncode r =? 0 then FetchOk else FetchFailed, w1)
      | (Raise KeyboardInterrupt, w1) => (FetchInterrupted, w1)
      | (Raise _, w1) => (FetchFailed, w1)
      end
  end.

(** The copy part of the stage: [copy_files] under its handler. *)
Definition copy_part (files : list Candidate) : M W unit :=
  try_except except_Exception (copy_files files) (print MsgInterrupted).

(** The backup object once verification has stored its two lists. *)
Definition verified_self (s : State W) (files : list Candidate) : Backup :=
  mkBackup (kind (self s)) (destination (self s)) (mount_point (self s))
    (verified_of (world s) (destination (self s)) files)
    (failed_of (world s) (destination (self s)) files).

(** Every delete call of the run is for a locator that the backup object
    holds as verified when the run ends. *)
Definition deletes_verified (o : Res unit * State W * list Event) : Prop :=
  Forall (deletes_within (verified_files (self (final o)))) (trace o).

(** What the scan of a mounted device collects for one file and for a
    whole walk, before sorting. *)
Definition iPhone_file_entry (w : W) (root file : string) : list Candidate :=
  if str_in (extension file) SUPPORTED_EXTENSIONS then
    match stat_size (OsPath.join root file) w with
    | Some size => [(OsPath.join root file, file, size)]
    | None => []
    end
  else [].

Definition iPhone_listing (w : W)
    (walk : list (string * list string * list string)) : list Candidate :=
  flat_map (fun entry => flat_map (iPhone_file_entry w (fst (fst entry)))
                           (snd entry)) walk.

(** The line the scan prints for a supported file whose size cannot be
    read; nothing for the other files. *)
Definition iPhone_file_report (w : W) (root file : string) : list Event :=
  if str_in (extension file) SUPPORTED_EXTENSIONS then
    match stat_size (OsPath.join root file) w with
    | Some _ => []
    | None => [Print (MsgCouldNotAccess file)]
    end
  else [].

End Outcomes.

(** ** A simulated world, to run the script on concrete inputs *)

Module Sim.

Record World : Type := mkWorld {
  files : list (string * Z);        (* local paths, mounted device included *)
  free : option Z;                  (* free bytes, or the reading fails *)
  walk : list (string * list string * list string);
  clock : list Q;                   (* the next readings of the clock *)
  answers : list string;            (* the next lines typed by the user *)
  faults : list (string * Raised);  (* sources whose copy or removal raises *)
  adb : list (list string * Res Completed);  (* replies of adb, by command *)
  remote : list (string * Z)        (* sizes of the files adb can pull *)
}.

Fixpoint assoc {A B} (eqb : A -> A -> bool) (k : A) (l : list (A * B))
  : option B :=
  match l with
  | [] => None
  | (k', v) :: r => if eqb k k' then Some v else assoc eqb k r
  end.

Fixpoint args_eqb (a b : list string) : bool :=
  match a, b with
  | [], [] => true
  | x :: a', y :: b' => (String.eqb x y && args_eqb a' b')%bool
  | _, _ => false
  end.

Definition set_files (w : World) (f : list (string * Z)) : World :=
  mkWorld f (free w) (walk w) (clock w) (answers w) (faults w) (adb w) (remote w).

Definition set_clock (w : World) (c : list Q) : World :=
  mkWorld (files w) (free w) (walk w) c (answers w) (faults w) (adb w) (remote w).

Definition set_answers (w : World) (a : list string) : World :=
  mkWorld (files w) (free w) (walk w) (clock w) a (faults w) (adb w) (remote w).

Definition unlink (p : string) (f : list (string * Z)) : list (string * Z) :=
  filter (fun kv => negb (String.eqb (fst kv) p)) f.

Definition copy2 (src dst : string) (w : World) : Res unit * World :=
  match assoc String.eqb src (faults w) with
  | Some e => (Raise e, w)
  | None =>
      match assoc String.eqb src (files w) with
      | Some n => (Ret tt, set_files w ((dst, n) :: files w))
      | None => (Raise OSError, w)
      end
  end.

Definition remove (p : string) (w : World) : Res unit * World :=
  match assoc String.eqb p (faults w) with
  | Some e => (Raise e, w)
  | None =>
      match assoc String.eqb p (files w) with
      | Some _ => (Ret tt, set_files w (unlink p (files w)))
      | None => (Raise OSError, w)
      end
  end.

(** [adb] answers from its table; a pull that exits with 0 leaves the
    remote file at the destination. *)
Definition subprocess (args : list string) (w : World)
  : Res Completed * World :=
  match assoc args_eqb args (adb w) with
  | Some (Ret r) =>
      match args with
      | [_; "pull"; src; dst] =>
          if returncode r =? 0 then
            match assoc String.eqb src (remote w) with
            | Some n => (Ret r, set_files w ((dst, n) :: files w))
            | None => (Ret r, w)
            end
          else (Ret r, w)
      | _ => (Ret r, w)
      end
  | Some (Raise e) => (Raise e, w)
  | None => (Ret (mkCompleted 1 EmptyString), w)
  end.

#[global] Instance os : OS World := {
  stat_size p w := assoc String.eqb p (files w);
  disk_usage_free _ w := free w;
  os_walk _ w := walk w;
  time_time w :=
    match clock w with
    | [] => (0%Q, w)
    | t :: r => (t, set_clock w r)
    end;
  input w :=
    match answers w with
    | [] => (EmptyString, w)
    | a :: r => (a, set_answers w r)
    end;
  shutil_copy2 := copy2;
  os_remove := remove;
  subprocess_run := subprocess
}.

Definition empty : World := mkWorld [] None [] [] [] [] [] [].

Definition start (k : DeviceKind) (dest : string) (mp : option string)
    (w : World) : State World :=
  mkState w (mkBackup k dest mp [] []).

(** *** Worlds and catalogs for the examples *)

Definition photo : Candidate := ("/m/DCIM/100APPLE/a.jpg", "a.jpg", 1048576).
Definition clip : Candidate := ("/m/DCIM/100APPLE/b.mov", "b.mov", 2097152).
Definition shot : Candidate := ("/m/DCIM/100APPLE/c.png", "c.png", 300).

(** The device is mounted under [/m]; the destination [/backup/d] is
    empty; the clock does not move between two readings. *)
Definition mounted : World :=
  mkWorld
    [("/m/DCIM", 0);
     ("/m/DCIM/100APPLE/a.jpg", 1048576);
     ("/m/DCIM/100APPLE/b.mov", 2097152);
     ("/m/DCIM/100APPLE/c.png", 300)]
    (Some 5000000)
    [("/m/DCIM", ["100APPLE"], []);
     ("/m/DCIM/100APPLE", [], ["b.mov"; "notes.txt"; "a.jpg"; "c.png"])]
    [5%Q; 5%Q; 7%Q; 9%Q]
    ["Y"; "y"; "Y"]
    [] [] [].

(** The same world after a complete backup of the three files. *)
Definition backed_up : World :=
  set_files mounted
    (("/backup/d/a.jpg", 1048576) :: ("/backup/d/b.mov", 2097152)
     :: ("/backup/d/c.png", 300) :: files mounted).

Definition iphone_at (w : World) : State World :=
  start iPhone "/backup/d" (Some "/m") w.

(** [mounted] after the first clock reading, after the copy of [photo],
    and after the second clock reading. *)
Definition photo_started : World := set_clock mounted [5%Q; 7%Q; 9%Q].

Definition photo_written : World :=
  set_files photo_started (("/backup/d/a.jpg", 1048576) :: files mounted).

Definition photo_copied : World := set_clock photo_written [7%Q; 9%Q].

(** A device that lists [b.mp4] before [a.mov], with a clip in upper
    case and a text file, mounted under [/m] and as seen through adb. *)
Definition listed : World :=
  mkWorld
    [("/m/DCIM", 0); ("/m/DCIM/b.mp4", 7); ("/m/DCIM/a.mov", 9);
     ("/m/DCIM/clip.MP4", 100); ("/m/DCIM/notes.txt", 5)]
    (Some 1000)
    [("/m/DCIM", [], ["b.mp4"; "a.mov"; "clip.MP4"; "notes.txt"])]
    [] [] []
    [(AndroidBackup.find_cmd "/sdcard/DCIM",
      Ret (mkCompleted 0
             ("/sdcard/DCIM/b.mp4" ++ String "010"
                ("/sdcard/DCIM/a.mov" ++ String "010"
                   ("/sdcard/DCIM/clip.MP4" ++ String "010"
                      ("/sdcard/DCIM/notes.txt" ++ String "010" EmptyString))))));
     (AndroidBackup.stat_cmd "/sdcard/DCIM/b.mp4",
      Ret (mkCompleted 0 ("7" ++ String "010" EmptyString)));
     (AndroidBackup.stat_cmd "/sdcard/DCIM/a.mov",
      Ret (mkCompleted 0 ("9" ++ String "010" EmptyString)));
     (AndroidBackup.stat_cmd "/sdcard/DCIM/clip.MP4",
      Ret (mkCompleted 0 ("100" ++ String "010" EmptyString)))]
    [("/sdcard/DCIM/b.mp4", 7); ("/sdcard/DCIM/a.mov", 9);
     ("/sdcard/DCIM/clip.MP4", 100)].

Definition android_at (w : World) : State World :=
  start Android "/backup/d" None w.

Definition listed_catalog_iphone : list Candidate :=
  [("/m/DCIM/a.mov", "a.mov", 9); ("/m/DCIM/b.mp4", "b.mp4", 7);
   ("/m/DCIM/clip.MP4", "clip.MP4", 100)].

Definition listed_catalog_android : list Candidate :=
  [("/sdcard/DCIM/a.mov", "a.mov", 9); ("/sdcard/DCIM/b.mp4", "b.mp4", 7);
   ("/sdcard/DCIM/clip.MP4", "clip.MP4", 100)].

(** A device seen through adb with two photos; [stat] answers for the
    first and, for the second, by the entry [second_reply]. *)
Definition two_photos (second_reply : Res Completed) : World :=
  mkWorld [] (Some 1000) [] [] [] []
    [(AndroidBackup.find_cmd "/sdcard/DCIM",
      Ret (mkCompleted 0
             ("/sdcard/DCIM/a.jpg" ++ String "010"
                ("/sdcard/DCIM/b.jpg" ++ String "010" EmptyString))));
     (AndroidBackup.stat_cmd "/sdcard/DCIM/a.jpg",
      Ret (mkCompleted 0 ("10" ++ String "010" EmptyString)));
     (AndroidBackup.stat_cmd "/sdcard/DCIM/b.jpg", second_reply)]
    [("/sdcard/DCIM/a.jpg", 10); ("/sdcard/DCIM/b.jpg", 20)].

(** [stat] on the second photo: exits with an error; answers with text
    that is no number; does not answer within the timeout. *)
Definition stat_denied : Res Completed := Ret (mkCompleted 1 EmptyString).
Definition stat_garbled : Res Completed :=
  Ret (mkCompleted 0 "stat: Permission denied").
Definition stat_timed_out : Res Completed := Raise SubprocessError.

(** A mounted device with two photos, the second of which cannot be
    stat'ed. *)
Definition one_unreadable : World :=
  mkWorld
    [("/m/DCIM", 0); ("/m/DCIM/a.jpg", 10)]
    (Some 1000)
    [("/m/DCIM", [], ["a.jpg"; "b.jpg"])]
    [] [] [] [] [].

(** [mounted] where the copy of the second file fails, and where it is
    interrupted from the keyboard. *)
Definition second_fails : World :=
  mkWorld (files mounted) (free mounted) (walk mounted) [] ["N"]
    [("/m/DCIM/100APPLE/b.mov", OSError)] [] [].

Definition second_interrupted : World :=
  mkWorld (files mounted) (free mounted) (walk mounted) [] ["N"]
    [("/m/DCIM/100APPLE/b.mov", KeyboardInterrupt)] [] [].

(** Two folders of the device hold a file of the same name and of
    different sizes; the destination has the first one from before. *)
Definition first_img : Candidate := ("/m/DCIM/100APPLE/IMG.jpg", "IMG.jpg", 100).
Definition second_img : Candidate := ("/m/DCIM/101APPLE/IMG.jpg", "IMG.jpg", 200).

Definition collision : World :=
  mkWorld
    [("/m/DCIM", 0);
     ("/m/DCIM/100APPLE/IMG.jpg", 100);
     ("/m/DCIM/101APPLE/IMG.jpg", 200);
     ("/backup/d/IMG.jpg", 100)]
    (Some 5000)
    [("/m/DCIM", ["100APPLE"; "101APPLE"], []);
     ("/m/DCIM/100APPLE", [], ["IMG.jpg"]);
     ("/m/DCIM/101APPLE", [], ["IMG.jpg"])]
    [] ["Y"; "N"] [] [] [].

End Sim.

(** ** Vocabulary of the further properties *)

Section DeleteVocabulary.
Context {W : Type} {os : OS W}.

(** The call that removes the locator, as it shows in the trace. *)
Definition delete_call (k : DeviceKind) (p : string) : Event :=
  match k with
  | iPhone => CallRemove p
  | Android => CallRun (AndroidBackup.rm_cmd p)
  end.

(** The event is a removal: [os.remove], or [adb shell] with a command
    that starts with [rm]. *)
Definition is_delete_call (e : Event) : bool :=
  match e with
  | CallRemove _ => true
  | CallRun [a; b; c] =>
      (String.eqb a "adb" && String.eqb b "shell" && String.prefix "rm " c)%bool
  | _ => false
  end.

(** The name in a line that reports on a removal. *)
Definition delete_report (e : Event) : list string :=
  match e with
  | Print (MsgDeleted n) => [n]
  | Print (MsgErrorDeleting n) => [n]
  | _ => []
  end.

(** The loop body of [delete_files] of each class, and what it does by
    the way the removal ends. *)
Definition delete_one_of (k : DeviceKind) : string -> M W unit :=
  match k with
  | iPhone => iPhoneBackup.delete_one
  | Android => AndroidBackup.delete_one
  end.

Definition delete_step (k : DeviceKind) (p : string) (s : State W)
  : Res unit * State W * list Event :=
  let base := OsPath.basename p in
  match k with
  | iPhone =>
      match os_remove p (world s) with
      | (Ret _, w1) =>
          (Ret tt, mkState w1 (self s), [CallRemove p; Print (MsgDeleted base)])
      | (Raise KeyboardInterrupt, w1) =>
          (Raise KeyboardInterrupt, mkState w1 (self s), [CallRemove p])
      | (Raise _, w1) =>
          (Ret tt, mkState w1 (self s),
           [CallRemove p; Print (MsgErrorDeleting base)])
      end
  | Android =>
      let cmd := AndroidBackup.rm_cmd p in
      match subprocess_run cmd (world s) with
      | (Ret r, w1) =>
          (Ret tt, mkState w1 (self s),
           [CallRun cmd;
            Print (if returncode r =? 0 then MsgDeleted base
                   else MsgErrorDeleting base)])
      | (Raise KeyboardInterrupt, w1) =>
          (Raise KeyboardInterrupt, mkState w1 (self s), [CallRun cmd])
      | (Raise _, w1) =>
          (Ret tt, mkState w1 (self s),
           [CallRun cmd; Print (MsgErrorDeleting base)])
      end
  end.

(** The name in a line that reports on a candidate of the transfer. *)
Definition copy_report (e : Event) : list string :=
  match e with
  | Print (MsgSkipped n _ _ _) => [n]
  | Print (MsgCopied n _ _ _ _ _) => [n]
  | Print (MsgErrorCopying n) => [n]
  | _ => []
  end.
End DeleteVocabulary.

(** [c in s] for a character. *)
Fixpoint contains (c : ascii) (s : string) : bool :=
  match s with
  | EmptyString => false
  | String d r => (Ascii.eqb d c || contains c r)%bool
  end.

(** Neither a fetch nor a removal. *)
Definition quiet (e : Event) : Prop :=
  is_delete_call e = false /\ is_fetch e = false.

(** A candidate as the scan over adb builds it: the locator is a line of
    the listing without the blanks around it, and the file name is the
    base name of the locator. *)
Definition adb_candidate (c : Candidate) : Prop :=
  fileName c = OsPath.basename (sourceRef c)
  /\ PyStr.strip (sourceRef c) = sourceRef c
  /\ sourceRef c <> EmptyString.

(** * The session around the backup: device set-up and [main] *)

(** What the set-up needs from the host besides the calls of [OS]. *)
Class Host (W : Type) : Type := {
  (** [os.getpid()] *)
  os_getpid : W -> Z;
  (** [os.makedirs(path, exist_ok=True)] *)
  os_makedirs : string -> W -> Res unit * W;
  (** [os.rmdir(path)] *)
  os_rmdir : string -> W -> Res unit * W;
  (** [os.path.abspath(os.path.expanduser(path))] *)
  abspath_expanduser : string -> W -> string;
  (** [datetime.today().strftime("%Y-%m-%d")] *)
  today : W -> string;
  (** The program of [subprocess.run(args)] is not installed: the
      [OSError] the call raises is a [FileNotFoundError]. *)
  program_missing : list string -> W -> bool
}.

(** What the set-up and [main] print. *)
Inductive Notice : Type :=
| MsgToolsNotFound
| MsgInstallTools
| MsgAdbNotFound
| MsgInstallAdb
| MsgConnected
| MsgFailedToMount
| MsgFailedToMountDevice
| MsgErrorUnmounting
| MsgDestinationRequired
| MsgSelectDevice
| MsgOptionIPhone
| MsgOptionAndroid
| MsgInvalidSelection
| MsgDeviceNotFound (device_type : string)
| MsgErrorOccurred.

(** What a session does that can be seen from outside: the events of the
    backup, the lines of the set-up, and the directory calls. *)
Inductive Step : Type :=
| Core (e : Event)
| Say (m : Notice)
| CallMakedirs (path : string)
| CallRmdir (path : string).

(** The monad of the session: the one of the backup over [Step]. *)
Module Session.
Section Monad.
Context {W : Type}.

Definition T (A : Type) : Type := State W -> Res A * State W * list Step.

Definition ret {A} (a : A) : T A := fun s => (Ret a, s, []).

Definition bind {A B} (m : T A) (f : A -> T B) : T B :=
  fun s =>
    match m s with
    | (Ret a, s1, t1) =>
        match f a s1 with
        | (r, s2, t2) => (r, s2, (t1 ++ t2)%list)
        end
    | (Raise e, s1, t1) => (Raise e, s1, t1)
    end.

Definition raise {A} (e : Raised) : T A := fun s => (Raise e, s, []).

Definition emit (e : Step) : T unit := fun s => (Ret tt, s, [e]).

Definition say (m : Notice) : T unit := emit (Say m).

(** A computation of the backup, run within the session. *)
Definition lift {A} (m : M W A) : T A :=
  fun s => match m s with
           | (r, s1, t1) => (r, s1, map Core t1)
           end.

(** [try: body  except <catches>: handler] *)
Definition try_except {A} (catches : Raised -> bool)
    (body : T A) (handler : T A) : T A :=
  fun s =>
    match body s with
    | (Raise e, s1, t1) =>
        if catches e then
          match handler s1 with
          | (r, s2, t2) => (r, s2, (t1 ++ t2)%list)
          end
        else (Raise e, s1, t1)
    | out => out
    end.

(** [try: body  finally: fin] *)
Definition try_finally {A} (body : T A) (fin : T unit) : T A :=
  fun s =>
    match body s with
    | (r, s1, t1) =>
        match fin s1 with
        | (Ret _, s2, t2) => (r, s2, (t1 ++ t2)%list)
        | (Raise e, s2, t2) => (Raise e, s2, (t1 ++ t2)%list)
        end
    end.

Definition result {A} (o : Res A * State W * list Step) : Res A := fst (fst o).
Definition final {A} (o : Res A * State W * list Step) : State W := snd (fst o).
Definition trace {A} (o : Res A * State W * list Step) : list Step := snd o.

End Monad.

Arguments T W A : clear implicits.
End Session.

Declare Scope session_scope.
Delimit Scope session_scope with session.
Notation "x <- m ;; k" := (Session.bind m (fun x => k))
  (at level 61, m at next level, right associativity) : session_scope.
Notation "m ;; k" := (Session.bind m (fun _ => k))
  (at level 61, right associativity) : session_scope.

(** [str(n)] for an [int] *)
Definition str (n : Z) : string := NilZero.string_of_int (Z.to_int n).

(** [sub in s] for two strings *)
Fixpoint in_str (sub s : string) : bool :=
  (String.prefix sub s
   || match s with
      | EmptyString => false
      | String _ r => in_str sub r
      end)%bool.

(** The truth value of an optional string: [None] and the empty string
    are false. *)
Definition truthy (o : option string) : bool :=
  match o with
  | Some s => negb (String.eqb s EmptyString)
  | None => false
  end.

(** [except (subprocess.CalledProcessError, FileNotFoundError,
    subprocess.TimeoutExpired)], where [not_found] tells whether an
    [OSError] of the call is a [FileNotFoundError]. *)
Definition except_tool_failure (not_found : bool) (e : Raised) : bool :=
  match e with
  | SubprocessError => true
  | OSError => not_found
  | _ => false
  end.

(** [except (subprocess.CalledProcessError, subprocess.TimeoutExpired)] *)
Definition except_SubprocessError (e : Raised) : bool :=
  match e with SubprocessError => true | _ => false end.

(** Calls of the set-up. *)
Section SessionCalls.
Context {W : Type} {os : OS W} {host : Host W}.
Local Open Scope session_scope.

(** [subprocess.run(args, ..., check=True)]: an exit code other than 0
    raises [CalledProcessError]. *)
Definition run_checked (args : list string) : Session.T W Completed :=
  r <- Session.lift (run args) ;;
  if returncode r =? 0 then Session.ret r else Session.raise SubprocessError.

(** [os.makedirs(path, exist_ok=True)] *)
Definition makedirs (path : string) : Session.T W unit :=
  Session.emit (CallMakedirs path) ;;
  Session.lift (call_res (os_makedirs path)).

(** [os.rmdir(path)] *)
Definition rmdir (path : string) : Session.T W unit :=
  Session.emit (CallRmdir path) ;;
  Session.lift (call_res (os_rmdir path)).

(** [input(prompt).strip()] *)
Definition ask_line : Session.T W string :=
  r <- Session.lift (call input) ;; Session.ret (PyStr.strip r).
End SessionCalls.

(** ** The set-up methods of [class iPhoneBackup] *)

Module iPhoneDevice.
Section Methods.
Context {W : Type} {os : OS W} {host : Host W}.
Local Open Scope session_scope.

(** [iPhoneBackup(destination)] *)
Definition init (destination : string) : Backup :=
  mkBackup iPhone destination None [] [].

Definition check_dependencies : Session.T W bool :=
  not_found <- Session.lift (read (program_missing ["ideviceinfo"; "-s"])) ;;
  Session.try_except (except_tool_failure not_found)
    (run_checked ["ideviceinfo"; "-s"] ;;
     Session.ret true)
    (Session.say MsgToolsNotFound ;;
     Session.say MsgInstallTools ;;
     Session.ret false).

Definition is_device_connected : Session.T W bool :=
  Session.try_except except_SubprocessError
    (result <- Session.lift (run ["ideviceinfo"; "-s"]) ;;
     Session.ret (returncode result =? 0))
    (Session.ret false).

Definition mount_device : Session.T W (option string) :=
  Session.try_except except_Exception
    (pid <- Session.lift (read os_getpid) ;;
     let mount_point := ("/tmp/iphone_mount_" ++ str pid)%string in
     makedirs mount_point ;;
     result <- Session.lift (run ["ifuse"; mount_point]) ;;
     if returncode result =? 0 then
       self <- Session.lift get_self ;;
       Session.lift
         (set_self (mkBackup (kind self) (destination self) (Some mount_point)
                      (verified_files self) (failed_files self))) ;;
       Session.say MsgConnected ;;
       Session.ret (Some mount_point)
     else
       Session.say MsgFailedToMount ;;
       Session.ret None)
    (Session.say MsgFailedToMountDevice ;;
     Session.ret None).

Definition unmount_device : Session.T W unit :=
  self <- Session.lift get_self ;;
  if truthy (mount_point self) then
    match mount_point self with
    | Some mp =>
        Session.try_except except_Exception
          (Session.lift (run ["umount"; mp]) ;;
           rmdir mp)
          (Session.say MsgErrorUnmounting)
    | None => Session.ret tt
    end
  else Session.ret tt.

End Methods.
End iPhoneDevice.

(** ** The set-up methods of [class AndroidBackup] *)

Module AndroidDevice.
Section Methods.
Context {W : Type} {os : OS W} {host : Host W}.
Local Open Scope session_scope.

(** [AndroidBackup(destination)] *)
Definition init (destination : string) : Backup :=
  mkBackup Android destination None [] [].

Definition check_dependencies : Session.T W bool :=
  not_found <- Session.lift (read (program_missing ["adb"; "version"])) ;;
  Session.try_except (except_tool_failure not_found)
    (run_checked ["adb"; "version"] ;;
     Session.ret true)
    (Session.say MsgAdbNotFound ;;
     Session.say MsgInstallAdb ;;
     Session.ret false).

Definition is_device_connected : Session.T W bool :=
  Session.try_except except_SubprocessError
    (result <- Session.lift (run ["adb"; "devices"]) ;;
     let lines := PyStr.split "010" (PyStr.strip (stdout result)) in
     Session.ret ((1 <? List.length lines)%nat
                  && in_str "device" (nth 1 lines EmptyString))%bool)
    (Session.ret false).

End Methods.
End AndroidDevice.

(** ** [main] *)

(** The parsed command line: [args.dest] and [args.device]. *)
Module Args.
Record t : Type := mk { dest : option string; device : option string }.
End Args.

Section Session.
Context {W : Type} {os : OS W} {host : Host W}.
Local Open Scope session_scope.

(** Method dispatch on the class of the backup object. *)
Definition check_dependencies : Session.T W bool :=
  b <- Session.lift get_self ;;
  match kind b with
  | iPhone => iPhoneDevice.check_dependencies
  | Android => AndroidDevice.check_dependencies
  end.

Definition is_device_connected : Session.T W bool :=
  b <- Session.lift get_self ;;
  match kind b with
  | iPhone => iPhoneDevice.is_device_connected
  | Android => AndroidDevice.is_device_connected
  end.

(** Lines 360 to 365: the destination directory, [None] where [main]
    returns. *)
Definition get_destination (args : Args.t) : Session.T W (option string) :=
  if truthy (Args.dest args) then Session.ret (Args.dest args)
  else
    destination_root <- ask_line ;;
    if negb (truthy (Some destination_root)) then
      Session.say MsgDestinationRequired ;;
      Session.ret None
    else Session.ret (Some destination_root).

(** Lines 371 to 384: the device type, [None] where [main] returns. *)
Definition get_device_type (args : Args.t) : Session.T W (option string) :=
  if truthy (Args.device args) then Session.ret (Args.device args)
  else
    Session.say MsgSelectDevice ;;
    Session.say MsgOptionIPhone ;;
    Session.say MsgOptionAndroid ;;
    choice <- ask_line ;;
    if String.eqb choice "1" then Session.ret (Some "iphone")
    else if String.eqb choice "2" then Session.ret (Some "android")
    else
      Session.say MsgInvalidSelection ;;
      Session.ret None.

(** Lines 402 to 413: the checks on the handler object; [False] where
    [main] returns. *)
Definition connect : Session.T W bool :=
  ok <- check_dependencies ;;
  if negb ok then Session.ret false
  else
    connected <- is_device_connected ;;
    if negb connected then
      backup <- Session.lift get_self ;;
      Session.say (MsgDeviceNotFound (device_type backup)) ;;
      Session.ret false
    else
      backup <- Session.lift get_self ;;
      match kind backup with
      | iPhone =>
          mounted <- iPhoneDevice.mount_device ;;
          Session.ret (truthy mounted)
      | Android => Session.ret true
      end.

(** Lines 359 to 413: all that comes before the question to commence;
    [False] where [main] returns. *)
Definition setup (args : Args.t) : Session.T W bool :=
  d <- get_destination args ;;
  match d with
  | None => Session.ret false
  | Some destination_root =>
      destination_root <-
        Session.lift (read (abspath_expanduser destination_root)) ;;
      t <- get_device_type args ;;
      match t with
      | None => Session.ret false
      | Some device_type =>
          let device_type :=
            if String.eqb device_type "pixel" then "android" else device_type in
          today <- Session.lift (read today) ;;
          let destination_root := OsPath.join destination_root today in
          makedirs destination_root ;;
          Session.lift
            (set_self (if String.eqb device_type "iphone"
                       then iPhoneDevice.init destination_root
                       else AndroidDevice.init destination_root)) ;;
          connect
      end
  end.

(** Lines 459 to 462: the clean-up. *)
Definition cleanup : Session.T W unit :=
  backup <- Session.lift get_self ;;
  match kind backup with
  | iPhone => iPhoneDevice.unmount_device
  | Android => Session.ret tt
  end.

(** [main()] for the parsed command line [args]. *)
Definition main (args : Args.t) : Session.T W unit :=
  Session.try_finally
    (Session.try_except except_Exception
       (ready <- setup args ;;
        if ready then Session.try_finally (Session.lift main_run) cleanup
        else Session.ret tt)
       (Session.say MsgErrorOccurred))
    (Session.lift (call input) ;; Session.ret tt).

End Session.

(** ** A host for the examples *)

Module SimHost.

(** A directory shows in [files] with size 0. *)
Definition makedirs (p : string) (w : Sim.World) : Res unit * Sim.World :=
  match Sim.assoc String.eqb p (Sim.faults w) with
  | Some e => (Raise e, w)
  | None =>
      match Sim.assoc String.eqb p (Sim.files w) with
      | Some _ => (Ret tt, w)
      | None => (Ret tt, Sim.set_files w ((p, 0) :: Sim.files w))
      end
  end.

Definition rmdir (p : string) (w : Sim.World) : Res unit * Sim.World :=
  match Sim.assoc String.eqb p (Sim.faults w) with
  | Some e => (Raise e, w)
  | None =>
      match Sim.assoc String.eqb p (Sim.files w) with
      | Some _ => (Ret tt, Sim.set_files w (Sim.unlink p (Sim.files w)))
      | None => (Raise OSError, w)
      end
  end.

(** The process is 4242, the day is 2024-05-17, relative paths are below
    [/home/me], and a program that raises [OSError] is not installed. *)
#[global] Instance host : Host Sim.World := {
  os_getpid _ := 4242;
  os_makedirs := makedirs;
  os_rmdir := rmdir;
  abspath_expanduser p _ :=
    if OsPath.starts_with_sep p then p else ("/home/me/" ++ p)%string;
  today _ := "2024-05-17";
  program_missing args w :=
    match Sim.assoc Sim.args_eqb args (Sim.adb w) with
    | Some (Raise OSError) => true
    | _ => false
    end
}.

Definition mp : string := "/tmp/iphone_mount_4242".

(** An iPhone with one photo; the tools answer, and the user types [y]
    to commence, [y] to delete and a last empty line. *)
Definition phone : Sim.World :=
  Sim.mkWorld
    [("/tmp/iphone_mount_4242/DCIM", 0);
     ("/tmp/iphone_mount_4242/DCIM/a.jpg", 10)]
    (Some 5000)
    [("/tmp/iphone_mount_4242/DCIM", [], ["a.jpg"])]
    [1%Q; 2%Q]
    ["y"; "y"; EmptyString]
    []
    [(["ideviceinfo"; "-s"], Ret (mkCompleted 0 EmptyString));
     (["ifuse"; mp], Ret (mkCompleted 0 EmptyString));
     (["umount"; mp], Ret (mkCompleted 0 EmptyString))]
    [].

(** The same where [ifuse] fails, and where no tool is installed. *)
Definition phone_locked : Sim.World :=
  Sim.mkWorld (Sim.files phone) (Sim.free phone) (Sim.walk phone)
    (Sim.clock phone) (Sim.answers phone) []
    [(["ideviceinfo"; "-s"], Ret (mkCompleted 0 EmptyString));
     (["ifuse"; mp], Ret (mkCompleted 1 EmptyString))]
    [].

Definition no_tools : Sim.World :=
  Sim.mkWorld [] (Some 5000) [] [] ["2"; EmptyString] []
    [(["ideviceinfo"; "-s"], Raise OSError);
     (["adb"; "version"], Raise OSError)]
    [].

(** The state [main] starts in: no handler object has been made yet. *)
Definition boot (w : Sim.World) : State Sim.World :=
  Sim.start Android EmptyString None w.

Definition to_backup_iphone : Args.t := Args.mk (Some "/backup") (Some "iphone").

End SimHost.

(** ** Vocabulary of the session properties *)

(** Every step a run of [m] makes satisfies [P]. *)
Definition steps_only {W A} (P : Step -> Prop) (m : Session.T W A) : Prop :=
  forall s, Forall P (Session.trace (m s)).

(** No run of [m] changes the backup object. *)
Definition session_keeps_self {W A} (m : Session.T W A) : Prop :=
  forall s, self (Session.final (m s)) = self s.

(** The events of the backup among the steps of a session. *)
Definition core (t : list Step) : list Event :=
  flat_map (fun e => match e with Core e => [e] | _ => [] end) t.

(** The step neither fetches nor removes a file. *)
Definition harmless (e : Step) : Prop :=
  match e with
  | Core e => quiet e
  | _ => True
  end.

(** The step runs [umount]. *)
Definition is_umount (e : Step) : bool :=
  match e with
  | Core (CallRun (prog :: _)) => String.eqb prog "umount"
  | _ => false
  end.

(** The event runs no program, or runs [adb]. *)
Definition adb_only (e : Event) : Prop :=
  match e with
  | CallRun args => exists r, args = "adb" :: r
  | _ => True
  end.

(** The backup object once the device is mounted under [mp]. *)
Definition with_mount_point (b : Backup) (mp : string) : Backup :=
  mkBackup (kind b) (destination b) (Some mp)
    (verified_files b) (failed_files b).

(** What is printed when [main] gives up on an exception, if anything. *)
Definition gave_up (tail : list Step) : Prop :=
  tail = [] \/ tail = [Say MsgErrorOccurred].

(** No run of [m] changes the class, the mount point or the destination
    of the backup object. *)
Definition keeps_device {W A} (m : M W A) : Prop :=
  forall s,
    kind (self (final (m s))) = kind (self s)
    /\ mount_point (self (final (m s))) = mount_point (self s)
    /\ destination (self (final (m s))) = destination (self s).

(** The step prints a line of the set-up. *)
Definition is_say (e : Step) : Prop :=
  match e with
  | Say _ => True
  | _ => False
  end.

(** The command each class probes its tools with, the lines it prints
    when the probe fails, and the command it looks for a device with. *)
Definition tool_probe (k : DeviceKind) : list string :=
  match k with
  | iPhone => ["ideviceinfo"; "-s"]
  | Android => ["adb"; "version"]
  end.

Definition tool_hint (k : DeviceKind) : list Step :=
  match k with
  | iPhone => [Say MsgToolsNotFound; Say MsgInstallTools]
  | Android => [Say MsgAdbNotFound; Say MsgInstallAdb]
  end.

Definition connection_probe (k : DeviceKind) : list string :=
  match k with
  | iPhone => ["ideviceinfo"; "-s"]
  | Android => ["adb"; "devices"]
  end.

(** The output of [adb devices], blanks around it aside, has a second
    line, and the word [device] occurs in that line. *)
Definition lists_a_device (out : string) : Prop :=
  exists header second rest a b,
    PyStr.split "010" (PyStr.strip out) = header :: second :: rest
    /\ second = (a ++ "device" ++ b)%string.



(** The event is neither the closing line of a backup nor the line about
    an interrupted transfer. *)
Definition mid_run (e : Event) : Prop :=
  e <> Print MsgDone /\ e <> Print MsgInterrupted.

(** ** What a device lists *)

Section Listings.
Context {W : Type} {os : OS W}.

(** What the scan over adb collects for one line of the listing, when
    [stat] is asked in the world [w]. *)
Definition Android_file_entry (w : W) (line : string) : list Candidate :=
  let file_path := PyStr.strip line in
  let file_name := OsPath.basename file_path in
  if String.eqb file_path EmptyString then []
  else if str_in (extension file_name) SUPPORTED_EXTENSIONS then
    match fst (subprocess_run (AndroidBackup.stat_cmd file_path) w) with
    | Ret r =>
        if returncode r =? 0 then
          match PyStr.int (PyStr.strip (stdout r)) with
          | Some size => [(file_path, file_name, size)]
          | None => []
          end
        else []
    | Raise _ => []
    end
  else [].

Definition Android_listing (w : W) (lines : list string) : list Candidate :=
  flat_map (Android_file_entry w) lines.

(** The lines of the output of [find]. *)
Definition adb_lines (r : Completed) : list string :=
  PyStr.split "010" (PyStr.strip (stdout r)).

(** [stat] on the media files of the listing is a query in [w]: the
    command comes back, with an answer of at most 4300 characters (the
    most digits that [int] reads in recent versions), and leaves the
    world as it is. *)
Definition stat_is_a_query (w : W) (lines : list string) : Prop :=
  forall line, In line lines ->
    PyStr.strip line <> EmptyString ->
    str_in (extension (OsPath.basename (PyStr.strip line))) SUPPORTED_EXTENSIONS
    = true ->
    exists r,
      subprocess_run (AndroidBackup.stat_cmd (PyStr.strip line)) w = (Ret r, w)
      /\ (String.length (stdout r) <= 4300)%nat.

(** The scan has what it needs.  On the mounted device: a mount point
    with a DCIM folder.  Over adb: [find] exits with 0 and [stat] is a
    query on what it lists. *)
Definition clean_scan (s : State W) : Prop :=
  match kind (self s) with
  | iPhone =>
      exists mp,
        mount_point (self s) = Some mp
        /\ mp <> EmptyString
        /\ stat_size (OsPath.join mp "DCIM") (world s) <> None
  | Android =>
      exists r w1,
        subprocess_run (AndroidBackup.find_cmd "/sdcard/DCIM") (world s)
        = (Ret r, w1)
        /\ returncode r = 0
        /\ stat_is_a_query w1 (adb_lines r)
  end.

(** The media files the device lists with a readable size, in the order
    in which the transport gives them. *)
Definition listing_of (s : State W) : list Candidate :=
  match kind (self s) with
  | iPhone =>
      match mount_point (self s) with
      | Some mp =>
          iPhone_listing (world s) (os_walk (OsPath.join mp "DCIM") (world s))
      | None => []
      end
  | Android =>
      match subprocess_run (AndroidBackup.find_cmd "/sdcard/DCIM") (world s) with
      | (Ret r, w1) => Android_listing w1 (adb_lines r)
      | (Raise _, _) => []
      end
  end.

End Listings.

(** The integer is well inside the range in which Python's [int / int]
    gives a float: a quotient of it by a power of two does not raise
    [OverflowError], which the embedding does not model. *)
Definition float_safe (n : Z) : Prop := Z.abs n < 2 ^ 1000.

(** * Properties *)

(** ** Evaluation of the primitives on examples *)

Example splitext_upper : OsPath.splitext "clip.MP4" = ("clip", ".MP4").
Proof. reflexivity. Qed.

Example splitext_hidden :
  OsPath.splitext "dir.d/..mov" = ("dir.d/..mov", EmptyString).
Proof. reflexivity. Qed.

Example join_examples :
  (OsPath.join "/backup/2024-01-01" "a.jpg", OsPath.join "/backup/" "a.jpg",
   OsPath.join "/backup" "/abs.jpg")
  = ("/backup/2024-01-01/a.jpg", "/backup/a.jpg", "/abs.jpg").
Proof. reflexivity. Qed.

Example int_examples :
  (PyStr.int " 1_024 ", PyStr.int "-7", PyStr.int "12a", PyStr.int EmptyString,
   PyStr.int "1__0", PyStr.int "007")
  = (Some 1024, Some (-7), None, None, None, Some 7).
Proof. reflexivity. Qed.

Example split_strip :
  map PyStr.strip
    (PyStr.split "010"
       (PyStr.strip (" /a/b.jpg" ++ String "010" ("/a/c.txt" ++ String "010" " "))))
  = ["/a/b.jpg"; "/a/c.txt"].
Proof. reflexivity. Qed.

(** ** Laws of the monad *)

Section MonadLaws.
Context {W : Type}.
Implicit Types s : State W.

Lemma bind_Ret {A B} (m : M W A) (f : A -> M W B) s a s1 t1 :
  m s = (Ret a, s1, t1) ->
  bind m f s = (result (f a s1), final (f a s1), (t1 ++ trace (f a s1))%list).
Proof.
  intros E. unfold bind. rewrite E.
  destruct (f a s1) as [[r s2] t2]. reflexivity.
Qed.

Lemma bind_Raise {A B} (m : M W A) (f : A -> M W B) s e s1 t1 :
  m s = (Raise e, s1, t1) -> bind m f s = (Raise e, s1, t1).
Proof. intros E. unfold bind. rewrite E. reflexivity. Qed.

Lemma run_eta {A} (o : Res A * State W * list Event) :
  o = (result o, final o, trace o).
Proof. destruct o as [[r s] t]. reflexivity. Qed.

(** The trace of a sequence is the trace of its first part, followed
    by the trace of the rest when the first part returned. *)
Lemma trace_bind {A B} (m : M W A) (f : A -> M W B) s :
  trace (bind m f s) =
  (trace (m s) ++
   match result (m s) with
   | Ret a => trace (f a (final (m s)))
   | Raise _ => []
   end)%list.
Proof.
  unfold bind, result, final, trace.
  destruct (m s) as [[[a|e] s1] t1]; simpl.
  - destruct (f a s1) as [[r s2] t2]. reflexivity.
  - now rewrite app_nil_r.
Qed.

Lemma trace_try_except {A} c (body handler : M W A) s :
  trace (try_except c body handler s) =
  (trace (body s) ++
   match result (body s) with
   | Raise e => if c e then trace (handler (final (body s))) else []
   | Ret _ => []
   end)%list.
Proof.
  unfold try_except, result, final, trace.
  destruct (body s) as [[[a|e] s1] t1]; simpl.
  - now rewrite app_nil_r.
  - destruct (c e); simpl.
    + destruct (handler s1) as [[r s2] t2]. reflexivity.
    + now rewrite app_nil_r.
Qed.

Lemma trace_try_finally {A} (body : M W A) (fin : M W unit) s :
  trace (try_finally body fin s) =
  (trace (body s) ++ trace (fin (final (body s))))%list.
Proof.
  unfold try_finally, result, final, trace.
  destruct (body s) as [[r s1] t1]; simpl.
  destruct (fin s1) as [[[u|e] s2] t2]; reflexivity.
Qed.

End MonadLaws.

(** ** What a loop leaves in the trace *)

Section TraceInvariants.
Context {W : Type}.
Variable P : Event -> Prop.

Lemma emits_only_ret {A} (a : A) : emits_only (W:=W) P (ret a).
Proof. intros s. constructor. Qed.

Lemma emits_only_raise {A} e : emits_only (W:=W) P (@raise W A e).
Proof. intros s. constructor. Qed.

Lemma emits_only_read {A} (f : W -> A) : emits_only (W:=W) P (read f).
Proof. intros s. constructor. Qed.

Lemma emits_only_read_or_raise {A} e (f : W -> option A) :
  emits_only (W:=W) P (read_or_raise e f).
Proof. intros s. unfold read_or_raise. destruct (f (world s)); constructor. Qed.

Lemma emits_only_call {A} (f : W -> A * W) : emits_only (W:=W) P (call f).
Proof. intros s. unfold call. destruct (f (world s)). constructor. Qed.

Lemma emits_only_call_res {A} (f : W -> Res A * W) : emits_only (W:=W) P (call_res f).
Proof. intros s. unfold call_res. destruct (f (world s)). constructor. Qed.

Lemma emits_only_get_self : emits_only (W:=W) P (@get_self W).
Proof. intros s. constructor. Qed.

Lemma emits_only_set_self b : emits_only (W:=W) P (@set_self W b).
Proof. intros s. constructor. Qed.

Lemma emits_only_emit e : P e -> emits_only (W:=W) P (@emit W e).
Proof. intros H s. repeat constructor. exact H. Qed.

Lemma emits_only_bind {A B} (m : M W A) (f : A -> M W B) :
  emits_only (W:=W) P m -> (forall a, emits_only (W:=W) P (f a)) -> emits_only (W:=W) P (bind m f).
Proof.
  intros Hm Hf s. rewrite trace_bind. apply Forall_app. split; [apply Hm|].
  destruct (result (m s)); [apply Hf | constructor].
Qed.

Lemma emits_only_try_except {A} c (body handler : M W A) :
  emits_only (W:=W) P body -> emits_only (W:=W) P handler ->
  emits_only (W:=W) P (try_except c body handler).
Proof.
  intros Hb Hh s. rewrite trace_try_except. apply Forall_app.
  split; [apply Hb|].
  destruct (result (body s)); [constructor|].
  destruct (c e); [apply Hh | constructor].
Qed.

Lemma emits_only_try_finally {A} (body : M W A) fin :
  emits_only (W:=W) P body -> emits_only (W:=W) P fin -> emits_only (W:=W) P (try_finally body fin).
Proof.
  intros Hb Hf s. rewrite trace_try_finally. apply Forall_app.
  split; [apply Hb | apply Hf].
Qed.

Lemma emits_only_for_each {A} (l : list A) (body : A -> M W unit) :
  (forall x, emits_only (W:=W) P (body x)) -> emits_only (W:=W) P (for_each l body).
Proof.
  intros Hb. induction l as [|x l IH]; simpl.
  - apply emits_only_ret.
  - apply emits_only_bind; [apply Hb | intros _; exact IH].
Qed.

Lemma emits_only_for_fold {A S} (l : list A) (body : A -> S -> M W S) acc :
  (forall x a, emits_only (W:=W) P (body x a)) -> emits_only (W:=W) P (for_fold l acc body).
Proof.
  intros Hb. revert acc. induction l as [|x l IH]; intros acc; simpl.
  - apply emits_only_ret.
  - apply emits_only_bind; [apply Hb | intros a; apply IH].
Qed.

Lemma emits_only_truediv a b : emits_only (W:=W) P (@truediv W a b).
Proof.
  unfold truediv. destruct (Qeq_bool b 0);
    [apply emits_only_raise | apply emits_only_ret].
Qed.

End TraceInvariants.

(** ** The size test shared by transfer and verification *)

Section SizeTest.
Context {W : Type} {os : OS W}.
Implicit Types s : State W.

(** The test reads the destination once; it never raises, because
    [getsize] is only reached for a path that [exists] has accepted. *)
Lemma exists_with_size_run path size s :
  exists_with_size path size s =
  (Ret match stat_size path (world s) with
       | Some n => n =? size
       | None => false
       end, s, []).
Proof.
  unfold exists_with_size, path_exists, getsize, bind, read, read_or_raise, ret.
  cbv beta. destruct (stat_size path (world s)) eqn:E; rewrite ?E; reflexivity.
Qed.

Lemma dest_hasb_spec w dest c : dest_hasb w dest c = true <-> dest_has w dest c.
Proof.
  unfold dest_hasb, dest_has.
  destruct (stat_size (OsPath.join dest (fileName c)) w) as [n|].
  - rewrite Z.eqb_eq. split.
    + intros ->. eauto.
    + intros [m [[= ->] ->]]. reflexivity.
  - split; [discriminate | intros [m [[=] _]]].
Qed.

Lemma dest_hasb_false w dest c :
  dest_hasb w dest c = false <-> ~ dest_has w dest c.
Proof.
  rewrite <- dest_hasb_spec. destruct (dest_hasb w dest c); split; congruence.
Qed.
End SizeTest.

(** ** Verification *)

Section Verification.
Context {W : Type} {os : OS W}.
Implicit Types s : State W.

Lemma verify_one_run c v f s :
  DeviceBackup.verify_one c (v, f) s
  = (Ret (if dest_hasb (world s) (destination (self s)) c
          then ((v ++ [sourceRef c])%list, f)
          else (v, (f ++ [fileName c])%list)), s, []).
Proof.
  destruct c as [[src name] size]. unfold DeviceBackup.verify_one.
  erewrite bind_Ret by reflexivity. cbv zeta.
  erewrite bind_Ret by apply exists_with_size_run.
  unfold dest_hasb, fileName, sizeBytes, sourceRef. simpl.
  destruct (stat_size _ _) as [n|]; [destruct (n =? size)|]; reflexivity.
Qed.

(** The loop of [verify_files] appends to its two lists, in catalog
    order, and touches nothing else. *)
Lemma verify_loop_run files s v0 f0 :
  for_fold files (v0, f0) DeviceBackup.verify_one s
  = (Ret ((v0 ++ verified_of (world s) (destination (self s)) files)%list,
          (f0 ++ failed_of (world s) (destination (self s)) files)%list),
     s, []).
Proof.
  revert v0 f0. induction files as [|c files IH]; intros v0 f0.
  - unfold verified_of, failed_of. simpl. now rewrite !app_nil_r.
  - simpl for_fold. erewrite bind_Ret by apply verify_one_run.
    unfold verified_of, failed_of in *. simpl.
    destruct (dest_hasb (world s) (destination (self s)) c); simpl;
      rewrite IH; unfold result, final, trace; simpl;
      rewrite <- ?app_assoc; reflexivity.
Qed.

Lemma print_each_run {A} (msg : A -> Message) (l : list A) s :
  for_each l (fun x => print (msg x)) s
  = (Ret tt, s, map (fun x => Print (msg x)) l).
Proof.
  induction l as [|x l IH]; [reflexivity|].
  simpl for_each. erewrite bind_Ret by reflexivity. rewrite IH. reflexivity.
Qed.

(** One run of [verify_files]: it returns the two lists, stores them in
    the object, leaves the world alone and never raises. *)
Lemma verify_files_run files s :
  let V := verified_of (world s) (destination (self s)) files in
  let F := failed_of (world s) (destination (self s)) files in
  DeviceBackup.verify_files files s
  = (Ret (V, F),
     mkState (world s)
       (mkBackup (kind (self s)) (destination (self s))
          (mount_point (self s)) V F),
     (Print MsgVerifying :: Print (MsgVerified (List.length V))
        :: failed_report F)%list).
Proof.
  intros V F.
  assert (R : (match F with
               | [] => ret tt
               | _ :: _ =>
                   print MsgSomeFailed ;;
                   for_each F (fun f => print (MsgFailedItem f))
               end) s = (Ret tt, s, failed_report F)).
  { unfold failed_report. destruct F as [|f F']; [reflexivity|].
    erewrite bind_Ret by reflexivity. rewrite print_each_run. reflexivity. }
  unfold DeviceBackup.verify_files.
  unfold bind at 1 2. simpl. rewrite verify_loop_run. simpl. fold V F.
  unfold bind at 1 2. simpl. rewrite R. simpl.
  now rewrite app_nil_r.
Qed.
End Verification.

Section VerificationFacts.
Context {W : Type} {os : OS W}.

Lemma verified_of_In w dest files p :
  In p (verified_of w dest files) <->
  exists c, In c files /\ sourceRef c = p /\ dest_has w dest c.
Proof.
  unfold verified_of. rewrite in_map_iff. split.
  - intros [c [E H]]. apply filter_In in H. destruct H as [H1 H2].
    exists c. rewrite <- dest_hasb_spec. auto.
  - intros [c [H1 [E H2]]]. exists c. split; [exact E|].
    apply filter_In. rewrite dest_hasb_spec. auto.
Qed.

Lemma failed_of_In w dest files n :
  In n (failed_of w dest files) <->
  exists c, In c files /\ fileName c = n /\ ~ dest_has w dest c.
Proof.
  unfold failed_of. rewrite in_map_iff. split.
  - intros [c [E H]]. apply filter_In in H. destruct H as [H1 H2].
    exists c. rewrite <- dest_hasb_false.
    apply negb_true_iff in H2. auto.
  - intros [c [H1 [E H2]]]. exists c. split; [exact E|].
    apply filter_In. split; [exact H1|].
    apply negb_true_iff, dest_hasb_false, H2.
Qed.

Lemma partition_lengths w dest files :
  (List.length (verified_of w dest files)
   + List.length (failed_of w dest files))%nat = List.length files.
Proof.
  unfold verified_of, failed_of. rewrite !length_map.
  induction files as [|c files IH]; [reflexivity|].
  simpl. destruct (dest_hasb w dest c); simpl; lia.
Qed.

(** With distinct source locators, a locator is in the verified list
    only through its own candidate. *)
Lemma verified_of_NoDup w dest files c :
  NoDup (map sourceRef files) -> In c files ->
  In (sourceRef c) (verified_of w dest files) -> dest_has w dest c.
Proof.
  intros ND Hc Hin. apply verified_of_In in Hin.
  destruct Hin as [c' [Hc' [E H]]].
  assert (c' = c) as <-; [|exact H].
  clear H. induction files as [|x files IH]; [contradiction|].
  simpl in ND. inversion ND as [|? ? Hx ND']; subst.
  destruct Hc as [->|Hc], Hc' as [->|Hc']; auto.
  - exfalso. apply Hx. rewrite <- E. now apply in_map.
  - exfalso. apply Hx. rewrite E. now apply in_map.
Qed.
End VerificationFacts.

(** For a destination without a trailing separator and a plain file
    name, the destination path is the two joined by one separator. *)
Lemma join_plain dest name :
  dest <> EmptyString -> OsPath.ends_with_sep dest = false ->
  OsPath.starts_with_sep name = false ->
  OsPath.join dest name = (dest ++ "/" ++ name)%string.
Proof.
  intros Hd He Hn. unfold OsPath.join. rewrite Hn, He.
  apply String.eqb_neq in Hd. rewrite Hd. reflexivity.
Qed.

(** C2. Verification soundness and partition.  [verify_files] returns two
    lists and never raises.  Going through the input in order, it puts the
    source locator of a candidate in the first list when the path
    [join(destination, fileName)] exists and has the recorded size, and the
    file name in the second list otherwise: each candidate goes to exactly
    one list, the lengths add up, and nothing else is in either list.
    For a plain file name the path tested is [destination/fileName]. *)
Theorem verification_sound_and_partitions
    {W : Type} {os : OS W} (files : list Candidate) (s : State W) :
  let w := world s in
  let dest := destination (self s) in
  exists verified failed,
    result (DeviceBackup.verify_files files s) = Ret (verified, failed)
    /\ world (final (DeviceBackup.verify_files files s)) = w
    /\ verified = map sourceRef (filter (dest_hasb w dest) files)
    /\ failed = map fileName (filter (fun c => negb (dest_hasb w dest c)) files)
    /\ (forall c, dest_hasb w dest c = true <->
                  exists n, stat_size (OsPath.join dest (fileName c)) w = Some n
                            /\ n = sizeBytes c)
    /\ (forall c, In c files -> dest_has w dest c -> In (sourceRef c) verified)
    /\ (forall c, In c files -> ~ dest_has w dest c -> In (fileName c) failed)
    /\ (forall p, In p verified ->
                  exists c, In c files /\ sourceRef c = p /\ dest_has w dest c)
    /\ (forall n, In n failed ->
                  exists c, In c files /\ fileName c = n /\ ~ dest_has w dest c)
    /\ (List.length verified + List.length failed)%nat = List.length files
    /\ (NoDup (map sourceRef files) ->
        forall c, In c files ->
                  (In (sourceRef c) verified <-> dest_has w dest c))
    /\ (forall c, dest <> EmptyString -> OsPath.ends_with_sep dest = false ->
                  OsPath.starts_with_sep (fileName c) = false ->
                  OsPath.join dest (fileName c)
                  = (dest ++ "/" ++ fileName c)%string).
Proof.
  intros w dest.
  exists (verified_of w dest files), (failed_of w dest files).
  pose proof (verify_files_run files s) as R. cbv zeta in R. rewrite R.
  repeat split; try reflexivity; try (intros; now apply join_plain).
  - apply dest_hasb_spec.
  - apply dest_hasb_spec.
  - intros c Hc H. apply verified_of_In. eauto.
  - intros c Hc H. apply failed_of_In. eauto.
  - intros p. apply verified_of_In.
  - intros n. apply failed_of_In.
  - apply partition_lengths.
  - now apply verified_of_NoDup.
  - intros Hd. apply verified_of_In. eauto.
Qed.

(** ** The arithmetic of the progress and throughput figures *)

Section Figures.
Context {W : Type} {os : OS W}.
Implicit Types s : State W.

Lemma truediv_run a b s :
  ~ (b == 0)%Q -> @truediv W a b s = (Ret (a / b)%Q, s, []).
Proof.
  intros H. unfold truediv.
  destruct (Qeq_bool b 0) eqn:E; [|reflexivity].
  apply Qeq_bool_iff in E. contradiction.
Qed.

Lemma truediv_zero a b s :
  (b == 0)%Q -> @truediv W a b s = (Raise ZeroDivisionError, s, []).
Proof.
  intros H. unfold truediv. apply Qeq_bool_iff in H. now rewrite H.
Qed.

Lemma progress_of_run idx total s :
  total <> 0%nat ->
  @progress_of W idx total s
  = (Ret (inject_Z (Z.of_nat idx * 100) / inject_Z (Z.of_nat total))%Q, s, []).
Proof.
  intros H. apply truediv_run. unfold Qeq, inject_Z. simpl. lia.
Qed.

Lemma size_mb_of_run size s :
  @size_mb_of W size s
  = (Ret (inject_Z size / inject_Z (1024 * 1024))%Q, s, []).
Proof. apply truediv_run. unfold Qeq, inject_Z. simpl. lia. Qed.

Lemma Qltb_lt a b : Qltb a b = true <-> (a < b)%Q.
Proof.
  unfold Qltb. rewrite negb_true_iff. split.
  - intros H. apply Qnot_le_lt. intros L. apply Qle_bool_iff in L. congruence.
  - intros H. destruct (Qle_bool b a) eqn:E; [|reflexivity].
    apply Qle_bool_iff in E. exfalso. exact (Qlt_not_le _ _ H E).
Qed.

Lemma speed_mbps_of_run size_mb elapsed s :
  @speed_mbps_of W size_mb elapsed s = (Ret (speed size_mb elapsed), s, []).
Proof.
  unfold speed_mbps_of, speed. destruct (Qltb 0 elapsed) eqn:E; [|reflexivity].
  apply truediv_run. apply Qltb_lt in E. intros Z0. rewrite Z0 in E.
  exact (Qlt_irrefl _ E).
Qed.
End Figures.

(** ** One step of the transfer pass *)

Section CopyOne.
Context {W : Type} {os : OS W}.
Implicit Types s : State W.

(** *** Mounted filesystem *)

Lemma iPhone_copy_one_skip total idx c s :
  total <> 0%nat ->
  dest_hasb (world s) (destination (self s)) c = true ->
  iPhoneBackup.copy_one total (idx, c) s
  = (Ret tt, s, [Print (MsgSkipped (fileName c) idx total (progress idx total))]).
Proof.
  intros Ht H. destruct c as [[src name] size].
  unfold iPhoneBackup.copy_one, dest_hasb, fileName, sizeBytes in *.
  simpl in *. unfold bind at 1 2. simpl. rewrite exists_with_size_run. simpl.
  rewrite H. unfold bind. rewrite progress_of_run by exact Ht. reflexivity.
Qed.

Lemma iPhone_copy_one_fetch total idx c s :
  total <> 0%nat ->
  dest_hasb (world s) (destination (self s)) c = false ->
  iPhoneBackup.copy_one total (idx, c) s = iPhone_copy_outcome total idx c s.
Proof.
  intros Ht H. destruct c as [[src name] size].
  unfold iPhoneBackup.copy_one, iPhone_copy_outcome, dest_path, dest_hasb,
    fileName, sizeBytes, sourceRef in *.
  simpl in *. unfold bind at 1 2. simpl. rewrite exists_with_size_run. simpl.
  rewrite H. unfold bind at 1, call at 1. simpl.
  destruct (time_time (world s)) as [t0 w0]. simpl.
  unfold try_except, bind at 1 2, emit, call_res. simpl.
  destruct (shutil_copy2 src _ w0) as [[[]|e] w1]; simpl.
  - unfold bind at 1, call. simpl. destruct (time_time w1) as [t1 w2]. simpl.
    unfold bind at 1. rewrite size_mb_of_run.
    unfold bind at 1. rewrite speed_mbps_of_run.
    unfold bind. rewrite progress_of_run by exact Ht. reflexivity.
  - destruct e; reflexivity.
Qed.
End CopyOne.

Section CopyOneAndroid.
Context {W : Type} {os : OS W}.
Implicit Types s : State W.

(** *** Remote shell *)

Lemma Android_copy_one_skip total idx c s :
  total <> 0%nat ->
  dest_hasb (world s) (destination (self s)) c = true ->
  AndroidBackup.copy_one total (idx, c) s
  = (Ret tt, s, [Print (MsgSkipped (fileName c) idx total (progress idx total))]).
Proof.
  intros Ht H. destruct c as [[src name] size].
  unfold AndroidBackup.copy_one, dest_hasb, fileName, sizeBytes in *.
  simpl in *. unfold bind at 1 2. simpl. rewrite exists_with_size_run. simpl.
  rewrite H. unfold bind. rewrite progress_of_run by exact Ht. reflexivity.
Qed.

Lemma Android_copy_one_fetch total idx c s :
  total <> 0%nat ->
  dest_hasb (world s) (destination (self s)) c = false ->
  AndroidBackup.copy_one total (idx, c) s = Android_copy_outcome total idx c s.
Proof.
  intros Ht H. destruct c as [[src name] size].
  unfold AndroidBackup.copy_one, Android_copy_outcome, dest_path, dest_hasb,
    fileName, sizeBytes, sourceRef in *.
  simpl in *. unfold bind at 1 2. simpl. rewrite exists_with_size_run. simpl.
  rewrite H. unfold bind at 1, call at 1. simpl.
  destruct (time_time (world s)) as [t0 w0]. simpl.
  unfold try_except, bind at 1, run, bind at 1, emit, call_res. simpl.
  destruct (subprocess_run _ w0) as [[r|e] w1]; simpl.
  - destruct (returncode r =? 0); [|reflexivity].
    unfold bind at 1, call. simpl. destruct (time_time w1) as [t1 w2]. simpl.
    unfold bind at 1. rewrite size_mb_of_run.
    unfold bind at 1. rewrite speed_mbps_of_run.
    unfold bind. rewrite progress_of_run by exact Ht. reflexivity.
  - destruct e; reflexivity.
Qed.
End CopyOneAndroid.

(** ** The transfer pass as a whole *)

Section CopyFiles.
Context {W : Type} {os : OS W}.
Implicit Types s : State W.

Lemma copy_one_of_run k total item s :
  total <> 0%nat -> copy_one_of k total item s = copy_step k total item s.
Proof.
  intros Ht. destruct item as [idx c]. unfold copy_step, skip_line. simpl.
  destruct (dest_hasb (world s) (destination (self s)) c) eqn:E; destruct k; simpl.
  - now apply iPhone_copy_one_skip.
  - now apply Android_copy_one_skip.
  - now apply iPhone_copy_one_fetch.
  - now apply Android_copy_one_fetch.
Qed.

(** A step never changes the backup object. *)
Lemma copy_step_self k total item s :
  self (final (copy_step k total item s)) = self s.
Proof.
  unfold copy_step. destruct (dest_hasb _ _ _); [reflexivity|].
  destruct item as [idx c]. destruct k; simpl;
    unfold iPhone_copy_outcome, Android_copy_outcome;
    destruct (time_time (world s)) as [t0 w0].
  - destruct (shutil_copy2 _ _ w0) as [[[]|e] w1].
    + destruct (time_time w1). reflexivity.
    + destruct e; reflexivity.
  - destruct (subprocess_run _ w0) as [[r|e] w1].
    + destruct (returncode r =? 0); [destruct (time_time w1)|]; reflexivity.
    + destruct e; reflexivity.
Qed.

(** A step raises nothing but [KeyboardInterrupt]. *)
Lemma copy_step_raises k total item s e :
  result (copy_step k total item s) = Raise e -> e = KeyboardInterrupt.
Proof.
  unfold copy_step. destruct (dest_hasb _ _ _); [discriminate|].
  destruct item as [idx c]. destruct k; simpl;
    unfold iPhone_copy_outcome, Android_copy_outcome;
    destruct (time_time (world s)) as [t0 w0].
  - destruct (shutil_copy2 _ _ w0) as [[[]|e'] w1].
    + destruct (time_time w1). discriminate.
    + destruct e'; unfold result; simpl; congruence.
  - destruct (subprocess_run _ w0) as [[r|e'] w1].
    + destruct (returncode r =? 0); [destruct (time_time w1)|]; discriminate.
    + destruct e'; unfold result; simpl; congruence.
Qed.

Lemma bind_assoc {A B C} (m : M W A) (f : A -> M W B) (g : B -> M W C) s :
  bind (bind m f) g s = bind m (fun a => bind (f a) g) s.
Proof.
  unfold bind. destruct (m s) as [[[a|e] s1] t1]; [|reflexivity].
  destruct (f a s1) as [[[b|e] s2] t2]; [|reflexivity].
  destruct (g b s2) as [[r s3] t3]. now rewrite app_assoc.
Qed.

Lemma bind_ext {A B} (m : M W A) (f g : A -> M W B) s :
  (forall a s', f a s' = g a s') -> bind m f s = bind m g s.
Proof.
  intros H. unfold bind. destruct (m s) as [[[a|e] s1] t1]; [|reflexivity].
  now rewrite H.
Qed.

Lemma ret_bind {A B} (a : A) (f : A -> M W B) s : bind (ret a) f s = f a s.
Proof. unfold bind, ret. destruct (f a s) as [[r s2] t2]. reflexivity. Qed.

Lemma for_each_app {A} (l1 l2 : list A) (body : A -> M W unit) s :
  for_each (l1 ++ l2) body s
  = bind (for_each l1 body) (fun _ => for_each l2 body) s.
Proof.
  revert s. induction l1 as [|x l1 IH]; intros s; simpl.
  - now rewrite ret_bind.
  - rewrite bind_assoc. apply bind_ext. intros _ s'. apply IH.
Qed.

(** The dispatch of [copy_files] on the class of the object. *)
Lemma copy_files_dispatch files s :
  copy_files files s
  = for_each (enumerate1 files)
      (copy_one_of (kind (self s)) (List.length files)) s.
Proof.
  unfold copy_files, bind, get_self. simpl.
  destruct (kind (self s)); simpl;
    unfold iPhoneBackup.copy_files, AndroidBackup.copy_files;
    destruct (for_each _ _ s) as [[r s2] t2]; reflexivity.
Qed.
End CopyFiles.

Section Resume.
Context {W : Type} {os : OS W}.
Implicit Types s : State W.

Lemma skip_loop k total items s :
  total <> 0%nat ->
  (forall it, In it items ->
              dest_hasb (world s) (destination (self s)) (snd it) = true) ->
  for_each items (copy_one_of k total) s = (Ret tt, s, map (skip_line total) items).
Proof.
  intros Ht. induction items as [|it items IH]; intros H; [reflexivity|].
  simpl for_each. unfold bind. rewrite copy_one_of_run by exact Ht.
  unfold copy_step. rewrite (H it (or_introl eq_refl)).
  rewrite IH; [reflexivity|]. intros it' Hin. apply H. now right.
Qed.

Lemma enumerate1_In {A} (l : list A) idx (x : A) :
  In (idx, x) (enumerate1 l) -> In x l.
Proof. unfold enumerate1. apply in_combine_r. Qed.

Lemma enumerate1_length {A} (l : list A) :
  List.length (enumerate1 l) = List.length l.
Proof.
  unfold enumerate1. rewrite length_combine, length_seq. apply Nat.min_id.
Qed.

Lemma skip_line_not_fetch total it : is_fetch (skip_line total it) = false.
Proof. reflexivity. Qed.
End Resume.

(** C5. Idempotent resume.  When the destination already holds, for every
    candidate of the catalog, a file of the recorded size, a transfer pass
    returns normally, prints one "Skipped" line per candidate in catalog
    order and nothing else, issues no fetch call, and leaves the whole
    world, the destination included, exactly as it was. *)
Theorem idempotent_resume
    {W : Type} {os : OS W} (files : list Candidate) (s : State W) :
  (forall c, In c files -> dest_has (world s) (destination (self s)) c) ->
  copy_files files s
  = (Ret tt, s, map (skip_line (List.length files)) (enumerate1 files))
  /\ Forall (fun e => is_fetch e = false) (trace (copy_files files s))
  /\ List.length (trace (copy_files files s)) = List.length files.
Proof.
  intros H.
  assert (R : copy_files files s
              = (Ret tt, s, map (skip_line (List.length files)) (enumerate1 files))).
  { rewrite copy_files_dispatch. destruct files as [|c0 files']; [reflexivity|].
    apply skip_loop; [discriminate|].
    intros [idx c] Hin. apply dest_hasb_spec, H.
    eapply enumerate1_In, Hin. }
  rewrite R. unfold trace. simpl. repeat split.
  - apply Forall_forall. intros e He. apply in_map_iff in He.
    destruct He as [it [<- _]]. reflexivity.
  - now rewrite length_map, enumerate1_length.
Qed.

Section SamePredicate.
Context {W : Type} {os : OS W}.
Implicit Types s : State W.

(** A step that finds the file missing or of another size starts with
    the fetch call: it prints no "Skipped" line. *)
Lemma copy_step_no_skip k total idx c s it :
  dest_hasb (world s) (destination (self s)) c = false ->
  ~ In (skip_line total it) (trace (copy_step k total (idx, c) s)).
Proof.
  intros E. unfold copy_step. simpl. rewrite E. destruct k; simpl;
    unfold iPhone_copy_outcome, Android_copy_outcome;
    destruct (time_time (world s)) as [t0 w0].
  - destruct (shutil_copy2 _ _ w0) as [[[]|e] w1];
      [destruct (time_time w1)|destruct e]; simpl;
      unfold skip_line; intuition discriminate.
  - destruct (subprocess_run _ w0) as [[r|e] w1];
      [destruct (returncode r =? 0); [destruct (time_time w1)|]|destruct e];
      simpl; unfold skip_line; intuition discriminate.
Qed.

Lemma skip_iff_dest_has k total idx c s :
  total <> 0%nat ->
  (dest_has (world s) (destination (self s)) c
   <-> trace (copy_one_of k total (idx, c) s) = [skip_line total (idx, c)]).
Proof.
  intros Ht. rewrite copy_one_of_run by exact Ht.
  rewrite <- dest_hasb_spec. split.
  - intros H. unfold copy_step. simpl. now rewrite H.
  - intros H. destruct (dest_hasb (world s) (destination (self s)) c) eqn:E;
      [reflexivity|]. exfalso.
    apply (copy_step_no_skip k total idx c s (idx, c) E). rewrite H. now left.
Qed.

Lemma verified_iff_dest_has c v f s :
  dest_has (world s) (destination (self s)) c
  <-> result (DeviceBackup.verify_one c (v, f) s)
      = Ret ((v ++ [sourceRef c])%list, f).
Proof.
  rewrite verify_one_run, <- dest_hasb_spec. unfold result. simpl.
  destruct (dest_hasb (world s) (destination (self s)) c);
    split; try reflexivity; try discriminate.
  intros [= Hv _]. exfalso. apply (f_equal (@List.length string)) in Hv.
  rewrite length_app in Hv. simpl in Hv. lia.
Qed.
End SamePredicate.

(** C10. Skip implies verified.  The transfer step skips a candidate
    exactly when the destination path exists with the recorded size, and
    verification accepts a candidate on the same test.  So when the step
    run in a state [s1] skipped the candidate, and its destination path
    gives the same size reading when verification runs in a state [sv],
    the source locator of the candidate is in the verified list. *)
Theorem skip_implies_verified
    {W : Type} {os : OS W} (k : DeviceKind) (idx : nat)
    (c : Candidate) (files : list Candidate) (s1 sv : State W) :
  In c files ->
  let total := List.length files in
  (dest_has (world s1) (destination (self s1)) c
   <-> trace (copy_one_of k total (idx, c) s1) = [skip_line total (idx, c)])
  /\ (forall v f, dest_has (world sv) (destination (self sv)) c
                  <-> result (DeviceBackup.verify_one c (v, f) sv)
                      = Ret ((v ++ [sourceRef c])%list, f))
  /\ (In (skip_line total (idx, c)) (trace (copy_one_of k total (idx, c) s1)) ->
      destination (self sv) = destination (self s1) ->
      stat_size (dest_path s1 c) (world sv)
      = stat_size (dest_path s1 c) (world s1) ->
      exists verified failed,
        result (DeviceBackup.verify_files files sv) = Ret (verified, failed)
        /\ In (sourceRef c) verified).
Proof.
  intros Hc total.
  assert (Ht : total <> 0%nat).
  { subst total. destruct files; [contradiction | discriminate]. }
  split; [|split].
  - now apply skip_iff_dest_has.
  - intros v f. apply verified_iff_dest_has.
  - intros Hskip Hdest Hstat.
    assert (H1 : dest_hasb (world s1) (destination (self s1)) c = true).
    { destruct (dest_hasb (world s1) (destination (self s1)) c) eqn:E;
        [reflexivity|]. exfalso.
      rewrite copy_one_of_run in Hskip by exact Ht.
      exact (copy_step_no_skip k total idx c s1 _ E Hskip). }
    assert (Hv : dest_hasb (world sv) (destination (self sv)) c = true).
    { unfold dest_hasb in *. rewrite Hdest. unfold dest_path in Hstat.
      rewrite Hstat. exact H1. }
    pose proof (verify_files_run files sv) as R. cbv zeta in R.
    eexists _, _. rewrite R. split; [reflexivity|].
    apply verified_of_In. exists c. repeat split; [exact Hc|].
    now apply dest_hasb_spec.
Qed.

Lemma idempotent_resume_witness :
  copy_files [Sim.photo; Sim.clip; Sim.shot] (Sim.iphone_at Sim.backed_up)
  = (Ret tt, Sim.iphone_at Sim.backed_up,
     map (skip_line 3) (enumerate1 [Sim.photo; Sim.clip; Sim.shot]))
  /\ Forall (fun e => is_fetch e = false)
       (trace (copy_files [Sim.photo; Sim.clip; Sim.shot]
                 (Sim.iphone_at Sim.backed_up)))
  /\ List.length (trace (copy_files [Sim.photo; Sim.clip; Sim.shot]
                           (Sim.iphone_at Sim.backed_up))) = 3%nat.
Proof.
  apply (idempotent_resume [Sim.photo; Sim.clip; Sim.shot]
           (Sim.iphone_at Sim.backed_up)).
  intros c [<-|[<-|[<-|[]]]]; eexists; split; reflexivity.
Defined.

Lemma skip_implies_verified_witness :
  (dest_has Sim.backed_up "/backup/d" Sim.clip
   <-> trace (copy_one_of iPhone 3 (2%nat, Sim.clip) (Sim.iphone_at Sim.backed_up))
       = [skip_line 3 (2%nat, Sim.clip)])
  /\ (forall v f, dest_has Sim.backed_up "/backup/d" Sim.clip
                  <-> result (DeviceBackup.verify_one Sim.clip (v, f)
                                (Sim.iphone_at Sim.backed_up))
                      = Ret ((v ++ [sourceRef Sim.clip])%list, f))
  /\ (In (skip_line 3 (2%nat, Sim.clip))
         (trace (copy_one_of iPhone 3 (2%nat, Sim.clip)
                   (Sim.iphone_at Sim.backed_up))) ->
      "/backup/d" = "/backup/d" ->
      stat_size (dest_path (Sim.iphone_at Sim.backed_up) Sim.clip) Sim.backed_up
      = stat_size (dest_path (Sim.iphone_at Sim.backed_up) Sim.clip) Sim.backed_up ->
      exists verified failed,
        result (DeviceBackup.verify_files [Sim.photo; Sim.clip; Sim.shot]
                  (Sim.iphone_at Sim.backed_up)) = Ret (verified, failed)
        /\ In (sourceRef Sim.clip) verified).
Proof.
  apply (skip_implies_verified iPhone 2 Sim.clip [Sim.photo; Sim.clip; Sim.shot]
           (Sim.iphone_at Sim.backed_up) (Sim.iphone_at Sim.backed_up)).
  simpl. auto.
Defined.

(** ** Throughput *)

Section Throughput.
Context {W : Type} {os : OS W}.
Implicit Types s : State W.

Lemma speed_positive size_mb elapsed :
  (0 < elapsed)%Q -> (speed size_mb elapsed == size_mb / elapsed)%Q.
Proof.
  intros H. unfold speed. apply Qltb_lt in H. rewrite H. reflexivity.
Qed.

Lemma speed_not_positive size_mb elapsed :
  (elapsed <= 0)%Q -> speed size_mb elapsed = 0%Q.
Proof.
  intros H. unfold speed. destruct (Qltb 0 elapsed) eqn:E; [|reflexivity].
  apply Qltb_lt in E. exfalso. exact (Qlt_not_le _ _ E H).
Qed.

(** The step when the fetch succeeded: the fetch call and one "Copied"
    line, whatever the two clock readings are. *)
Lemma copy_step_fetched k total idx c s t0 w0 w1 t1 w2 :
  dest_hasb (world s) (destination (self s)) c = false ->
  time_time (world s) = (t0, w0) ->
  fetch_end k s c w0 = (FetchOk, w1) ->
  time_time w1 = (t1, w2) ->
  copy_step k total (idx, c) s
  = (Ret tt, mkState w2 (self s),
     [fetch_call k s c;
      Print (MsgCopied (fileName c) idx total (progress idx total)
               (size_mb (sizeBytes c))
               (speed (size_mb (sizeBytes c)) (t1 - t0)%Q))]).
Proof.
  intros E T0 F T1. unfold copy_step. simpl. rewrite E.
  destruct k; simpl in *;
    unfold iPhone_copy_outcome, Android_copy_outcome; rewrite T0.
  - destruct (shutil_copy2 _ _ w0) as [[[]|e] w1'].
    + injection F as <-. rewrite T1. reflexivity.
    + destruct e; discriminate.
  - destruct (subprocess_run _ w0) as [[r|e] w1'].
    + destruct (returncode r =? 0); [|discriminate].
      injection F as <-. rewrite T1. reflexivity.
    + destruct e; discriminate.
Qed.
End Throughput.

(** C6. Throughput division guard.  For a candidate of a size within the
    float range that is fetched with success, at a position [idx] of the
    catalog, with the clock read as [t0] before and [t1] after the fetch,
    the step returns normally and prints one "Copied" line whose speed is
    the size in MiB, [sizeBytes / 2^20], divided by the elapsed time
    [t1 - t0] when that is positive, and zero when it is zero or negative;
    the guarded division itself never raises. *)
Theorem throughput_division_guard
    {W : Type} {os : OS W} (k : DeviceKind) (total idx : nat) (c : Candidate)
    (s : State W) (t0 t1 : Q) (w0 w1 w2 : W) :
  total <> 0%nat ->
  (idx <= total)%nat ->
  float_safe (sizeBytes c) ->
  ~ dest_has (world s) (destination (self s)) c ->
  time_time (world s) = (t0, w0) ->
  fetch_end k s c w0 = (FetchOk, w1) ->
  time_time w1 = (t1, w2) ->
  let elapsed := (t1 - t0)%Q in
  exists speed_mbps,
    copy_one_of k total (idx, c) s
    = (Ret tt, mkState w2 (self s),
       [fetch_call k s c;
        Print (MsgCopied (fileName c) idx total (progress idx total)
                 (size_mb (sizeBytes c)) speed_mbps)])
    /\ (size_mb (sizeBytes c) * inject_Z (1024 * 1024) == inject_Z (sizeBytes c))%Q
    /\ ((0 < elapsed)%Q ->
        (speed_mbps == size_mb (sizeBytes c) / elapsed)%Q
        /\ (speed_mbps * elapsed == size_mb (sizeBytes c))%Q)
    /\ ((elapsed == 0)%Q -> speed_mbps = 0%Q)
    /\ ((elapsed <= 0)%Q -> speed_mbps = 0%Q)
    /\ (forall mb e (s' : State W),
          exists v, speed_mbps_of mb e s' = (Ret v, s', [])).
Proof.
  intros Ht _ _ Hn T0 F T1 elapsed.
  exists (speed (size_mb (sizeBytes c)) elapsed).
  apply dest_hasb_false in Hn.
  split; [|split; [|split; [|split; [|split]]]].
  - rewrite copy_one_of_run by exact Ht.
    now apply (copy_step_fetched k total idx c s t0 w0 w1 t1 w2).
  - unfold size_mb. field. intros Z0. discriminate Z0.
  - intros Hpos. split; [now apply speed_positive|].
    rewrite speed_positive by exact Hpos. field.
    intros Z0. rewrite Z0 in Hpos. exact (Qlt_irrefl _ Hpos).
  - intros Z0. apply speed_not_positive. rewrite Z0. apply Qle_refl.
  - apply speed_not_positive.
  - intros mb e s'. eexists. apply speed_mbps_of_run.
Qed.

Lemma throughput_division_guard_witness :
  exists speed_mbps,
    copy_one_of iPhone 3 (1%nat, Sim.photo) (Sim.iphone_at Sim.mounted)
    = (Ret tt, Sim.iphone_at Sim.photo_copied,
       [CallCopy2 "/m/DCIM/100APPLE/a.jpg" "/backup/d/a.jpg";
        Print (MsgCopied "a.jpg" 1 3 (progress 1 3) (size_mb 1048576) speed_mbps)])
    /\ speed_mbps = 0%Q.
Proof.
  destruct (throughput_division_guard iPhone 3 1 Sim.photo
              (Sim.iphone_at Sim.mounted) 5%Q 5%Q
              Sim.photo_started Sim.photo_written Sim.photo_copied)
    as [v [Hrun [_ [_ [Hzero _]]]]].
  - discriminate.
  - lia.
  - reflexivity.
  - intros [n [E _]]. discriminate E.
  - reflexivity.
  - reflexivity.
  - reflexivity.
  - exists v. split; [exact Hrun | apply Hzero; reflexivity].
Defined.

(** ** What a computation leaves of the backup object *)

Section KeepsSelf.
Context {W : Type}.

Lemma keeps_self_ret {A} (a : A) : keeps_self (W:=W) (ret a).
Proof. intros s. reflexivity. Qed.

Lemma keeps_self_raise {A} e : keeps_self (W:=W) (@raise W A e).
Proof. intros s. reflexivity. Qed.

Lemma keeps_self_read {A} (f : W -> A) : keeps_self (W:=W) (read f).
Proof. intros s. reflexivity. Qed.

Lemma keeps_self_read_or_raise {A} e (f : W -> option A) :
  keeps_self (W:=W) (read_or_raise e f).
Proof. intros s. unfold read_or_raise. destruct (f (world s)); reflexivity. Qed.

Lemma keeps_self_call {A} (f : W -> A * W) : keeps_self (W:=W) (call f).
Proof. intros s. unfold call. destruct (f (world s)). reflexivity. Qed.

Lemma keeps_self_call_res {A} (f : W -> Res A * W) : keeps_self (W:=W) (call_res f).
Proof. intros s. unfold call_res. destruct (f (world s)). reflexivity. Qed.

Lemma keeps_self_get_self : keeps_self (W:=W) (@get_self W).
Proof. intros s. reflexivity. Qed.

Lemma keeps_self_emit e : keeps_self (W:=W) (@emit W e).
Proof. intros s. reflexivity. Qed.

Lemma keeps_self_bind {A B} (m : M W A) (f : A -> M W B) :
  keeps_self (W:=W) m -> (forall a, keeps_self (W:=W) (f a)) -> keeps_self (W:=W) (bind m f).
Proof.
  intros Hm Hf s. unfold bind, final. specialize (Hm s). unfold final in Hm.
  destruct (m s) as [[[a|e] s1] t1]; simpl in *; [|exact Hm].
  specialize (Hf a s1). unfold final in Hf.
  destruct (f a s1) as [[r s2] t2]. simpl in *. congruence.
Qed.

Lemma keeps_self_try_except {A} c (body handler : M W A) :
  keeps_self (W:=W) body -> keeps_self (W:=W) handler ->
  keeps_self (W:=W) (try_except c body handler).
Proof.
  intros Hb Hh s. unfold try_except, final. specialize (Hb s).
  unfold final in Hb.
  destruct (body s) as [[[a|e] s1] t1]; simpl in *; [exact Hb|].
  destruct (c e); simpl; [|exact Hb].
  specialize (Hh s1). unfold final in Hh.
  destruct (handler s1) as [[r s2] t2]. simpl in *. congruence.
Qed.

Lemma keeps_self_for_each {A} (l : list A) (body : A -> M W unit) :
  (forall x, keeps_self (W:=W) (body x)) -> keeps_self (W:=W) (for_each l body).
Proof.
  intros Hb. induction l as [|x l IH]; simpl.
  - apply keeps_self_ret.
  - apply keeps_self_bind; [apply Hb | intros _; exact IH].
Qed.

Lemma keeps_self_for_fold {A S} (l : list A) (body : A -> S -> M W S) acc :
  (forall x a, keeps_self (W:=W) (body x a)) -> keeps_self (W:=W) (for_fold l acc body).
Proof.
  intros Hb. revert acc. induction l as [|x l IH]; intros acc; simpl.
  - apply keeps_self_ret.
  - apply keeps_self_bind; [apply Hb | intros a; apply IH].
Qed.

Lemma keeps_self_truediv a b : keeps_self (W:=W) (@truediv W a b).
Proof.
  unfold truediv. destruct (Qeq_bool b 0);
    [apply keeps_self_raise | apply keeps_self_ret].
Qed.
End KeepsSelf.

(** Goals [keeps_self m] and [emits_only P m] follow the shape of [m]. *)
Ltac shape_step :=
  match goal with
  | |- forall _, _ => intro
  | |- keeps_self (bind _ _) => apply keeps_self_bind
  | |- keeps_self (try_except _ _ _) => apply keeps_self_try_except
  | |- keeps_self (for_each _ _) => apply keeps_self_for_each
  | |- keeps_self (for_fold _ _ _) => apply keeps_self_for_fold
  | |- keeps_self (ret _) => apply keeps_self_ret
  | |- keeps_self (raise _) => apply keeps_self_raise
  | |- keeps_self (read _) => apply keeps_self_read
  | |- keeps_self (read_or_raise _ _) => apply keeps_self_read_or_raise
  | |- keeps_self (call _) => apply keeps_self_call
  | |- keeps_self (call_res _) => apply keeps_self_call_res
  | |- keeps_self get_self => apply keeps_self_get_self
  | |- keeps_self (emit _) => apply keeps_self_emit
  | |- keeps_self (print _) => apply keeps_self_emit
  | |- keeps_self (truediv _ _) => apply keeps_self_truediv
  | |- emits_only _ (bind _ _) => apply emits_only_bind
  | |- emits_only _ (try_except _ _ _) => apply emits_only_try_except
  | |- emits_only _ (try_finally _ _) => apply emits_only_try_finally
  | |- emits_only _ (for_each _ _) => apply emits_only_for_each
  | |- emits_only _ (for_fold _ _ _) => apply emits_only_for_fold
  | |- emits_only _ (ret _) => apply emits_only_ret
  | |- emits_only _ (raise _) => apply emits_only_raise
  | |- emits_only _ (read _) => apply emits_only_read
  | |- emits_only _ (read_or_raise _ _) => apply emits_only_read_or_raise
  | |- emits_only _ (call _) => apply emits_only_call
  | |- emits_only _ (call_res _) => apply emits_only_call_res
  | |- emits_only _ get_self => apply emits_only_get_self
  | |- emits_only _ (set_self _) => apply emits_only_set_self
  | |- emits_only _ (truediv _ _) => apply emits_only_truediv
  | |- emits_only _ (emit _) => apply emits_only_emit
  | |- emits_only _ (print _) => apply emits_only_emit
  | |- context [match ?x with _ => _ end] => destruct x
  end.

Ltac shape := repeat shape_step.

(** ** Where delete calls can come from *)

Section DeleteCalls.
Context {W : Type} {os : OS W}.
Implicit Types s : State W.

Lemma print_no_delete paths m : deletes_within paths (Print m).
Proof. intros p [H|H]; discriminate. Qed.

Lemma copy2_no_delete paths src dst : deletes_within paths (CallCopy2 src dst).
Proof. intros p [H|H]; discriminate. Qed.

Lemma find_no_delete paths d : deletes_within paths (CallRun (AndroidBackup.find_cmd d)).
Proof. intros p [H|H]; discriminate. Qed.

Lemma stat_no_delete paths f : deletes_within paths (CallRun (AndroidBackup.stat_cmd f)).
Proof. intros p [H|H]; discriminate. Qed.

Lemma pull_no_delete paths a b : deletes_within paths (CallRun (AndroidBackup.pull_cmd a b)).
Proof. intros p [H|H]; discriminate. Qed.

Lemma append_inj (a b c : string) : (a ++ b)%string = (a ++ c)%string -> b = c.
Proof. induction a as [|x a IH]; simpl; [auto|]. intros [= H]. auto. Qed.

Lemma append_inj_r (a b : string) (x : ascii) :
  (a ++ String x EmptyString)%string = (b ++ String x EmptyString)%string -> a = b.
Proof.
  revert b. induction a as [|y a IH]; intros [|z b]; simpl; intros H.
  - reflexivity.
  - injection H as -> H. destruct b; discriminate.
  - injection H as -> H. destruct a; discriminate.
  - injection H as -> H. f_equal. auto.
Qed.

(** The command line of a removal determines the locator. *)
Lemma rm_cmd_inj p q : AndroidBackup.rm_cmd p = AndroidBackup.rm_cmd q -> p = q.
Proof.
  unfold AndroidBackup.rm_cmd, AndroidBackup.quoted. intros [= H].
  now apply append_inj_r in H.
Qed.

Lemma remove_deletes_within paths p :
  In p paths -> deletes_within paths (CallRemove p).
Proof. intros Hp q [[= ->]|H]; [exact Hp | discriminate]. Qed.

Lemma rm_deletes_within paths p :
  In p paths -> deletes_within paths (CallRun (AndroidBackup.rm_cmd p)).
Proof.
  intros Hp q [H|H]; [discriminate|].
  apply (f_equal (fun e => match e with CallRun a => a | _ => [] end)) in H.
  apply rm_cmd_inj in H. now subst.
Qed.

Lemma run_emits P args : P (CallRun args) -> emits_only (W:=W) P (run args).
Proof. intros H. unfold run. shape. exact H. Qed.

Lemma exists_with_size_emits P path size :
  emits_only (W:=W) P (exists_with_size path size).
Proof. intros s. rewrite exists_with_size_run. constructor. Qed.

Lemma ask_emits P : emits_only (W:=W) P ask.
Proof. unfold ask. shape. Qed.

Lemma check_disk_space_emits paths required :
  emits_only (W:=W) (deletes_within paths) (DeviceBackup.check_disk_space required).
Proof. unfold DeviceBackup.check_disk_space. shape; apply print_no_delete. Qed.

Lemma verify_files_emits paths files :
  emits_only (W:=W) (deletes_within paths) (DeviceBackup.verify_files files).
Proof.
  intros s. pose proof (verify_files_run files s) as R. cbv zeta in R.
  rewrite R. unfold trace. simpl. repeat constructor; try apply print_no_delete.
  unfold failed_report. destruct (failed_of _ _ _); [constructor|].
  constructor; [apply print_no_delete|]. apply Forall_forall.
  intros e He. apply in_map_iff in He. destruct He as [f [<- _]].
  apply print_no_delete.
Qed.

Lemma copy_files_emits paths files :
  emits_only (W:=W) (deletes_within paths) (copy_files files).
Proof.
  unfold copy_files, iPhoneBackup.copy_files, AndroidBackup.copy_files,
    iPhoneBackup.copy_one, AndroidBackup.copy_one, size_mb_of, speed_mbps_of,
    progress_of.
  shape;
    first [ apply print_no_delete | apply copy2_no_delete
          | apply exists_with_size_emits
          | apply run_emits, pull_no_delete ].
Qed.

Lemma find_media_files_emits paths :
  emits_only (W:=W) (deletes_within paths) find_media_files.
Proof.
  unfold find_media_files, iPhoneBackup.find_media_files,
    AndroidBackup.find_media_files, iPhoneBackup.scan_dir,
    iPhoneBackup.scan_file, AndroidBackup.scan_path, path_exists, getsize, int.
  shape;
    first [ apply print_no_delete
          | apply run_emits, find_no_delete
          | apply run_emits, stat_no_delete ].
Qed.

Lemma for_each_emits_In {A} P (l : list A) (body : A -> M W unit) :
  (forall x, In x l -> emits_only P (body x)) -> emits_only P (for_each l body).
Proof.
  induction l as [|x l IH]; intros Hb; simpl.
  - apply emits_only_ret.
  - apply emits_only_bind; [apply Hb; now left|].
    intros _. apply IH. intros y Hy. apply Hb. now right.
Qed.

Lemma delete_files_emits paths :
  emits_only (W:=W) (deletes_within paths) (delete_files paths).
Proof.
  unfold delete_files. apply emits_only_bind; [apply emits_only_get_self|].
  intros b. destruct (kind b);
    unfold iPhoneBackup.delete_files, AndroidBackup.delete_files;
    (apply emits_only_bind; [apply emits_only_emit, print_no_delete|]);
    intros _; apply for_each_emits_In; intros p Hp;
    unfold iPhoneBackup.delete_one, AndroidBackup.delete_one;
    shape; try apply print_no_delete.
  - now apply remove_deletes_within.
  - now apply run_emits, rm_deletes_within.
Qed.
End DeleteCalls.

(** ** The transfer stage of [main] *)

Section TransferStage.
Context {W : Type} {os : OS W}.
Implicit Types s : State W.

Lemma ask_keeps_self : keeps_self (W:=W) ask.
Proof. unfold ask. shape. Qed.

Lemma exists_with_size_keeps_self path size :
  keeps_self (W:=W) (exists_with_size path size).
Proof. intros s. now rewrite exists_with_size_run. Qed.

Lemma run_keeps_self args : keeps_self (W:=W) (run args).
Proof. unfold run. shape. Qed.

Lemma copy_files_keeps_self files : keeps_self (W:=W) (copy_files files).
Proof.
  unfold copy_files, iPhoneBackup.copy_files, AndroidBackup.copy_files,
    iPhoneBackup.copy_one, AndroidBackup.copy_one, size_mb_of, speed_mbps_of,
    progress_of.
  shape; first [apply exists_with_size_keeps_self | apply run_keeps_self].
Qed.

Lemma delete_files_keeps_self paths : keeps_self (W:=W) (delete_files paths).
Proof.
  unfold delete_files, iPhoneBackup.delete_files, AndroidBackup.delete_files,
    iPhoneBackup.delete_one, AndroidBackup.delete_one.
  shape; apply run_keeps_self.
Qed.

Lemma copy_part_keeps_self files : keeps_self (copy_part files).
Proof. unfold copy_part. shape. apply copy_files_keeps_self. Qed.

Lemma copy_part_emits paths files :
  emits_only (deletes_within paths) (copy_part files).
Proof.
  unfold copy_part. shape; [apply copy_files_emits | apply print_no_delete].
Qed.

(** The [finally] clause: the object holds the lists of this
    verification, and every delete call is for a verified locator. *)
Lemma verify_and_delete_facts files s :
  self (final (verify_and_delete files s)) = verified_self s files
  /\ Forall (deletes_within (verified_of (world s) (destination (self s)) files))
       (trace (verify_and_delete files s))
  /\ In (Print MsgVerifying) (trace (verify_and_delete files s)).
Proof.
  set (V := verified_of (world s) (destination (self s)) files).
  set (cont := fun V : list string =>
         match V with
         | [] => ret tt
         | _ :: _ =>
             response <- ask ;;
             if String.eqb response "Y" then delete_files V
             else print MsgSkippedDeletion
         end : M W unit).
  assert (Hk : keeps_self (cont V)).
  { unfold cont. destruct V; shape;
      [apply ask_keeps_self | apply delete_files_keeps_self]. }
  assert (He : emits_only (deletes_within V) (cont V)).
  { unfold cont. destruct V; shape;
      [apply ask_emits | apply delete_files_emits | apply print_no_delete]. }
  assert (Hv : Forall (deletes_within V) (trace (DeviceBackup.verify_files files s)))
    by apply verify_files_emits.
  pose proof (verify_files_run files s) as R. cbv zeta in R. fold V in R.
  rewrite R in Hv. unfold trace in Hv. simpl in Hv.
  unfold verify_and_delete. erewrite bind_Ret by exact R.
  cbv beta iota. fold (cont V).
  unfold final at 1, trace at 1 3. simpl fst. simpl snd.
  repeat split.
  - rewrite Hk. reflexivity.
  - apply Forall_app. split; [exact Hv | apply He].
  - now left.
Qed.
End TransferStage.

Section TransferStageFacts.
Context {W : Type} {os : OS W}.
Implicit Types s : State W.

Lemma final_bind {A B} (m : M W A) (f : A -> M W B) s :
  final (bind m f s) =
  match result (m s) with
  | Ret a => final (f a (final (m s)))
  | Raise _ => final (m s)
  end.
Proof.
  unfold bind, result, final. destruct (m s) as [[[a|e] s1] t1]; simpl;
    [destruct (f a s1) as [[r s2] t2]|]; reflexivity.
Qed.

Lemma final_try_finally {A} (body : M W A) fin s :
  final (try_finally body fin s) = final (fin (final (body s))).
Proof.
  unfold try_finally, final. destruct (body s) as [[r s1] t1]. simpl.
  destruct (fin s1) as [[[u|e] s2] t2]; reflexivity.
Qed.

(** The stage, however the copy part ended: the object holds the two
    lists verification computed over the whole catalog in the state the
    copy part left, and every delete call is for a locator of the
    verified list. *)
Lemma transfer_stage_facts files s :
  let s1 := final (copy_part files s) in
  self s1 = self s
  /\ self (final (transfer_stage files s)) = verified_self s1 files
  /\ Forall (deletes_within (verified_of (world s1) (destination (self s)) files))
       (trace (transfer_stage files s))
  /\ In (Print MsgVerifying) (trace (transfer_stage files s)).
Proof.
  intros s1. assert (Hs : self s1 = self s) by apply copy_part_keeps_self.
  destruct (verify_and_delete_facts files s1) as [Hself [Hdel Hin]].
  rewrite Hs in Hdel. unfold transfer_stage. fold (copy_part files).
  split; [exact Hs|]. split; [|split].
  - rewrite final_bind.
    destruct (result _); rewrite ?final_try_finally; exact Hself.
  - rewrite trace_bind, trace_try_finally. fold s1.
    repeat (apply Forall_app; split).
    + apply copy_part_emits.
    + exact Hdel.
    + destruct (result _); repeat constructor. apply print_no_delete.
  - rewrite trace_bind, trace_try_finally. fold s1.
    apply in_or_app. left. apply in_or_app. right. exact Hin.
Qed.
End TransferStageFacts.

(** ** Deletion *)

Section Deletion.
Context {W : Type} {os : OS W}.
Implicit Types s : State W.

Lemma deletes_verified_bind {A} (m : M W A) (f : A -> M W unit) s :
  (forall paths, emits_only (deletes_within paths) m) ->
  (forall a s1, deletes_verified (f a s1)) ->
  deletes_verified (bind m f s).
Proof.
  intros Hm Hf. unfold deletes_verified. rewrite trace_bind, final_bind.
  apply Forall_app. split; [apply Hm|].
  destruct (result (m s)) as [a|e]; [apply Hf | constructor].
Qed.

Lemma deletes_verified_print m s : deletes_verified (@print W m s).
Proof. repeat constructor. apply print_no_delete. Qed.

Lemma deletes_verified_transfer files s :
  deletes_verified (transfer_stage files s).
Proof.
  destruct (transfer_stage_facts files s) as [Hs [Hself [Hdel _]]].
  unfold deletes_verified. rewrite Hself. unfold verified_self. simpl.
  now rewrite Hs.
Qed.

Lemma deletes_verified_preflight files s :
  deletes_verified (preflight_stage files s).
Proof.
  unfold preflight_stage. apply deletes_verified_bind.
  - intros paths. apply check_disk_space_emits.
  - intros sufficient s1. destruct sufficient; simpl.
    + apply deletes_verified_transfer.
    + apply deletes_verified_bind; [intros paths; apply ask_emits|].
      intros response s2. destruct (negb _).
      * apply deletes_verified_print.
      * apply deletes_verified_transfer.
Qed.

Lemma deletes_verified_main s : deletes_verified (main_run s).
Proof.
  unfold main_run. apply deletes_verified_bind; [intros; apply ask_emits|].
  intros response s1. destruct (negb _); [apply deletes_verified_print|].
  apply deletes_verified_bind; [intros; apply emits_only_get_self|].
  intros b s2. apply deletes_verified_bind.
  { intros paths. apply emits_only_emit, print_no_delete. }
  intros _ s3. apply deletes_verified_bind.
  { intros paths. apply find_media_files_emits. }
  intros media_files s4. destruct media_files.
  - apply deletes_verified_print.
  - apply deletes_verified_preflight.
Qed.

Lemma deleted_within t paths p :
  Forall (deletes_within paths) t -> deleted t p -> In p paths.
Proof.
  intros H [e [He Hp]]. rewrite Forall_forall in H. exact (H e He p Hp).
Qed.
End Deletion.

(** C1. Deletion containment.  In every run of [main], every delete call
    is for a source locator that verification has put in the verified
    list the backup object holds.  At the transfer stage, a delete call is
    only for a locator in the list verification returns over the catalog
    in the state the copy pass left, so it is the locator of a candidate
    whose destination file has the recorded size; with distinct source
    locators in the catalog, a candidate that fails verification has no
    delete call for its locator. *)
Theorem deletion_containment {W : Type} {os : OS W} :
  (forall (s : State W) p,
      deleted (trace (main_run s)) p ->
      In p (verified_files (self (final (main_run s)))))
  /\ (forall files (s : State W),
        let s1 := final (copy_part files s) in
        let dest := destination (self s1) in
        result (DeviceBackup.verify_files files s1)
        = Ret (verified_of (world s1) dest files, failed_of (world s1) dest files)
        /\ verified_files (self (final (transfer_stage files s)))
           = verified_of (world s1) dest files
        /\ (forall p, deleted (trace (transfer_stage files s)) p ->
                      In p (verified_of (world s1) dest files)
                      /\ exists c, In c files /\ sourceRef c = p
                                   /\ dest_has (world s1) dest c)
        /\ (NoDup (map sourceRef files) ->
            forall c, In c files -> ~ dest_has (world s1) dest c ->
                      ~ deleted (trace (transfer_stage files s)) (sourceRef c))).
Proof.
  split.
  - intros s p. apply deleted_within, deletes_verified_main.
  - intros files s s1 dest.
    destruct (transfer_stage_facts files s) as [Hs [Hself [Hdel _]]].
    fold s1 in Hs, Hself, Hdel.
    assert (Hd : destination (self s) = dest) by (unfold dest; now rewrite Hs).
    rewrite Hd in Hdel.
    pose proof (verify_files_run files s1) as R. cbv zeta in R.
    fold dest in R. split; [now rewrite R|]. split; [now rewrite Hself|].
    split.
    + intros p Hp. pose proof (deleted_within _ _ _ Hdel Hp) as Hin.
      split; [exact Hin | now apply verified_of_In].
    + intros ND c Hc Hn Hp. apply Hn.
      apply (verified_of_NoDup _ _ files c ND Hc).
      exact (deleted_within _ _ _ Hdel Hp).
Qed.

(** ** Faults during the transfer pass *)

Section Faults.
Context {W : Type} {os : OS W}.
Implicit Types s : State W.

(** The step when the fetch failed: one fetch call, one error line, and
    a normal return. *)
Lemma copy_step_failed k total idx c s t0 w0 w1 :
  dest_hasb (world s) (destination (self s)) c = false ->
  time_time (world s) = (t0, w0) ->
  fetch_end k s c w0 = (FetchFailed, w1) ->
  copy_step k total (idx, c) s
  = (Ret tt, mkState w1 (self s),
     [fetch_call k s c; Print (MsgErrorCopying (fileName c))]).
Proof.
  intros E T0 F. unfold copy_step. simpl. rewrite E.
  destruct k; simpl in *;
    unfold iPhone_copy_outcome, Android_copy_outcome; rewrite T0.
  - destruct (shutil_copy2 _ _ w0) as [[[]|e] w1']; [discriminate|].
    destruct e; try discriminate; injection F as <-; reflexivity.
  - destruct (subprocess_run _ w0) as [[r|e] w1'].
    + destruct (returncode r =? 0); [discriminate|].
      injection F as <-. reflexivity.
    + destruct e; try discriminate; injection F as <-; reflexivity.
Qed.

(** A step issues at most one fetch call. *)
Lemma copy_step_one_fetch k total item s :
  (List.length (filter is_fetch (trace (copy_step k total item s))) <= 1)%nat.
Proof.
  unfold copy_step. destruct (dest_hasb _ _ _); [simpl; lia|].
  destruct item as [idx c]. destruct k; simpl;
    unfold iPhone_copy_outcome, Android_copy_outcome;
    destruct (time_time (world s)) as [t0 w0].
  - destruct (shutil_copy2 _ _ w0) as [[[]|e] w1];
      [destruct (time_time w1)|destruct e]; simpl; lia.
  - destruct (subprocess_run _ w0) as [[r|e] w1];
      [destruct (returncode r =? 0); [destruct (time_time w1)|]|destruct e];
      simpl; lia.
Qed.

Lemma copy_loop_fetches k total items s :
  total <> 0%nat ->
  (List.length (filter is_fetch (trace (for_each items (copy_one_of k total) s)))
   <= List.length items)%nat.
Proof.
  intros Ht. revert s. induction items as [|it items IH]; intros s.
  - simpl. lia.
  - simpl for_each. rewrite trace_bind, filter_app, length_app.
    rewrite copy_one_of_run by exact Ht.
    pose proof (copy_step_one_fetch k total it s) as H1.
    destruct (result _).
    + specialize (IH (final (copy_step k total it s))). simpl. lia.
    + simpl. lia.
Qed.

(** The pass over [before ++ it :: after]: when the steps of [before]
    returned and the fetch of [it] failed, the pass goes on with [after]
    from the state the failed fetch left. *)
Lemma copy_loop_continues k total before idx c after s t0 w0 w1 :
  total <> 0%nat ->
  let s1 := final (for_each before (copy_one_of k total) s) in
  result (for_each before (copy_one_of k total) s) = Ret tt ->
  dest_hasb (world s1) (destination (self s1)) c = false ->
  time_time (world s1) = (t0, w0) ->
  fetch_end k s1 c w0 = (FetchFailed, w1) ->
  let rest := for_each after (copy_one_of k total) (mkState w1 (self s1)) in
  for_each (before ++ (idx, c) :: after) (copy_one_of k total) s
  = (result rest, final rest,
     (trace (for_each before (copy_one_of k total) s)
      ++ [fetch_call k s1 c; Print (MsgErrorCopying (fileName c))]
      ++ trace rest)%list).
Proof.
  intros Ht s1 Hb E T0 F rest. rewrite for_each_app.
  erewrite bind_Ret; cycle 1.
  { rewrite (run_eta (for_each before _ s)), Hb. reflexivity. }
  fold s1. simpl for_each.
  erewrite bind_Ret; cycle 1.
  { rewrite copy_one_of_run by exact Ht.
    now apply (copy_step_failed k total idx c s1 t0 w0 w1). }
  unfold result at 1, final at 1, trace at 1. simpl. reflexivity.
Qed.
End Faults.

Section Enumerate.
Context {A : Type}.

Lemma enumerate_from_app k (l1 l2 : list A) :
  enumerate_from k (l1 ++ l2)
  = (enumerate_from k l1 ++ enumerate_from (k + List.length l1) l2)%list.
Proof.
  unfold enumerate_from. revert k. induction l1 as [|x l1 IH]; intros k; simpl.
  - now rewrite Nat.add_0_r.
  - f_equal. rewrite IH. now rewrite Nat.add_succ_r.
Qed.

Lemma enumerate1_split (pre : list A) c post :
  enumerate1 (pre ++ c :: post)
  = (enumerate_from 1 pre
     ++ (S (List.length pre), c) :: enumerate_from (2 + List.length pre) post)%list.
Proof.
  change (enumerate1 (pre ++ c :: post)) with (enumerate_from 1 (pre ++ c :: post)).
  rewrite enumerate_from_app. reflexivity.
Qed.
End Enumerate.

(** C8. Fault isolation.  (1) When the fetch of a candidate fails, the
    pass makes that one fetch call, prints the error line for it and goes
    on with the candidates after it, in order, from the state the failure
    left.  (2) A pass issues at most one fetch call per candidate, and a
    step at most one: nothing is retried.  (3) No failure of a fetch leaves
    the pass as an exception; only [KeyboardInterrupt] does.  (4) However
    the copy part ended, verification then classifies every candidate of
    the catalog, in the state the copy part left. *)
Theorem fault_isolation
    {W : Type} {os : OS W} (files : list Candidate) (s : State W) :
  let k := kind (self s) in
  let total := List.length files in
  (forall pre c post t0 w0 w1,
      files = (pre ++ c :: post)%list ->
      let before := enumerate_from 1 pre in
      let after := enumerate_from (2 + List.length pre) post in
      let s1 := final (for_each before (copy_one_of k total) s) in
      result (for_each before (copy_one_of k total) s) = Ret tt ->
      ~ dest_has (world s1) (destination (self s1)) c ->
      time_time (world s1) = (t0, w0) ->
      fetch_end k s1 c w0 = (FetchFailed, w1) ->
      let rest := for_each after (copy_one_of k total) (mkState w1 (self s1)) in
      copy_files files s
      = (result rest, final rest,
         (trace (for_each before (copy_one_of k total) s)
          ++ [fetch_call k s1 c; Print (MsgErrorCopying (fileName c))]
          ++ trace rest)%list))
  /\ (List.length (filter is_fetch (trace (copy_files files s)))
      <= List.length files)%nat
  /\ (forall item (s' : State W),
        (List.length (filter is_fetch (trace (copy_step k total item s'))) <= 1)%nat)
  /\ (forall e, result (copy_files files s) = Raise e -> e = KeyboardInterrupt)
  /\ (let s1 := final (copy_part files s) in
      let dest := destination (self s) in
      let verified := verified_files (self (final (transfer_stage files s))) in
      let failed := failed_files (self (final (transfer_stage files s))) in
      In (Print MsgVerifying) (trace (transfer_stage files s))
      /\ verified = verified_of (world s1) dest files
      /\ failed = failed_of (world s1) dest files
      /\ (List.length verified + List.length failed)%nat = List.length files
      /\ (forall c, In c files ->
                    (dest_has (world s1) dest c -> In (sourceRef c) verified)
                    /\ (~ dest_has (world s1) dest c -> In (fileName c) failed))).
Proof.
  intros k total.
  assert (Hloop : forall items s',
             total <> 0%nat ->
             forall e, result (for_each items (copy_one_of k total) s') = Raise e ->
                       e = KeyboardInterrupt).
  { intros items s' Ht. revert s'. induction items as [|it items IH]; intros s' e.
    - discriminate.
    - simpl for_each. unfold bind. rewrite copy_one_of_run by exact Ht.
      pose proof (copy_step_raises k total it s') as Hr.
      destruct (copy_step k total it s') as [[[[]|e'] s2] t2].
      + specialize (IH s2 e).
        destruct (for_each items _ s2) as [[r s3] t3]. exact IH.
      + intros [= <-]. now apply Hr. }
  split; [|split; [|split; [|split]]].
  - intros pre c post t0 w0 w1 -> before after s1 Hb Hn T0 F rest.
    assert (Ht : total <> 0%nat).
    { unfold total. rewrite length_app. simpl. lia. }
    rewrite copy_files_dispatch, enumerate1_split. fold k total.
    apply dest_hasb_false in Hn.
    now apply (copy_loop_continues k total before _ c after s t0 w0 w1).
  - rewrite copy_files_dispatch. fold k total.
    destruct files as [|c0 files']; [simpl; lia|].
    etransitivity; [apply copy_loop_fetches; discriminate|].
    now rewrite enumerate1_length.
  - intros item s'. apply copy_step_one_fetch.
  - rewrite copy_files_dispatch. fold k total.
    destruct files as [|c0 files']; [discriminate|].
    apply Hloop. discriminate.
  - destruct (transfer_stage_facts files s) as [Hs [Hself [_ Hin]]].
    cbv zeta. rewrite Hself. unfold verified_self. simpl. rewrite Hs.
    split; [exact Hin|]. split; [reflexivity|]. split; [reflexivity|].
    split; [apply partition_lengths|].
    intros c Hc. split; intros H.
    + apply verified_of_In. eauto.
    + apply failed_of_In. eauto.
Qed.

(** ** The space preflight *)

Section Preflight.
Context {W : Type} {os : OS W}.
Implicit Types s : State W.

Lemma GiB_nonzero : ~ (DeviceBackup.GiB == 0)%Q.
Proof. intros H. discriminate H. Qed.

(** One run of [check_disk_space], by the free-space reading. *)
Lemma check_disk_space_run required s :
  DeviceBackup.check_disk_space required s =
  match disk_usage_free (destination (self s)) (world s) with
  | None => (Ret true, s, [Print MsgCouldNotCheck])
  | Some available =>
      if available <? required then
        (Ret false, s,
         [Print (MsgSpaceCheck (in_GiB required) (in_GiB available));
          Print (MsgInsufficient (in_GiB (required - available)))])
      else
        (Ret true, s,
         [Print (MsgSpaceCheck (in_GiB required) (in_GiB available));
          Print MsgSufficient])
  end.
Proof.
  unfold DeviceBackup.check_disk_space, try_except.
  unfold bind at 1, get_self at 1. cbv beta iota.
  unfold bind at 1, read_or_raise at 1.
  destruct (disk_usage_free (destination (self s)) (world s)) as [available|];
    [|reflexivity].
  unfold bind at 1. rewrite (truediv_run _ _ _ GiB_nonzero).
  unfold bind at 1. rewrite (truediv_run _ _ _ GiB_nonzero).
  unfold bind at 1, print at 1, emit at 1. cbv beta iota.
  destruct (available <? required).
  - unfold bind at 1. rewrite (truediv_run _ _ _ GiB_nonzero). reflexivity.
  - reflexivity.
Qed.

Lemma total_size_sum files : total_size files = sum_sizes files.
Proof.
  unfold total_size.
  assert (G : forall l acc, fold_left Z.add (map sizeBytes l) acc
                            = acc + sum_sizes l).
  { induction l as [|c l IH]; intros acc; simpl; [lia|]. rewrite IH. lia. }
  rewrite G. lia.
Qed.

Lemma bind_Ret_eta {A B} (m : M W A) (f : A -> M W B) s a :
  result (m s) = Ret a ->
  bind m f s
  = (result (f a (final (m s))), final (f a (final (m s))),
     (trace (m s) ++ trace (f a (final (m s))))%list).
Proof.
  intros H. apply bind_Ret. rewrite <- H. apply run_eta.
Qed.

Lemma ask_run s :
  ask s = (Ret (PyStr.upper (PyStr.strip (fst (input (world s))))),
           mkState (snd (input (world s))) (self s), []).
Proof.
  unfold ask, bind, call, ret. destruct (input (world s)). reflexivity.
Qed.
End Preflight.

(** C7. Space preflight verdict.  With [required] the sum of the sizes of
    the catalog, and with [required] and the free space read within the
    float range, [check_disk_space] returns without raising and without
    changing anything: false, with the shortage [required - available]
    printed in GiB, exactly when the free space read is below [required];
    true otherwise, and true when the reading raises.  It stops nothing by
    itself: [main] runs the transfer stage after a true verdict, and after
    a false verdict it asks the user and runs the transfer stage on the
    answer "Y" (cancelling is the user's answer, not the verdict). *)
Theorem space_preflight_verdict
    {W : Type} {os : OS W} (files : list Candidate) (s : State W) :
  float_safe (total_size files) ->
  (forall available,
      disk_usage_free (destination (self s)) (world s) = Some available ->
      float_safe available) ->
  let required := total_size files in
  let reading := disk_usage_free (destination (self s)) (world s) in
  let check := DeviceBackup.check_disk_space required s in
  required = sum_sizes files
  /\ final check = s
  /\ (forall available, reading = Some available ->
        (available < required ->
         result check = Ret false
         /\ In (Print (MsgInsufficient (in_GiB (required - available))))
              (trace check))
        /\ (required <= available -> result check = Ret true))
  /\ (reading = None -> result check = Ret true)
  /\ (result check = Ret false <->
      exists available, reading = Some available /\ available < required)
  /\ (result check = Ret true \/ result check = Ret false)
  /\ (result check = Ret true ->
      preflight_stage files s
      = (result (transfer_stage files s), final (transfer_stage files s),
         (trace check ++ trace (transfer_stage files s))%list))
  /\ (result check = Ret false ->
      let answer := PyStr.upper (PyStr.strip (fst (input (world s)))) in
      let asked := mkState (snd (input (world s))) (self s) in
      (answer = "Y" ->
       preflight_stage files s
       = (result (transfer_stage files asked), final (transfer_stage files asked),
          (trace check ++ trace (transfer_stage files asked))%list))
      /\ (answer <> "Y" ->
          preflight_stage files s
          = (Ret tt, asked, (trace check ++ [Print MsgCancelled])%list))).
Proof.
  intros _ _ required reading check.
  assert (R := check_disk_space_run required s). fold reading check in R.
  assert (Hfinal : final check = s).
  { rewrite R. destruct reading as [a|]; [destruct (a <? required)|]; reflexivity. }
  split; [apply total_size_sum|]. split; [exact Hfinal|].
  split; [|split; [|split; [|split; [|split]]]].
  - intros available E. rewrite R, E. split; intros H.
    + apply Z.ltb_lt in H. rewrite H. split; [reflexivity|]. right. now left.
    + apply Z.ltb_ge in H. now rewrite H.
  - intros E. now rewrite R, E.
  - rewrite R. destruct reading as [a|].
    + destruct (Z.ltb_spec a required) as [L|L]; unfold result; simpl; split.
      * intros _. exists a. split; [reflexivity | exact L].
      * reflexivity.
      * discriminate.
      * intros [a' [[= <-] L']]. lia.
    + unfold result; simpl. split; [discriminate | intros [a [[=] _]]].
  - rewrite R. destruct reading as [a|]; [destruct (a <? required)|]; auto.
  - intros Ht. unfold preflight_stage.
    rewrite (bind_Ret_eta _ _ _ _ Ht). fold check. rewrite Hfinal.
    reflexivity.
  - intros Hf answer asked. unfold preflight_stage.
    rewrite (bind_Ret_eta _ _ _ _ Hf). fold check. rewrite Hfinal.
    change (negb false) with true. cbv beta iota.
    split; intros Ha.
    + erewrite bind_Ret by apply ask_run. fold answer asked.
      rewrite Ha. reflexivity.
    + erewrite bind_Ret by apply ask_run. fold answer asked.
      apply String.eqb_neq in Ha. rewrite Ha. reflexivity.
Qed.

Lemma space_preflight_verdict_witness :
  result (DeviceBackup.check_disk_space
            (total_size [Sim.photo; Sim.clip; Sim.shot])
            (Sim.iphone_at Sim.mounted)) = Ret true
  /\ total_size [Sim.photo; Sim.clip; Sim.shot] = 3146028.
Proof.
  destruct (space_preflight_verdict (os:=Sim.os)
              [Sim.photo; Sim.clip; Sim.shot] (Sim.iphone_at Sim.mounted))
    as [Hsum [_ [Hread _]]].
  - reflexivity.
  - intros available [= <-]. reflexivity.
  - split; [|rewrite Hsum; reflexivity].
    apply (Hread 5000000 eq_refl). discriminate.
Defined.

(** ** Order of strings and [sorted] *)

Section StringOrder.

Lemma ascii_compare_N a b :
  Ascii.compare a b = N.compare (N_of_ascii a) (N_of_ascii b).
Proof. reflexivity. Qed.

Lemma ascii_compare_refl a : Ascii.compare a a = Eq.
Proof. rewrite ascii_compare_N. apply N.compare_refl. Qed.

Lemma string_compare_refl s : String.compare s s = Eq.
Proof.
  induction s as [|c s IH]; simpl; [reflexivity|].
  now rewrite ascii_compare_refl.
Qed.

Lemma string_leb_refl s : (s <=? s)%string = true.
Proof. unfold String.leb. now rewrite string_compare_refl. Qed.

(** [String.compare] is transitive on [Lt]. *)
Lemma string_compare_lt_trans a b c :
  String.compare a b = Lt -> String.compare b c = Lt -> String.compare a c = Lt.
Proof.
  revert b c. induction a as [|x a IH]; intros [|y b] [|z c]; simpl;
    try congruence.
  rewrite !ascii_compare_N.
  destruct (N.compare_spec (N_of_ascii x) (N_of_ascii y)) as [E1|L1|G1];
    destruct (N.compare_spec (N_of_ascii y) (N_of_ascii z)) as [E2|L2|G2];
    try congruence; intros H1 H2.
  - rewrite E1, E2, N.compare_refl. eauto.
  - rewrite E1. apply N.compare_lt_iff in L2. now rewrite L2.
  - rewrite <- E2. apply N.compare_lt_iff in L1. now rewrite L1.
  - assert (L : (N_of_ascii x < N_of_ascii z)%N) by lia.
    apply N.compare_lt_iff in L. now rewrite L.
Qed.

Lemma string_leb_trans a b c :
  (a <=? b)%string = true -> (b <=? c)%string = true -> (a <=? c)%string = true.
Proof.
  unfold String.leb.
  destruct (String.compare a b) eqn:E1; try discriminate;
    destruct (String.compare b c) eqn:E2; try discriminate; intros _ _.
  - apply String.compare_eq_iff in E1, E2. subst. now rewrite string_compare_refl.
  - apply String.compare_eq_iff in E1. subst. now rewrite E2.
  - apply String.compare_eq_iff in E2. subst. now rewrite E1.
  - now rewrite (string_compare_lt_trans a b c E1 E2).
Qed.

Lemma string_leb_false a b :
  (a <=? b)%string = false -> (b <=? a)%string = true.
Proof.
  intros H. destruct (String.leb_total a b) as [T|T]; congruence.
Qed.

(** Strictly below: below and different. *)
Lemma string_ltb_leb a b :
  (a <? b)%string = true <-> (a <=? b)%string = true /\ a <> b.
Proof.
  unfold String.ltb, String.leb. destruct (String.compare a b) eqn:E.
  - apply String.compare_eq_iff in E. subst. split; [discriminate|].
    intros [_ N]. now elim N.
  - split; [|reflexivity]. intros _. split; [reflexivity|].
    intros ->. rewrite string_compare_refl in E. discriminate.
  - split; [discriminate | intros [H _]; discriminate].
Qed.
End StringOrder.

Section SortedFacts.
Context {A : Type} (key : A -> string).

Lemma insert_Permutation x l : Permutation (x :: l) (insert key x l).
Proof.
  induction l as [|y l IH]; simpl; [reflexivity|].
  destruct (key x <=? key y)%string; [reflexivity|].
  rewrite perm_swap. now apply perm_skip.
Qed.

Lemma sorted_Permutation l : Permutation l (sorted key l).
Proof.
  induction l as [|x l IH]; simpl; [reflexivity|].
  rewrite <- insert_Permutation. now apply perm_skip.
Qed.

Lemma insert_StronglySorted x l :
  StronglySorted (key_le key) l -> StronglySorted (key_le key) (insert key x l).
Proof.
  induction 1 as [|y l Hs IH Hy]; simpl.
  - repeat constructor.
  - destruct (key x <=? key y)%string eqn:E.
    + constructor; [now constructor|].
      constructor; [exact E|].
      eapply Forall_impl; [|exact Hy].
      intros z Hz. unfold key_le in *. eapply string_leb_trans; eassumption.
    + constructor; [exact IH|].
      apply (Permutation_Forall (insert_Permutation x l)).
      constructor; [|exact Hy]. now apply string_leb_false.
Qed.

Lemma sorted_StronglySorted l : StronglySorted (key_le key) (sorted key l).
Proof.
  induction l as [|x l IH]; simpl; [constructor|].
  now apply insert_StronglySorted.
Qed.
End SortedFacts.

(** Two lists of strings in ascending order with the same elements are
    the same list. *)
Lemma ascending_unique (l1 l2 : list string) :
  StronglySorted (fun a b => (a <=? b)%string = true) l1 ->
  StronglySorted (fun a b => (a <=? b)%string = true) l2 ->
  Permutation l1 l2 -> l1 = l2.
Proof.
  intros S1. revert l2. induction S1 as [|x l1 S1 IH H1]; intros l2 S2 P.
  - apply Permutation_nil in P. now subst.
  - destruct S2 as [|y l2 S2 H2].
    + apply Permutation_sym, Permutation_nil in P. discriminate.
    + assert (x = y) as <-.
      { apply String.leb_antisym.
        - assert (In y (x :: l1)) as [->|Hy]
            by (eapply Permutation_in; [apply Permutation_sym, P | now left]).
          + apply string_leb_refl.
          + rewrite Forall_forall in H1. now apply H1.
        - assert (In x (y :: l2)) as [->|Hx]
            by (eapply Permutation_in; [apply P | now left]).
          + apply string_leb_refl.
          + rewrite Forall_forall in H2. now apply H2. }
      f_equal. apply IH; [exact S2|]. now apply Permutation_cons_inv in P.
Qed.

Lemma StronglySorted_map {A B} (f : A -> B) (R : B -> B -> Prop) l :
  StronglySorted (fun a b => R (f a) (f b)) l -> StronglySorted R (map f l).
Proof.
  induction 1 as [|x l S IH H]; simpl; constructor; [exact IH|].
  rewrite Forall_forall in *. intros b Hb. apply in_map_iff in Hb.
  destruct Hb as [a [<- Ha]]. now apply H.
Qed.

(** The order in which the items arrive does not show in the names of
    the sorted list. *)
Lemma sorted_names_order_free {A} (key : A -> string) (l1 l2 : list A) :
  Permutation l1 l2 -> map key (sorted key l1) = map key (sorted key l2).
Proof.
  intros P. apply ascending_unique.
  - apply StronglySorted_map, sorted_StronglySorted.
  - apply StronglySorted_map, sorted_StronglySorted.
  - apply Permutation_map.
    rewrite <- (sorted_Permutation key l1), <- (sorted_Permutation key l2).
    exact P.
Qed.

(** Strictly ascending when no two names are equal. *)
Lemma sorted_strict {A} (key : A -> string) (l : list A) :
  NoDup (map key l) ->
  StronglySorted (fun a b => (key a <? key b)%string = true) (sorted key l).
Proof.
  intros ND.
  assert (ND' : NoDup (map key (sorted key l))).
  { eapply Permutation_NoDup; [|exact ND].
    apply Permutation_map, sorted_Permutation. }
  pose proof (sorted_StronglySorted key l) as S.
  induction S as [|x r S IH H]; [constructor|].
  simpl in ND'. inversion ND' as [|? ? Hx ND'']; subst.
  constructor; [now apply IH|].
  rewrite Forall_forall in *. intros y Hy. apply string_ltb_leb.
  split; [now apply H|]. intros E. apply Hx. rewrite E. now apply in_map.
Qed.

(** ** What a computation can return *)

Section ReturnsOnly.
Context {W : Type}.

Lemma returns_only_ret {A} (Q : A -> Prop) a :
  Q a -> returns_only (W:=W) Q (ret a).
Proof. intros H s b [= <-]. exact H. Qed.

Lemma returns_only_raise {A} (Q : A -> Prop) e :
  returns_only (W:=W) Q (raise e).
Proof. intros s b. discriminate. Qed.

Lemma result_bind {A B} (m : M W A) (f : A -> M W B) s :
  result (bind m f s) =
  match result (m s) with
  | Ret a => result (f a (final (m s)))
  | Raise e => Raise e
  end.
Proof.
  unfold bind, result, final. destruct (m s) as [[[a|e] s1] t1]; simpl;
    [destruct (f a s1) as [[r s2] t2]|]; reflexivity.
Qed.

Lemma returns_only_bind {A B} (P : A -> Prop) (Q : B -> Prop)
    (m : M W A) (f : A -> M W B) :
  returns_only P m -> (forall a, P a -> returns_only Q (f a)) ->
  returns_only Q (bind m f).
Proof.
  intros Hm Hf s b. rewrite result_bind.
  destruct (result (m s)) as [a|e] eqn:E; [|discriminate].
  apply Hf. exact (Hm s a E).
Qed.

Lemma returns_only_any {A} (m : M W A) : returns_only (fun _ => True) m.
Proof. intros s a _. exact I. Qed.

Lemma returns_only_try_except {A} (Q : A -> Prop) c (body handler : M W A) :
  returns_only Q body -> returns_only Q handler ->
  returns_only Q (try_except c body handler).
Proof.
  intros Hb Hh s a. unfold try_except.
  specialize (Hb s). unfold result in *.
  destruct (body s) as [[[b|e] s1] t1]; simpl in *; [apply Hb|].
  destruct (c e); [|discriminate].
  specialize (Hh s1). unfold result in Hh.
  destruct (handler s1) as [[r s2] t2]. simpl in *. apply Hh.
Qed.

Lemma returns_only_for_fold {A S} (Inv : S -> Prop) (l : list A)
    (body : A -> S -> M W S) acc :
  Inv acc -> (forall x a, Inv a -> returns_only Inv (body x a)) ->
  returns_only Inv (for_fold l acc body).
Proof.
  intros H0 Hb. revert acc H0. induction l as [|x l IH]; intros acc H0; simpl.
  - now apply returns_only_ret.
  - eapply returns_only_bind; [now apply Hb|]. intros a Ha. now apply IH.
Qed.
End ReturnsOnly.

(** ** Enumeration *)

Section Enumeration.
Context {W : Type} {os : OS W}.
Implicit Types s : State W.

Lemma str_in_In x l : str_in x l = true <-> In x l.
Proof.
  unfold str_in. rewrite existsb_exists. split.
  - intros [y [Hy E]]. apply String.eqb_eq in E. now subst.
  - intros H. exists x. split; [exact H | apply String.eqb_refl].
Qed.

Lemma all_supported_snoc media c :
  all_supported media -> supported (fileName c) -> all_supported (media ++ [c]).
Proof.
  intros H Hc. apply Forall_app. split; [exact H | now constructor].
Qed.

Lemma iPhone_scan_file_supported root file media :
  all_supported media ->
  returns_only (W:=W) all_supported (iPhoneBackup.scan_file root file media).
Proof.
  intros H. unfold iPhoneBackup.scan_file.
  destruct (str_in _ _) eqn:E; [|now apply returns_only_ret].
  apply str_in_In in E.
  apply returns_only_try_except.
  - eapply returns_only_bind; [apply returns_only_any|].
    intros size _. apply returns_only_ret. now apply all_supported_snoc.
  - eapply returns_only_bind; [apply returns_only_any|].
    intros _ _. now apply returns_only_ret.
Qed.

Lemma Android_scan_path_supported line media :
  all_supported media ->
  returns_only (W:=W) all_supported (AndroidBackup.scan_path line media).
Proof.
  intros H. unfold AndroidBackup.scan_path.
  destruct (String.eqb _ _); [now apply returns_only_ret|].
  destruct (str_in _ _) eqn:E; [|now apply returns_only_ret].
  apply str_in_In in E.
  eapply returns_only_bind; [apply returns_only_any|].
  intros size_result _.
  destruct (returncode size_result =? 0); [|now apply returns_only_ret].
  apply returns_only_try_except; [|now apply returns_only_ret].
  eapply returns_only_bind; [apply returns_only_any|].
  intros size _. apply returns_only_ret. now apply all_supported_snoc.
Qed.

Lemma is_catalog_nil : is_catalog [].
Proof. exists []. split; [reflexivity | constructor]. Qed.

Lemma find_media_files_returns :
  returns_only (W:=W) is_catalog find_media_files.
Proof.
  unfold find_media_files.
  eapply returns_only_bind; [apply returns_only_any|]. intros b _.
  destruct (kind b).
  - unfold iPhoneBackup.find_media_files.
    eapply returns_only_bind; [apply returns_only_any|]. intros b' _.
    destruct (mount_point b') as [mp|]; [|apply returns_only_ret, is_catalog_nil].
    destruct (String.eqb mp EmptyString);
      [apply returns_only_ret, is_catalog_nil|].
    eapply returns_only_bind; [apply returns_only_any|]. intros found _.
    destruct (negb found).
    { eapply returns_only_bind; [apply returns_only_any|]. intros _ _.
      apply returns_only_ret, is_catalog_nil. }
    eapply returns_only_bind; [apply returns_only_any|]. intros walk _.
    eapply returns_only_bind with (P := all_supported).
    + apply returns_only_for_fold; [constructor|].
      intros [[root dirs] files] media Hm. unfold iPhoneBackup.scan_dir.
      apply returns_only_for_fold; [exact Hm|].
      intros file media' Hm'. now apply iPhone_scan_file_supported.
    + intros media Hm. apply returns_only_ret. now exists media.
  - unfold AndroidBackup.find_media_files.
    apply returns_only_try_except.
    + eapply returns_only_bind; [apply returns_only_any|]. intros r _.
      destruct (negb _).
      { eapply returns_only_bind; [apply returns_only_any|]. intros _ _.
        apply returns_only_ret, is_catalog_nil. }
      eapply returns_only_bind with (P := all_supported).
      * apply returns_only_for_fold; [constructor|].
        intros line media Hm. now apply Android_scan_path_supported.
      * intros media Hm. apply returns_only_ret. now exists media.
    + eapply returns_only_bind; [apply returns_only_any|]. intros _ _.
      apply returns_only_ret, is_catalog_nil.
Qed.

Lemma supported_matches file : supported file <-> matches_ignoring_case file.
Proof.
  unfold supported, matches_ignoring_case, extension. split.
  - intros H. exists (PyStr.lower (snd (OsPath.splitext file))).
    split; [exact H|].
    simpl in H.
    repeat (destruct H as [<-|H]; [reflexivity|]). contradiction.
  - intros [a [Ha E]]. rewrite E. simpl in Ha.
    repeat (destruct Ha as [<-|Ha]; [simpl; tauto|]). contradiction.
Qed.
End Enumeration.

Section MountedScan.
Context {W : Type} {os : OS W}.
Implicit Types s : State W.

(** A step that only reads: the rest runs in the same state. *)
Lemma bind_pure {A B} (m : M W A) (f : A -> M W B) s a :
  m s = (Ret a, s, []) -> bind m f s = f a s.
Proof.
  intros E. unfold bind. rewrite E. destruct (f a s) as [[r s2] t2]. reflexivity.
Qed.

Lemma iPhone_scan_file_run root file media s :
  iPhoneBackup.scan_file root file media s
  = (Ret (media ++ iPhone_file_entry (world s) root file)%list, s,
     iPhone_file_report (world s) root file).
Proof.
  unfold iPhoneBackup.scan_file, iPhone_file_entry, iPhone_file_report.
  destruct (str_in _ _); [|unfold ret; now rewrite app_nil_r].
  unfold try_except, bind, getsize, read_or_raise.
  destruct (stat_size _ _); simpl; [reflexivity|].
  now rewrite app_nil_r.
Qed.

Lemma iPhone_scan_files_run root files media s :
  for_fold files media (iPhoneBackup.scan_file root) s
  = (Ret (media ++ flat_map (iPhone_file_entry (world s) root) files)%list, s,
     flat_map (iPhone_file_report (world s) root) files).
Proof.
  revert media. induction files as [|f files IH]; intros media; simpl.
  - unfold ret. now rewrite app_nil_r.
  - erewrite bind_Ret by apply iPhone_scan_file_run.
    rewrite IH. unfold result, final, trace. simpl. now rewrite app_assoc.
Qed.

Lemma iPhone_scan_walk_run walk media s :
  for_fold walk media iPhoneBackup.scan_dir s
  = (Ret (media ++ iPhone_listing (world s) walk)%list, s,
     flat_map (fun entry => flat_map (iPhone_file_report (world s) (fst (fst entry)))
                              (snd entry)) walk).
Proof.
  revert media. induction walk as [|[[root dirs] files] walk IH];
    intros media; simpl.
  - unfold ret. now rewrite app_nil_r.
  - erewrite bind_Ret by apply iPhone_scan_files_run.
    rewrite IH. unfold result, final, trace. simpl. now rewrite app_assoc.
Qed.

(** The scan of a mounted device: it returns, with the world as it was,
    the sorted listing of the walk; the files whose size cannot be read
    are reported and left out, the others are all there. *)
Lemma iPhone_find_media_files_run mp s :
  mount_point (self s) = Some mp ->
  mp <> EmptyString ->
  stat_size (OsPath.join mp "DCIM") (world s) <> None ->
  let walk := os_walk (OsPath.join mp "DCIM") (world s) in
  iPhoneBackup.find_media_files s
  = (Ret (sorted fileName (iPhone_listing (world s) walk)), s,
     flat_map (fun entry => flat_map (iPhone_file_report (world s) (fst (fst entry)))
                              (snd entry)) walk).
Proof.
  intros Hmp Hne Hd walk. unfold iPhoneBackup.find_media_files.
  rewrite (bind_pure _ _ s (self s)) by reflexivity. rewrite Hmp.
  apply String.eqb_neq in Hne. rewrite Hne.
  rewrite (bind_pure _ _ s true); cycle 1.
  { unfold path_exists, read.
    destruct (stat_size (OsPath.join mp "DCIM") (world s)); congruence. }
  change (negb true) with false. cbv iota.
  rewrite (bind_pure _ _ s walk) by reflexivity.
  erewrite bind_Ret by apply iPhone_scan_walk_run.
  unfold result, final, trace, ret. simpl. now rewrite app_nil_r.
Qed.
End MountedScan.

(** ** The scan over adb, when [stat] is a query *)

Section ListedScan.
Context {W : Type} {os : OS W}.
Implicit Types s : State W.

Lemma Android_scan_line_query line media (w : W) b :
  (PyStr.strip line <> EmptyString ->
   str_in (extension (OsPath.basename (PyStr.strip line))) SUPPORTED_EXTENSIONS
   = true ->
   exists r,
     subprocess_run (AndroidBackup.stat_cmd (PyStr.strip line)) w = (Ret r, w)
     /\ (String.length (stdout r) <= 4300)%nat) ->
  result (AndroidBackup.scan_path line media (mkState w b))
  = Ret (media ++ Android_file_entry w line)%list
  /\ final (AndroidBackup.scan_path line media (mkState w b)) = mkState w b.
Proof.
  intros Q. unfold AndroidBackup.scan_path, Android_file_entry. cbv zeta.
  destruct (String.eqb_spec (PyStr.strip line) EmptyString) as [E|E].
  { unfold ret, result, final. simpl. now rewrite app_nil_r. }
  destruct (str_in _ SUPPORTED_EXTENSIONS) eqn:S.
  2:{ unfold ret, result, final. simpl. now rewrite app_nil_r. }
  destruct (Q E eq_refl) as [r [Hr _]].
  unfold run, bind, emit, call_res, try_except, int, result, final.
  cbn [world self fst snd]. rewrite Hr. cbn [fst snd].
  destruct (returncode r =? 0).
  - destruct (PyStr.int (PyStr.strip (stdout r))) as [size|];
      unfold ret, raise; simpl; [now split|]. now rewrite app_nil_r.
  - unfold ret. simpl. now rewrite app_nil_r.
Qed.

Lemma Android_scan_lines_query lines media (w : W) b :
  stat_is_a_query w lines ->
  result (for_fold lines media AndroidBackup.scan_path (mkState w b))
  = Ret (media ++ Android_listing w lines)%list
  /\ final (for_fold lines media AndroidBackup.scan_path (mkState w b))
     = mkState w b.
Proof.
  revert media. induction lines as [|line lines IH]; intros media Q.
  - unfold ret, result, final. simpl. now rewrite app_nil_r.
  - destruct (Android_scan_line_query line media w b) as [R F].
    { intros E S. apply Q; [now left | exact E | exact S]. }
    change (for_fold (line :: lines) media AndroidBackup.scan_path)
      with (bind (AndroidBackup.scan_path line media)
              (fun acc => for_fold lines acc AndroidBackup.scan_path)).
    rewrite result_bind, final_bind, R, F.
    destruct (IH (media ++ Android_file_entry w line)%list) as [R' F'].
    { intros l Hl. apply Q. now right. }
    rewrite R', F'. split; [|reflexivity].
    unfold Android_listing. simpl. now rewrite app_assoc.
Qed.

(** The scan over adb returns the sorted listing when [find] exits with 0
    and [stat] is a query. *)
Lemma Android_find_media_files_clean s r w1 :
  subprocess_run (AndroidBackup.find_cmd "/sdcard/DCIM") (world s) = (Ret r, w1) ->
  returncode r = 0 ->
  stat_is_a_query w1 (adb_lines r) ->
  result (AndroidBackup.find_media_files s)
  = Ret (sorted fileName (Android_listing w1 (adb_lines r))).
Proof.
  intros Hr Hc Q.
  destruct (Android_scan_lines_query (adb_lines r) [] w1 (self s) Q) as [R F].
  unfold AndroidBackup.find_media_files. cbv zeta.
  assert (E : run (AndroidBackup.find_cmd "/sdcard/DCIM") s
              = (Ret r, mkState w1 (self s),
                 [CallRun (AndroidBackup.find_cmd "/sdcard/DCIM")])).
  { unfold run, bind, emit, call_res. simpl. now rewrite Hr. }
  unfold try_except. rewrite (bind_Ret _ _ s _ _ _ E).
  apply Z.eqb_eq in Hc. rewrite Hc. change (negb true) with false. cbv iota.
  fold (adb_lines r). rewrite result_bind, R.
  unfold result at 1. simpl. reflexivity.
Qed.

Lemma find_media_files_kind s :
  find_media_files s
  = match kind (self s) with
    | iPhone => iPhoneBackup.find_media_files s
    | Android => AndroidBackup.find_media_files s
    end.
Proof.
  unfold find_media_files. rewrite (bind_pure _ _ s (self s)) by reflexivity.
  now destruct (kind (self s)).
Qed.

(** A clean scan returns the sorted listing of the device. *)
Lemma clean_scan_run s :
  clean_scan s ->
  result (find_media_files s) = Ret (sorted fileName (listing_of s)).
Proof.
  unfold clean_scan, listing_of. rewrite find_media_files_kind.
  destruct (kind (self s)).
  - intros [mp [Hmp [Hne Hd]]]. rewrite Hmp.
    now rewrite (iPhone_find_media_files_run mp s Hmp Hne Hd).
  - intros [r [w1 [Hr [Hc Q]]]]. rewrite Hr.
    now apply Android_find_media_files_clean.
Qed.

(** The candidates of the listing over adb: one for each line that names
    a file with a supported extension and a size that [stat] prints. *)
Lemma Android_listing_In (w : W) lines c :
  In c (Android_listing w lines) <->
  exists line reply size,
    In line lines
    /\ PyStr.strip line <> EmptyString
    /\ str_in (extension (OsPath.basename (PyStr.strip line)))
         SUPPORTED_EXTENSIONS = true
    /\ fst (subprocess_run (AndroidBackup.stat_cmd (PyStr.strip line)) w)
       = Ret reply
    /\ returncode reply = 0
    /\ PyStr.int (PyStr.strip (stdout reply)) = Some size
    /\ c = (PyStr.strip line, OsPath.basename (PyStr.strip line), size).
Proof.
  unfold Android_listing. rewrite in_flat_map. split.
  - intros [line [Hl Hc]]. unfold Android_file_entry in Hc. cbv zeta in Hc.
    destruct (String.eqb_spec (PyStr.strip line) EmptyString) as [E|E];
      [contradiction|].
    destruct (str_in _ SUPPORTED_EXTENSIONS) eqn:S; [|contradiction].
    destruct (fst (subprocess_run _ w)) as [reply|e] eqn:R; [|contradiction].
    destruct (Z.eqb_spec (returncode reply) 0) as [Z0|Z0]; [|contradiction].
    destruct (PyStr.int _) as [size|] eqn:I; [|contradiction].
    destruct Hc as [<-|[]]. exists line, reply, size. repeat split; assumption.
  - intros [line [reply [size [Hl [E [S [R [Z0 [I ->]]]]]]]]].
    exists line. split; [exact Hl|]. unfold Android_file_entry. cbv zeta.
    apply String.eqb_neq in E. rewrite E, S, R.
    apply Z.eqb_eq in Z0. rewrite Z0, I. now left.
Qed.

Lemma iPhone_listing_In (w : W) walk c :
  In c (iPhone_listing w walk) <->
  exists root dirs files file size,
    In (root, dirs, files) walk
    /\ In file files
    /\ str_in (extension file) SUPPORTED_EXTENSIONS = true
    /\ stat_size (OsPath.join root file) w = Some size
    /\ c = (OsPath.join root file, file, size).
Proof.
  unfold iPhone_listing. rewrite in_flat_map. split.
  - intros [[[root dirs] files] [Hw Hc]]. simpl in Hc.
    apply in_flat_map in Hc. destruct Hc as [file [Hf Hc]].
    unfold iPhone_file_entry in Hc.
    destruct (str_in _ _) eqn:E; [|contradiction].
    destruct (stat_size (OsPath.join root file) w) as [size|] eqn:Es;
      [|contradiction].
    destruct Hc as [<-|[]].
    exists root, dirs, files, file, size. repeat split; assumption.
  - intros [root [dirs [files [file [size [Hw [Hf [Hm [Es ->]]]]]]]]].
    exists (root, dirs, files). split; [exact Hw|]. simpl.
    apply in_flat_map. exists file. split; [exact Hf|].
    unfold iPhone_file_entry. rewrite Hm, Es. now left.
Qed.
End ListedScan.

(** C3. Ordering determinism.  When the scan has what it needs (a mounted
    DCIM folder; over adb, a [find] that exits with 0 and a [stat] that
    only queries), [find_media_files] returns the listing of the device,
    [listing_of], sorted by file name: every listed media file is in the
    catalog, once for each time it is listed, file names never go down
    along it, and go strictly up when no two are equal.  The names of the
    catalog do not depend on the order in which the transport lists the
    files: two devices whose listings are the same up to order give the
    same sequence of names; a device that lists [b.mp4] then [a.mov] gives
    the catalog [a.mov] then [b.mp4].  Whatever a scan returns, clean or
    not, is ordered by name. *)
Theorem catalog_sorted_by_name
    {W : Type} {os : OS W} (s : State W) :
  clean_scan s ->
  let catalog := sorted fileName (listing_of s) in
  result (find_media_files s) = Ret catalog
  /\ Permutation (listing_of s) catalog
  /\ name_sorted catalog
  /\ (NoDup (map fileName catalog) ->
      StronglySorted (fun a b => (fileName a <? fileName b)%string = true) catalog)
  /\ (forall s' : State W,
        clean_scan s' ->
        Permutation (listing_of s) (listing_of s') ->
        exists catalog',
          result (find_media_files s') = Ret catalog'
          /\ map fileName catalog' = map fileName catalog)
  /\ (forall x y m n,
        listing_of s = [(x, "b.mp4", m); (y, "a.mov", n)] ->
        result (find_media_files s) = Ret [(y, "a.mov", n); (x, "b.mp4", m)])
  /\ (forall (s0 : State W) c,
        result (find_media_files s0) = Ret c -> name_sorted c).
Proof.
  intros C catalog. subst catalog.
  split; [now apply clean_scan_run|].
  split; [apply sorted_Permutation|].
  split; [apply sorted_StronglySorted|].
  split; [|split; [|split]].
  - intros ND. apply sorted_strict.
    eapply Permutation_NoDup; [|exact ND].
    apply Permutation_map, Permutation_sym, sorted_Permutation.
  - intros s' C' P. exists (sorted fileName (listing_of s')).
    split; [now apply clean_scan_run|].
    now apply sorted_names_order_free, Permutation_sym.
  - intros x y m n L. rewrite (clean_scan_run s C), L. reflexivity.
  - intros s0 c H. destruct (find_media_files_returns s0 c H) as [raw [-> _]].
    apply sorted_StronglySorted.
Qed.

Lemma catalog_sorted_by_name_witness :
  result (find_media_files (Sim.android_at Sim.listed))
  = Ret [("/sdcard/DCIM/a.mov", "a.mov", 9); ("/sdcard/DCIM/b.mp4", "b.mp4", 7);
         ("/sdcard/DCIM/clip.MP4", "clip.MP4", 100)]
  /\ map fileName (listing_of (Sim.android_at Sim.listed))
     = ["b.mp4"; "a.mov"; "clip.MP4"]
  /\ result (find_media_files (Sim.iphone_at Sim.listed))
     = Ret [("/m/DCIM/a.mov", "a.mov", 9); ("/m/DCIM/b.mp4", "b.mp4", 7);
            ("/m/DCIM/clip.MP4", "clip.MP4", 100)]
  /\ map fileName (listing_of (Sim.iphone_at Sim.listed))
     = ["b.mp4"; "a.mov"; "clip.MP4"].
Proof.
  assert (A : clean_scan (os:=Sim.os) (Sim.android_at Sim.listed)).
  { eexists. eexists. split; [reflexivity|]. split; [reflexivity|].
    intros line Hin. vm_compute in Hin.
    destruct Hin as [<-|[<-|[<-|[<-|[]]]]]; intros _ _;
      eexists; (split; [vm_compute; reflexivity | cbn; lia]). }
  assert (I : clean_scan (os:=Sim.os) (Sim.iphone_at Sim.listed)).
  { exists "/m". split; [reflexivity|]. split; discriminate. }
  split; [exact (proj1 (catalog_sorted_by_name (Sim.android_at Sim.listed) A))|].
  split; [reflexivity|].
  split; [exact (proj1 (catalog_sorted_by_name (Sim.iphone_at Sim.listed) I))|].
  reflexivity.
Defined.

(** C4. Extension filtering.  Every candidate of the catalog that
    [find_media_files] returns, on either transport, has a file name whose
    extension, lower-cased, is in the allow-list; that is, it equals one
    of [.mov .mp4 .avi .jpg .jpeg .png .heic] up to case.  When the scan
    has what it needs the catalog holds exactly the listed files with such
    an extension and a readable size: on the mounted device the files of
    the walk whose size can be read, over adb the lines of the listing
    for which [stat] exits with 0 and prints a number.  [clip.MP4] passes
    the test and [notes.txt] does not. *)
Theorem extension_filtering
    {W : Type} {os : OS W} (s : State W) (catalog : list Candidate) :
  result (find_media_files s) = Ret catalog ->
  (forall c, In c catalog ->
             In (extension (fileName c)) SUPPORTED_EXTENSIONS
             /\ matches_ignoring_case (fileName c))
  /\ (forall file, str_in (extension file) SUPPORTED_EXTENSIONS = true
                   <-> matches_ignoring_case file)
  /\ (forall mp, kind (self s) = iPhone ->
        mount_point (self s) = Some mp ->
        mp <> EmptyString ->
        stat_size (OsPath.join mp "DCIM") (world s) <> None ->
        forall c, In c catalog <->
                  exists root dirs files file size,
                    In (root, dirs, files)
                       (os_walk (OsPath.join mp "DCIM") (world s))
                    /\ In file files
                    /\ matches_ignoring_case file
                    /\ stat_size (OsPath.join root file) (world s) = Some size
                    /\ c = (OsPath.join root file, file, size))
  /\ (forall r w1, kind (self s) = Android ->
        subprocess_run (AndroidBackup.find_cmd "/sdcard/DCIM") (world s)
        = (Ret r, w1) ->
        returncode r = 0 ->
        stat_is_a_query w1 (adb_lines r) ->
        forall c, In c catalog <->
                  exists line reply size,
                    In line (adb_lines r)
                    /\ PyStr.strip line <> EmptyString
                    /\ matches_ignoring_case (OsPath.basename (PyStr.strip line))
                    /\ fst (subprocess_run
                              (AndroidBackup.stat_cmd (PyStr.strip line)) w1)
                       = Ret reply
                    /\ returncode reply = 0
                    /\ PyStr.int (PyStr.strip (stdout reply)) = Some size
                    /\ c = (PyStr.strip line,
                            OsPath.basename (PyStr.strip line), size))
  /\ str_in (extension "clip.MP4") SUPPORTED_EXTENSIONS = true
  /\ str_in (extension "notes.txt") SUPPORTED_EXTENSIONS = false.
Proof.
  intros H. split; [|split; [|split; [|split; [|split; reflexivity]]]].
  - destruct (find_media_files_returns s catalog H) as [raw [-> Hraw]].
    intros c Hc.
    assert (Hs : supported (fileName c)).
    { unfold all_supported in Hraw. rewrite Forall_forall in Hraw.
      apply Hraw. eapply Permutation_in; [|exact Hc].
      apply Permutation_sym, sorted_Permutation. }
    split; [exact Hs | now apply supported_matches].
  - intros file. rewrite str_in_In. apply supported_matches.
  - intros mp Hk Hmp Hne Hd c.
    rewrite find_media_files_kind, Hk in H.
    rewrite (iPhone_find_media_files_run mp s Hmp Hne Hd) in H.
    injection H as <-.
    split.
    + intros Hc.
      apply (Permutation_in _ (Permutation_sym (sorted_Permutation _ _))) in Hc.
      apply iPhone_listing_In in Hc.
      destruct Hc as [root [dirs [files [file [size [Hw [Hf [Hm [Es ->]]]]]]]]].
      exists root, dirs, files, file, size. repeat split; try assumption.
      now apply supported_matches, str_in_In.
    + intros [root [dirs [files [file [size [Hw [Hf [Hm [Es ->]]]]]]]]].
      apply (Permutation_in _ (sorted_Permutation _ _)).
      apply iPhone_listing_In.
      exists root, dirs, files, file, size. repeat split; try assumption.
      now apply str_in_In, supported_matches.
  - intros r w1 Hk Hr Hc Q c.
    rewrite find_media_files_kind, Hk in H.
    rewrite (Android_find_media_files_clean s r w1 Hr Hc Q) in H.
    injection H as <-.
    split.
    + intros Hin.
      apply (Permutation_in _ (Permutation_sym (sorted_Permutation _ _))) in Hin.
      apply Android_listing_In in Hin.
      destruct Hin as [line [reply [size [Hl [E [S [R [Z0 [I ->]]]]]]]]].
      exists line, reply, size. repeat split; try assumption.
      now apply supported_matches, str_in_In.
    + intros [line [reply [size [Hl [E [S [R [Z0 [I ->]]]]]]]]].
      apply (Permutation_in _ (sorted_Permutation _ _)).
      apply Android_listing_In.
      exists line, reply, size. repeat split; try assumption.
      now apply str_in_In, supported_matches.
Qed.

Lemma extension_filtering_witness :
  In ("/sdcard/DCIM/clip.MP4", "clip.MP4", 100) Sim.listed_catalog_android
  /\ (forall size, ~ In ("/sdcard/DCIM/notes.txt", "notes.txt", size)
                        Sim.listed_catalog_android)
  /\ In (extension "clip.MP4") SUPPORTED_EXTENSIONS.
Proof.
  destruct (extension_filtering (os:=Sim.os) (Sim.android_at Sim.listed)
              Sim.listed_catalog_android eq_refl) as [Hall [_ [_ [Hadb _]]]].
  assert (Q : stat_is_a_query (os:=Sim.os) Sim.listed
                ["/sdcard/DCIM/b.mp4"; "/sdcard/DCIM/a.mov";
                 "/sdcard/DCIM/clip.MP4"; "/sdcard/DCIM/notes.txt"]).
  { intros line Hin.
    destruct Hin as [<-|[<-|[<-|[<-|[]]]]]; intros _ _;
      eexists; (split; [vm_compute; reflexivity | cbn; lia]). }
  specialize (Hadb _ Sim.listed eq_refl eq_refl eq_refl Q).
  split; [|split].
  - apply Hadb.
    exists "/sdcard/DCIM/clip.MP4", (mkCompleted 0 ("100" ++ String "010" EmptyString)), 100.
    split; [right; right; now left|].
    split; [discriminate|].
    split; [apply supported_matches, str_in_In; reflexivity|].
    repeat split; reflexivity.
  - intros size Hin. apply Hall in Hin. destruct Hin as [Hin _].
    apply str_in_In in Hin. discriminate Hin.
  - apply (Hall ("/sdcard/DCIM/clip.MP4", "clip.MP4", 100)). simpl. auto.
Defined.

(** ** Items whose size cannot be read *)

Section UnreadableSize.
Context {W : Type} {os : OS W}.
Implicit Types s : State W.

(** One line of the adb listing with a supported extension, by the way
    the [stat] call for it ends. *)
Lemma Android_scan_path_run line media s :
  let file_path := PyStr.strip line in
  let file_name := OsPath.basename file_path in
  file_path <> EmptyString ->
  str_in (extension file_name) SUPPORTED_EXTENSIONS = true ->
  AndroidBackup.scan_path line media s =
  match subprocess_run (AndroidBackup.stat_cmd file_path) (world s) with
  | (Ret r, w') =>
      (Ret (if returncode r =? 0 then
              match PyStr.int (PyStr.strip (stdout r)) with
              | Some size => (media ++ [(file_path, file_name, size)])%list
              | None => media
              end
            else media),
       mkState w' (self s), [CallRun (AndroidBackup.stat_cmd file_path)])
  | (Raise e, w') =>
      (Raise e, mkState w' (self s), [CallRun (AndroidBackup.stat_cmd file_path)])
  end.
Proof.
  intros file_path file_name Hne Hs. unfold AndroidBackup.scan_path.
  fold file_path. fold file_name.
  apply String.eqb_neq in Hne. rewrite Hne, Hs.
  unfold bind at 1, run, bind at 1, emit, call_res. simpl.
  destruct (subprocess_run _ (world s)) as [[r|e] w']; simpl; [|reflexivity].
  destruct (returncode r =? 0); [|reflexivity].
  unfold try_except, bind, int.
  destruct (PyStr.int _); reflexivity.
Qed.

(** A file of the mounted device whose size cannot be read is reported
    and left out; the scan returns and goes on. *)
Lemma iPhone_unreadable_skipped root file media s :
  str_in (extension file) SUPPORTED_EXTENSIONS = true ->
  stat_size (OsPath.join root file) (world s) = None ->
  iPhoneBackup.scan_file root file media s
  = (Ret media, s, [Print (MsgCouldNotAccess file)]).
Proof.
  intros Hs E. rewrite iPhone_scan_file_run.
  unfold iPhone_file_entry, iPhone_file_report. rewrite Hs, E.
  now rewrite app_nil_r.
Qed.

(** A line of the adb listing whose [stat] exits with an error, or
    answers with text [int] rejects, is left out; the scan returns and
    goes on. *)
Lemma Android_unreadable_skipped line media s r w' :
  PyStr.strip line <> EmptyString ->
  str_in (extension (OsPath.basename (PyStr.strip line))) SUPPORTED_EXTENSIONS
  = true ->
  subprocess_run (AndroidBackup.stat_cmd (PyStr.strip line)) (world s)
  = (Ret r, w') ->
  returncode r <> 0 \/ PyStr.int (PyStr.strip (stdout r)) = None ->
  AndroidBackup.scan_path line media s
  = (Ret media, mkState w' (self s),
     [CallRun (AndroidBackup.stat_cmd (PyStr.strip line))]).
Proof.
  intros Hne Hs E H. rewrite (Android_scan_path_run line media s Hne Hs), E.
  destruct H as [H|H].
  - apply Z.eqb_neq in H. now rewrite H.
  - rewrite H. now destruct (returncode r =? 0).
Qed.

(** When the [stat] call itself raises, the step raises: nothing in the
    loop handles it. *)
Lemma Android_stat_raises line media s e w' :
  PyStr.strip line <> EmptyString ->
  str_in (extension (OsPath.basename (PyStr.strip line))) SUPPORTED_EXTENSIONS
  = true ->
  subprocess_run (AndroidBackup.stat_cmd (PyStr.strip line)) (world s)
  = (Raise e, w') ->
  AndroidBackup.scan_path line media s
  = (Raise e, mkState w' (self s),
     [CallRun (AndroidBackup.stat_cmd (PyStr.strip line))]).
Proof.
  intros Hne Hs E. now rewrite (Android_scan_path_run line media s Hne Hs), E.
Qed.

Lemma for_fold_app {A S} (l1 l2 : list A) (acc : S) (body : A -> S -> M W S) s :
  for_fold (l1 ++ l2) acc body s
  = bind (for_fold l1 acc body) (fun acc' => for_fold l2 acc' body) s.
Proof.
  revert acc s. induction l1 as [|x l1 IH]; intros acc s; simpl.
  - now rewrite ret_bind.
  - rewrite bind_assoc. apply bind_ext. intros a s'. apply IH.
Qed.

(** The scan over adb when the [stat] call of one line raises an
    exception below [Exception]: whatever the lines before it gave, the
    method returns the empty list. *)
Lemma Android_find_aborts s r w1 before line after media s1 t1 e w2 :
  subprocess_run (AndroidBackup.find_cmd "/sdcard/DCIM") (world s) = (Ret r, w1) ->
  returncode r = 0 ->
  PyStr.split "010" (PyStr.strip (stdout r)) = (before ++ line :: after)%list ->
  for_fold before [] AndroidBackup.scan_path (mkState w1 (self s))
  = (Ret media, s1, t1) ->
  PyStr.strip line <> EmptyString ->
  str_in (extension (OsPath.basename (PyStr.strip line))) SUPPORTED_EXTENSIONS
  = true ->
  subprocess_run (AndroidBackup.stat_cmd (PyStr.strip line)) (world s1)
  = (Raise e, w2) ->
  except_Exception e = true ->
  AndroidBackup.find_media_files s
  = (Ret [], mkState w2 (self s1),
     (CallRun (AndroidBackup.find_cmd "/sdcard/DCIM") :: t1
      ++ [CallRun (AndroidBackup.stat_cmd (PyStr.strip line));
          Print MsgErrorFinding])%list).
Proof.
  intros Hfind Hrc Hsplit Hbefore Hne Hs Hstat He.
  unfold AndroidBackup.find_media_files, try_except.
  unfold bind at 1, run, bind at 1, emit, call_res. simpl.
  rewrite Hfind. simpl. rewrite Hrc. simpl. rewrite Hsplit.
  unfold bind at 1. rewrite for_fold_app.
  unfold bind at 1. rewrite Hbefore. simpl for_fold.
  unfold bind at 1.
  rewrite (Android_stat_raises line media s1 e w2 Hne Hs Hstat).
  simpl. rewrite He. simpl. now rewrite <- app_assoc.
Qed.
End UnreadableSize.

(** C9, on the inputs that decide it.  On a mounted device, and over adb
    when [stat] exits with an error or answers with text that is no
    number, the item is left out and the other photo stays in the
    catalog.  Over adb, when the [stat] call for the second photo times
    out, the exception leaves the loop, the handler of the whole method
    returns the empty list, and the first photo is lost with it. *)
Theorem stat_timeout_empties_catalog :
  result (find_media_files (Sim.iphone_at Sim.one_unreadable))
  = Ret [("/m/DCIM/a.jpg", "a.jpg", 10)]
  /\ result (find_media_files (Sim.android_at (Sim.two_photos Sim.stat_denied)))
     = Ret [("/sdcard/DCIM/a.jpg", "a.jpg", 10)]
  /\ result (find_media_files (Sim.android_at (Sim.two_photos Sim.stat_garbled)))
     = Ret [("/sdcard/DCIM/a.jpg", "a.jpg", 10)]
  /\ find_media_files (Sim.android_at (Sim.two_photos Sim.stat_timed_out))
     = (Ret [], Sim.android_at (Sim.two_photos Sim.stat_timed_out),
        [CallRun (AndroidBackup.find_cmd "/sdcard/DCIM");
         CallRun (AndroidBackup.stat_cmd "/sdcard/DCIM/a.jpg");
         CallRun (AndroidBackup.stat_cmd "/sdcard/DCIM/b.jpg");
         Print MsgErrorFinding]).
Proof. repeat split; vm_compute; reflexivity. Qed.

(** ** Runs on the simulated device *)

(** A candidate can be skipped and then fail verification: the first of
    two files with one name is skipped, the second is fetched over the
    same destination path, and verification, run in the state the pass
    left, rejects the first. *)
Lemma skipped_candidate_fails_verification :
  result (find_media_files (Sim.iphone_at Sim.collision))
  = Ret [Sim.first_img; Sim.second_img]
  /\ In (skip_line 2 (1%nat, Sim.first_img))
        (trace (copy_files [Sim.first_img; Sim.second_img]
                  (Sim.iphone_at Sim.collision)))
  /\ result (copy_files [Sim.first_img; Sim.second_img]
               (Sim.iphone_at Sim.collision)) = Ret tt
  /\ result (DeviceBackup.verify_files [Sim.first_img; Sim.second_img]
               (final (copy_files [Sim.first_img; Sim.second_img]
                         (Sim.iphone_at Sim.collision))))
     = Ret ([sourceRef Sim.second_img], [fileName Sim.first_img])
  /\ ~ In (sourceRef Sim.first_img) [sourceRef Sim.second_img].
Proof.
  split; [vm_compute; reflexivity|].
  split; [vm_compute; left; reflexivity|].
  split; [vm_compute; reflexivity|].
  split; [vm_compute; reflexivity|].
  intros [H|[]]. discriminate H.
Qed.

(** A fetch failure on item 2 of 3: item 3 is fetched all the same, and
    items 1 and 3 verify. *)
Example failure_on_second_of_three :
  filter is_fetch
    (trace (copy_files [Sim.photo; Sim.clip; Sim.shot]
              (Sim.iphone_at Sim.second_fails)))
  = [CallCopy2 "/m/DCIM/100APPLE/a.jpg" "/backup/d/a.jpg";
     CallCopy2 "/m/DCIM/100APPLE/b.mov" "/backup/d/b.mov";
     CallCopy2 "/m/DCIM/100APPLE/c.png" "/backup/d/c.png"]
  /\ In (Print (MsgErrorCopying "b.mov"))
        (trace (copy_files [Sim.photo; Sim.clip; Sim.shot]
                  (Sim.iphone_at Sim.second_fails)))
  /\ result (copy_files [Sim.photo; Sim.clip; Sim.shot]
               (Sim.iphone_at Sim.second_fails)) = Ret tt
  /\ self (final (transfer_stage [Sim.photo; Sim.clip; Sim.shot]
                    (Sim.iphone_at Sim.second_fails)))
     = mkBackup iPhone "/backup/d" (Some "/m")
         ["/m/DCIM/100APPLE/a.jpg"; "/m/DCIM/100APPLE/c.png"] ["b.mov"].
Proof.
  split; [vm_compute; reflexivity|].
  split; [vm_compute; tauto|].
  split; vm_compute; reflexivity.
Qed.

(** An interrupt during the second fetch: the pass stops, the third item
    is never fetched, and verification still lists it, as failed. *)
Example interrupt_on_second_of_three :
  result (copy_files [Sim.photo; Sim.clip; Sim.shot]
            (Sim.iphone_at Sim.second_interrupted)) = Raise KeyboardInterrupt
  /\ filter is_fetch
       (trace (copy_files [Sim.photo; Sim.clip; Sim.shot]
                 (Sim.iphone_at Sim.second_interrupted)))
     = [CallCopy2 "/m/DCIM/100APPLE/a.jpg" "/backup/d/a.jpg";
        CallCopy2 "/m/DCIM/100APPLE/b.mov" "/backup/d/b.mov"]
  /\ self (final (transfer_stage [Sim.photo; Sim.clip; Sim.shot]
                    (Sim.iphone_at Sim.second_interrupted)))
     = mkBackup iPhone "/backup/d" (Some "/m")
         ["/m/DCIM/100APPLE/a.jpg"] ["b.mov"; "c.png"]
  /\ result (transfer_stage [Sim.photo; Sim.clip; Sim.shot]
               (Sim.iphone_at Sim.second_interrupted)) = Raise KeyboardInterrupt.
Proof. repeat split; vm_compute; reflexivity. Qed.

(** A whole run of [main] on the mounted device: three copies, three
    verified, three removals, each for a verified locator. *)
Example full_run_deletes_verified :
  filter (fun e => match e with CallRemove _ => true | _ => false end)
    (trace (main_run (Sim.iphone_at Sim.mounted)))
  = map CallRemove
      (verified_files (self (final (main_run (Sim.iphone_at Sim.mounted)))))
  /\ verified_files (self (final (main_run (Sim.iphone_at Sim.mounted))))
     = map sourceRef [Sim.photo; Sim.clip; Sim.shot]
  /\ result (main_run (Sim.iphone_at Sim.mounted)) = Ret tt.
Proof. repeat split; vm_compute; reflexivity. Qed.

(** The catalogs of the listing of [b.mp4], [a.mov], [clip.MP4] and
    [notes.txt], on both transports. *)
Example listed_catalogs :
  result (find_media_files (Sim.iphone_at Sim.listed))
  = Ret Sim.listed_catalog_iphone
  /\ result (find_media_files (Sim.android_at Sim.listed))
     = Ret Sim.listed_catalog_android.
Proof. split; vm_compute; reflexivity. Qed.

(** * Further properties of the script *)

(** ** [delete_files] *)

Section DeleteFiles.
Context {W : Type} {os : OS W}.
Implicit Types s : State W.

Lemma delete_one_of_run k p s : delete_one_of k p s = delete_step k p s.
Proof.
  destruct k; simpl; unfold delete_step.
  - unfold iPhoneBackup.delete_one, try_except, bind at 1 2, emit, call_res.
    simpl. destruct (os_remove p (world s)) as [[[]|e] w1]; simpl;
      [reflexivity | destruct e; reflexivity].
  - unfold AndroidBackup.delete_one, try_except, bind at 1, run, bind at 1,
      emit, call_res. simpl.
    destruct (subprocess_run _ (world s)) as [[r|e] w1]; simpl.
    + destruct (returncode r =? 0); reflexivity.
    + destruct e; reflexivity.
Qed.

Lemma rm_cmd_is_delete p :
  is_delete_call (CallRun (AndroidBackup.rm_cmd p)) = true.
Proof. reflexivity. Qed.

(** What one step leaves: the state keeps the object; the trace holds
    the removal call and, unless interrupted, one report line. *)
Lemma delete_step_facts k p s :
  self (final (delete_step k p s)) = self s
  /\ filter is_delete_call (trace (delete_step k p s)) = [delete_call k p]
  /\ (forall e, result (delete_step k p s) = Raise e -> e = KeyboardInterrupt)
  /\ (result (delete_step k p s) = Ret tt ->
      flat_map delete_report (trace (delete_step k p s)) = [OsPath.basename p]).
Proof.
  unfold delete_step. destruct k.
  - destruct (os_remove p (world s)) as [[[]|e] w1]; [|destruct e];
      unfold result, final, trace; simpl; repeat split;
      try reflexivity; try discriminate; congruence.
  - destruct (subprocess_run _ (world s)) as [[r|e] w1];
      [destruct (returncode r =? 0)|destruct e];
      unfold result, final, trace; simpl; repeat split;
      try reflexivity; try discriminate; congruence.
Qed.

Lemma delete_loop_facts k paths s :
  let out := for_each paths (delete_one_of k) s in
  self (final out) = self s
  /\ (forall e, result out = Raise e -> e = KeyboardInterrupt)
  /\ exists n, (n <= List.length paths)%nat
       /\ filter is_delete_call (trace out) = map (delete_call k) (firstn n paths)
       /\ (result out = Ret tt ->
           n = List.length paths
           /\ flat_map delete_report (trace out) = map OsPath.basename paths).
Proof.
  revert s. induction paths as [|p paths IH]; intros s; cbv zeta.
  - simpl. repeat split; [discriminate|]. exists 0%nat. simpl. auto.
  - simpl for_each. rewrite final_bind, result_bind, trace_bind.
    rewrite delete_one_of_run.
    destruct (delete_step_facts k p s) as [Hs [Hc [He Hr]]].
    destruct (result (delete_step k p s)) as [[]|e] eqn:E.
    + destruct (IH (final (delete_step k p s))) as [Hs' [He' [n [Hn [Hc' Hr']]]]].
      split; [congruence|]. split; [exact He'|].
      exists (S n). split; [simpl; lia|]. split.
      * rewrite filter_app, Hc, Hc'. reflexivity.
      * intros R. destruct (Hr' R) as [-> Hl]. split; [reflexivity|].
        rewrite flat_map_app, Hr, Hl by reflexivity. reflexivity.
    + split; [exact Hs|]. split; [intros e' [= <-]; now apply He|].
      exists 1%nat. split; [simpl; lia|]. split.
      * rewrite app_nil_r, Hc. reflexivity.
      * discriminate.
Qed.
End DeleteFiles.

(** X1. [delete_files] goes through the locators in order and makes one
    removal call for each; a removal that fails is reported and the next
    one is made.  Only [KeyboardInterrupt] stops the loop: the calls made
    are then those of a prefix of the list.  When the method returns,
    every locator had its call and its report line, and the backup
    object is as it was. *)
Theorem delete_files_each_once
    {W : Type} {os : OS W} (paths : list string) (s : State W) :
  let k := kind (self s) in
  let out := delete_files paths s in
  self (final out) = self s
  /\ (forall e, result out = Raise e -> e = KeyboardInterrupt)
  /\ exists n, (n <= List.length paths)%nat
       /\ filter is_delete_call (trace out) = map (delete_call k) (firstn n paths)
       /\ (result out = Ret tt ->
           n = List.length paths
           /\ flat_map delete_report (trace out) = map OsPath.basename paths).
Proof.
  intros k out.
  assert (E : out = bind (print MsgDeleting)
                      (fun _ => for_each paths (delete_one_of k)) s).
  { unfold out, delete_files. rewrite (bind_pure _ _ s (self s)) by reflexivity.
    fold k. destruct k; reflexivity. }
  rewrite E. rewrite final_bind, result_bind, trace_bind.
  unfold print, emit, result at 1 3 5, final at 2 3 5 6, trace at 1 3. simpl.
  apply (delete_loop_facts k paths s).
Qed.

(** ** The question before deletion *)

Section Consent.
Context {W : Type} {os : OS W}.
Implicit Types s : State W.

(** Only the letter y, in either case, becomes ["Y"] in upper case. *)
Lemma upper_is_Y (t : string) : PyStr.upper t = "Y" <-> t = "Y" \/ t = "y".
Proof.
  split.
  - destruct t as [|c [|d t]]; simpl; try discriminate.
    intros [= H]. revert H.
    destruct c as [[] [] [] [] [] [] [] []]; vm_compute; intros H;
      try discriminate H; auto.
  - intros [->| ->]; reflexivity.
Qed.

(** The [finally] clause of the transfer, case by case. *)
Lemma verify_and_delete_run files s :
  let V := verified_of (world s) (destination (self s)) files in
  let answer := PyStr.upper (PyStr.strip (fst (input (world s)))) in
  let verified := mkState (world s) (verified_self s files) in
  let asked := mkState (snd (input (world s))) (verified_self s files) in
  let report := trace (DeviceBackup.verify_files files s) in
  verify_and_delete files s =
  match V with
  | [] => (Ret tt, verified, report)
  | _ :: _ =>
      if String.eqb answer "Y"
      then (result (delete_files V asked), final (delete_files V asked),
            (report ++ trace (delete_files V asked))%list)
      else (Ret tt, asked, (report ++ [Print MsgSkippedDeletion])%list)
  end.
Proof.
  intros V answer verified asked report.
  pose proof (verify_files_run files s) as R. cbv zeta in R.
  subst verified asked report. unfold verified_self. rewrite R.
  unfold verify_and_delete. erewrite bind_Ret by exact R. cbv beta iota.
  fold V. clearbody V. unfold trace at 1 2 3. simpl snd.
  destruct V as [|v V'].
  - unfold result, final, trace, ret. simpl. now rewrite app_nil_r.
  - erewrite bind_Ret by apply ask_run. simpl world. simpl self.
    subst answer.
    destruct (String.eqb (PyStr.upper _) "Y"); unfold result, final, trace;
      simpl; reflexivity.
Qed.
End Consent.

(** X2. Deletion needs the user's consent.  After verification, the
    script asks about deletion only when some candidate verified, and it
    calls [delete_files], with exactly the verified list, only when the
    line typed, stripped of blanks, is the letter y in either case.  With
    nothing verified no line is read and nothing is deleted; with any
    other answer the run prints that deletion was skipped and issues no
    delete call. *)
Theorem deletion_needs_consent
    {W : Type} {os : OS W} (files : list Candidate) (s : State W) :
  let V := verified_of (world s) (destination (self s)) files in
  let typed := PyStr.strip (fst (input (world s))) in
  let asked := mkState (snd (input (world s))) (verified_self s files) in
  let report := trace (DeviceBackup.verify_files files s) in
  let out := verify_and_delete files s in
  (forall p, deleted (trace out) p -> V <> [] /\ (typed = "Y" \/ typed = "y"))
  /\ (V = [] -> result out = Ret tt /\ world (final out) = world s
                /\ trace out = report)
  /\ (V <> [] -> typed <> "Y" -> typed <> "y" ->
      out = (Ret tt, asked, (report ++ [Print MsgSkippedDeletion])%list))
  /\ (V <> [] -> typed = "Y" \/ typed = "y" ->
      out = (result (delete_files V asked), final (delete_files V asked),
             (report ++ trace (delete_files V asked))%list)).
Proof.
  intros V typed asked report out.
  pose proof (verify_and_delete_run files s) as R. cbv zeta in R.
  fold V typed asked report out in R.
  assert (Hrep : forall p, ~ deleted report p).
  { intros p Hp.
    apply (deleted_within _ [] p (verify_files_emits [] files s) Hp). }
  assert (Hnot : forall t p, deleted (report ++ t) p -> deleted t p).
  { intros t p [e [He Hp]]. apply in_app_or in He. destruct He as [He|He].
    - exfalso. apply (Hrep p). now exists e.
    - now exists e. }
  split; [|split; [|split]].
  - intros p Hp. rewrite R in Hp. destruct V as [|v V'].
    + exfalso. exact (Hrep p Hp).
    + split; [discriminate|]. apply upper_is_Y.
      destruct (String.eqb_spec (PyStr.upper typed) "Y") as [E|E]; [exact E|].
      exfalso. unfold trace in Hp. simpl in Hp. apply Hnot in Hp.
      destruct Hp as [e [[<-|[]] [H|H]]]; discriminate H.
  - intros E. rewrite R, E. auto.
  - intros HV H1 H2. rewrite R. destruct V as [|v V']; [now elim HV|].
    destruct (String.eqb_spec (PyStr.upper typed) "Y") as [E|E]; [|reflexivity].
    apply upper_is_Y in E. tauto.
  - intros HV H. rewrite R. destruct V as [|v V']; [now elim HV|].
    apply upper_is_Y in H. rewrite H. reflexivity.
Qed.

(** ** What the transfer pass reports and what it fetches *)

Section TransferReports.
Context {W : Type} {os : OS W}.
Implicit Types s : State W.

(** One step: a report line for the candidate unless it is interrupted,
    and no fetch call but the one for the candidate. *)
Lemma copy_step_reports k total idx c s :
  (result (copy_step k total (idx, c) s) = Ret tt
   /\ flat_map copy_report (trace (copy_step k total (idx, c) s)) = [fileName c]
   \/ result (copy_step k total (idx, c) s) = Raise KeyboardInterrupt
      /\ flat_map copy_report (trace (copy_step k total (idx, c) s)) = [])
  /\ Forall (fun e => is_fetch e = true -> e = fetch_call k s c)
       (trace (copy_step k total (idx, c) s)).
Proof.
  unfold copy_step. simpl.
  destruct (dest_hasb _ _ _).
  { split; [left; split; reflexivity|]. repeat constructor. discriminate. }
  destruct k; simpl; unfold iPhone_copy_outcome, Android_copy_outcome;
    destruct (time_time (world s)) as [t0 w0].
  - destruct (shutil_copy2 _ _ w0) as [[[]|e] w1];
      [destruct (time_time w1)|destruct e]; unfold result, trace; simpl;
      (split; [auto|]); repeat constructor; try discriminate; auto.
  - destruct (subprocess_run _ w0) as [[r|e] w1];
      [destruct (returncode r =? 0); [destruct (time_time w1)|]|destruct e];
      unfold result, trace; simpl;
      (split; [auto|]); repeat constructor; try discriminate; auto.
Qed.

Lemma fetch_call_self k s s' c :
  self s' = self s -> fetch_call k s' c = fetch_call k s c.
Proof. intros E. unfold fetch_call, dest_path. now rewrite E. Qed.

Lemma copy_loop_reports k total items s :
  total <> 0%nat ->
  let out := for_each items (copy_one_of k total) s in
  (exists n, (n <= List.length items)%nat
     /\ flat_map copy_report (trace out)
        = map (fun it => fileName (snd it)) (firstn n items)
     /\ (result out = Ret tt -> n = List.length items)
     /\ (result out <> Ret tt ->
         (n < List.length items)%nat /\ result out = Raise KeyboardInterrupt))
  /\ Forall (fun e => is_fetch e = true ->
                      exists it, In it items /\ e = fetch_call k s (snd it))
       (trace out).
Proof.
  intros Ht. revert s. induction items as [|[idx c] items IH]; intros s; cbv zeta.
  - simpl. split; [|constructor]. exists 0%nat. simpl.
    repeat split; auto; now elim H.
  - simpl for_each. rewrite result_bind, trace_bind.
    rewrite copy_one_of_run by exact Ht.
    destruct (copy_step_reports k total idx c s) as [Hr Hf].
    pose proof (copy_step_self k total (idx, c) s) as Hs.
    assert (Hf' : Forall (fun e => is_fetch e = true ->
                     exists it, In it ((idx, c) :: items)
                                /\ e = fetch_call k s (snd it))
                    (trace (copy_step k total (idx, c) s))).
    { eapply Forall_impl; [|exact Hf]. intros e He H.
      exists (idx, c). split; [now left | now apply He]. }
    destruct Hr as [[R L]|[R L]]; rewrite R.
    + destruct (IH (final (copy_step k total (idx, c) s)))
        as [[n [Hn [Hl [H1 H2]]]] Hfi].
      split.
      * exists (S n). split; [simpl; lia|]. split.
        { rewrite flat_map_app, L, Hl. reflexivity. }
        split.
        { intros E. simpl. f_equal. now apply H1. }
        { intros E. destruct (H2 E) as [Hlt Hk]. split; [simpl; lia | exact Hk]. }
      * apply Forall_app. split; [exact Hf'|].
        eapply Forall_impl; [|exact Hfi]. intros e He H.
        destruct (He H) as [it [Hin ->]]. exists it. split; [now right|].
        now apply fetch_call_self.
    + split.
      * exists 0%nat. split; [simpl; lia|]. split.
        { rewrite app_nil_r, L. reflexivity. }
        split; [discriminate|]. intros _. split; [simpl; lia | reflexivity].
      * rewrite app_nil_r. exact Hf'.
Qed.

Lemma enumerate1_names (files : list Candidate) n :
  map (fun it : nat * Candidate => fileName (snd it)) (firstn n (enumerate1 files))
  = map fileName (firstn n files).
Proof.
  unfold enumerate1. generalize 1%nat as k. revert n.
  induction files as [|c files IH]; intros n k; [now destruct n|].
  destruct n; simpl; [reflexivity|]. f_equal. apply IH.
Qed.
End TransferReports.

(** X3. The transfer pass reports on the candidates in catalog order,
    one line each ("Skipped", "Copied" or "Error copying", with the file
    name): when [copy_files] returns, the names in its report lines are
    the names of the catalog, in order; when it is cut short, which only
    [KeyboardInterrupt] does, they are the names of a proper prefix. *)
Theorem transfer_reports_in_order
    {W : Type} {os : OS W} (files : list Candidate) (s : State W) :
  let out := copy_files files s in
  exists n, (n <= List.length files)%nat
    /\ flat_map copy_report (trace out) = map fileName (firstn n files)
    /\ (result out = Ret tt -> n = List.length files)
    /\ (result out <> Ret tt ->
        (n < List.length files)%nat /\ result out = Raise KeyboardInterrupt).
Proof.
  intros out. unfold out. rewrite copy_files_dispatch.
  destruct files as [|c0 files'].
  - exists 0%nat. simpl. repeat split; auto; now elim H.
  - destruct (copy_loop_reports (kind (self s)) (List.length (c0 :: files'))
                (enumerate1 (c0 :: files')) s) as [[n [Hn [Hl [H1 H2]]]] _];
      [discriminate|].
    rewrite enumerate1_length in *. rewrite enumerate1_names in Hl.
    exists n. auto.
Qed.

(** X4. The transfer pass fetches nothing but candidates of the catalog:
    every fetch call it makes ([shutil.copy2] or [adb pull]) reads the
    source locator of a candidate of the catalog and writes to
    [join(destination, fileName)] of that same candidate. *)
Theorem transfer_fetches_catalog_only
    {W : Type} {os : OS W} (files : list Candidate) (s : State W) :
  Forall (fun e => is_fetch e = true ->
            exists c, In c files
              /\ e = match kind (self s) with
                     | iPhone =>
                         CallCopy2 (sourceRef c)
                           (OsPath.join (destination (self s)) (fileName c))
                     | Android =>
                         CallRun ["adb"; "pull"; sourceRef c;
                                  OsPath.join (destination (self s)) (fileName c)]
                     end)
    (trace (copy_files files s)).
Proof.
  rewrite copy_files_dispatch. destruct files as [|c0 files']; [constructor|].
  destruct (copy_loop_reports (kind (self s)) (List.length (c0 :: files'))
              (enumerate1 (c0 :: files')) s) as [_ Hf]; [discriminate|].
  eapply Forall_impl; [|exact Hf]. intros e He H.
  destruct (He H) as [[idx c] [Hin ->]]. exists c.
  split; [eapply enumerate1_In, Hin|]. simpl.
  unfold fetch_call, dest_path. destruct (kind (self s)); reflexivity.
Qed.

(** ** Which stage makes which calls *)

Section StageCalls.
Context {W : Type} {os : OS W}.
Implicit Types s : State W.

Lemma print_quiet m : quiet (Print m).
Proof. split; reflexivity. Qed.

Lemma find_quiet d : quiet (CallRun (AndroidBackup.find_cmd d)).
Proof. split; reflexivity. Qed.

Lemma stat_quiet f : quiet (CallRun (AndroidBackup.stat_cmd f)).
Proof. split; reflexivity. Qed.

Lemma find_media_files_quiet : emits_only (W:=W) quiet find_media_files.
Proof.
  unfold find_media_files, iPhoneBackup.find_media_files,
    AndroidBackup.find_media_files, iPhoneBackup.scan_dir,
    iPhoneBackup.scan_file, AndroidBackup.scan_path, path_exists, getsize, int.
  shape;
    first [ apply print_quiet
          | apply run_emits, find_quiet
          | apply run_emits, stat_quiet ].
Qed.

Lemma check_disk_space_quiet required :
  emits_only (W:=W) quiet (DeviceBackup.check_disk_space required).
Proof. unfold DeviceBackup.check_disk_space. shape; apply print_quiet. Qed.

Lemma verify_files_quiet files :
  emits_only (W:=W) quiet (DeviceBackup.verify_files files).
Proof.
  intros s. pose proof (verify_files_run files s) as R. cbv zeta in R.
  rewrite R. unfold trace. simpl. repeat constructor; try apply print_quiet.
  unfold failed_report. destruct (failed_of _ _ _); [constructor|].
  constructor; [apply print_quiet|]. apply Forall_forall.
  intros e He. apply in_map_iff in He. destruct He as [f [<- _]].
  apply print_quiet.
Qed.

Lemma copy_files_no_delete files :
  emits_only (W:=W) (fun e => is_delete_call e = false) (copy_files files).
Proof.
  unfold copy_files, iPhoneBackup.copy_files, AndroidBackup.copy_files,
    iPhoneBackup.copy_one, AndroidBackup.copy_one, size_mb_of, speed_mbps_of,
    progress_of.
  shape;
    first [ reflexivity
          | apply exists_with_size_emits
          | apply run_emits; reflexivity ].
Qed.
End StageCalls.

(** X5. Enumeration, the space check and verification make neither a
    fetch call nor a removal call, and the transfer pass makes no removal
    call: the source is only ever removed by [delete_files], and the
    destination only ever written by [copy_files]. *)
Theorem stages_keep_to_their_calls
    {W : Type} {os : OS W} (files : list Candidate) (required : Z) (s : State W) :
  Forall (fun e => is_delete_call e = false /\ is_fetch e = false)
    (trace (find_media_files s))
  /\ Forall (fun e => is_delete_call e = false /\ is_fetch e = false)
       (trace (DeviceBackup.check_disk_space required s))
  /\ Forall (fun e => is_delete_call e = false /\ is_fetch e = false)
       (trace (DeviceBackup.verify_files files s))
  /\ Forall (fun e => is_delete_call e = false) (trace (copy_files files s)).
Proof.
  split; [apply find_media_files_quiet|].
  split; [apply check_disk_space_quiet|].
  split; [apply verify_files_quiet | apply copy_files_no_delete].
Qed.

(** ** Stability of [sorted] *)

Section Stability.
Context {A : Type} (key : A -> string).

Lemma insert_keeps_group x l k :
  filter (fun a => String.eqb (key a) k) (insert key x l)
  = filter (fun a => String.eqb (key a) k) (x :: l).
Proof.
  induction l as [|y l IH]; [reflexivity|].
  simpl insert. destruct (key x <=? key y)%string eqn:L; [reflexivity|].
  simpl filter at 1. rewrite IH. simpl.
  destruct (String.eqb_spec (key x) k) as [Ex|Ex];
    destruct (String.eqb_spec (key y) k) as [Ey|Ey]; try reflexivity.
  exfalso. rewrite Ex, <- Ey, string_leb_refl in L. discriminate.
Qed.

Lemma sorted_keeps_group l k :
  filter (fun a => String.eqb (key a) k) (sorted key l)
  = filter (fun a => String.eqb (key a) k) l.
Proof.
  induction l as [|x l IH]; [reflexivity|].
  simpl sorted. rewrite insert_keeps_group. simpl. now rewrite IH.
Qed.

Lemma insert_head x l :
  Forall (fun y => (key x <=? key y)%string = true) l -> insert key x l = x :: l.
Proof.
  intros H. destruct l as [|y l]; [reflexivity|]. simpl.
  inversion H as [|? ? Hy _]; subst. now rewrite Hy.
Qed.

Lemma sorted_fixed l : StronglySorted (key_le key) l -> sorted key l = l.
Proof.
  induction 1 as [|x l S IH H]; [reflexivity|].
  simpl. rewrite IH. now apply insert_head.
Qed.
End Stability.

(** X6. [sorted] is stable and idempotent.  Among the candidates with one
    and the same file name, the catalog keeps the order in which they
    were collected (so the collection order decides which of them is
    copied last to their common destination path); a list that is already
    in name order is returned as it is, and so is every catalog. *)
Theorem catalog_sort_is_stable (raw : list Candidate) :
  (forall name,
      filter (fun c => String.eqb (fileName c) name) (sorted fileName raw)
      = filter (fun c => String.eqb (fileName c) name) raw)
  /\ (name_sorted raw -> sorted fileName raw = raw)
  /\ sorted fileName (sorted fileName raw) = sorted fileName raw
  /\ List.length (sorted fileName raw) = List.length raw.
Proof.
  split; [intros name; apply sorted_keeps_group|].
  split; [apply sorted_fixed|].
  split; [apply sorted_fixed, sorted_StronglySorted|].
  apply Permutation_length, Permutation_sym, sorted_Permutation.
Qed.

(** ** [os.path.basename] and [os.path.join] *)

Section Basename.

Lemma after_last_sep_clean acc p :
  (contains OsPath.sep p = false -> contains OsPath.sep acc = false) ->
  contains OsPath.sep (OsPath.after_last_sep acc p) = false.
Proof.
  revert acc. induction p as [|c r IH]; intros acc H; simpl.
  - now apply H.
  - destruct (Ascii.eqb c OsPath.sep) eqn:E.
    + apply IH. auto.
    + apply IH. intros Hr. apply H. simpl. now rewrite E.
Qed.

Lemma basename_clean p : contains OsPath.sep (OsPath.basename p) = false.
Proof. apply after_last_sep_clean. auto. Qed.

Lemma after_last_sep_none acc p :
  contains OsPath.sep p = false -> OsPath.after_last_sep acc p = acc.
Proof.
  revert acc. induction p as [|c r IH]; intros acc H; simpl in *; [reflexivity|].
  apply orb_false_iff in H. destruct H as [E Hr]. rewrite E. now apply IH.
Qed.

Lemma basename_plain p : contains OsPath.sep p = false -> OsPath.basename p = p.
Proof. apply after_last_sep_none. Qed.

Lemma after_last_sep_app a acc b :
  OsPath.ends_with_sep a = true -> contains OsPath.sep b = false ->
  OsPath.after_last_sep acc (a ++ b) = b.
Proof.
  revert acc. induction a as [|c a IH]; intros acc Ha Hb; [discriminate|].
  destruct a as [|d a'].
  - simpl in *. rewrite Ha. now apply after_last_sep_none.
  - change ((String c (String d a') ++ b)%string)
      with (String c (String d a' ++ b)%string).
    simpl OsPath.after_last_sep.
    destruct (Ascii.eqb c OsPath.sep); apply IH; assumption.
Qed.

Lemma ends_with_sep_app a :
  OsPath.ends_with_sep (a ++ String OsPath.sep EmptyString) = true.
Proof.
  induction a as [|c a IH]; [reflexivity|].
  simpl. destruct (a ++ String OsPath.sep EmptyString)%string eqn:E.
  - destruct a; discriminate.
  - exact IH.
Qed.

Lemma starts_with_sep_contains b :
  contains OsPath.sep b = false -> OsPath.starts_with_sep b = false.
Proof.
  destruct b as [|c b]; [reflexivity|]. simpl.
  intros H. now apply orb_false_iff in H.
Qed.

Lemma append_assoc_sep a b :
  (a ++ String OsPath.sep b)%string
  = ((a ++ String OsPath.sep EmptyString) ++ b)%string.
Proof. induction a as [|c a IH]; simpl; [reflexivity | now rewrite IH]. Qed.

Lemma basename_join a b :
  contains OsPath.sep b = false -> OsPath.basename (OsPath.join a b) = b.
Proof.
  intros Hb. unfold OsPath.basename, OsPath.join.
  rewrite (starts_with_sep_contains b Hb).
  destruct (String.eqb_spec a EmptyString) as [->|Ha]; simpl orb.
  - simpl. now apply after_last_sep_none.
  - destruct (OsPath.ends_with_sep a) eqn:E.
    + now apply after_last_sep_app.
    + rewrite append_assoc_sep.
      apply after_last_sep_app; [apply ends_with_sep_app | exact Hb].
Qed.
End Basename.

(** X7. [basename] and [join].  The base name of a path holds no
    separator, a name without separator is its own base name, and joining
    a directory and such a name and taking the base name again gives the
    name back: the "Deleted" and "Error deleting" lines of a mounted
    device name the file the candidate was listed under. *)
Theorem basename_join_round_trip (dir name path : string) :
  contains "/" (OsPath.basename path) = false
  /\ (contains "/" name = false -> OsPath.basename name = name)
  /\ (contains "/" name = false ->
      OsPath.basename (OsPath.join dir name) = name)
  /\ OsPath.basename (OsPath.basename path) = OsPath.basename path.
Proof.
  split; [apply basename_clean|]. split; [apply basename_plain|].
  split; [apply basename_join|]. apply basename_plain, basename_clean.
Qed.

(** ** [str.strip] *)

Section Strip.

Lemma rstrip_cons c r :
  PyStr.rstrip (String c r)
  = if PyStr.all_space (String c r) then EmptyString
    else String c (PyStr.rstrip r).
Proof. reflexivity. Qed.

Lemma all_space_rstrip s : PyStr.all_space (PyStr.rstrip s) = PyStr.all_space s.
Proof.
  induction s as [|c r IH]; [reflexivity|].
  rewrite rstrip_cons. destruct (PyStr.all_space (String c r)) eqn:E;
    [reflexivity|].
  simpl in *. now rewrite IH.
Qed.

Lemma rstrip_idem s : PyStr.rstrip (PyStr.rstrip s) = PyStr.rstrip s.
Proof.
  induction s as [|c r IH]; [reflexivity|].
  rewrite (rstrip_cons c r). destruct (PyStr.all_space (String c r)) eqn:E;
    [reflexivity|].
  rewrite rstrip_cons.
  assert (E' : PyStr.all_space (String c (PyStr.rstrip r)) = false).
  { simpl in *. now rewrite all_space_rstrip. }
  rewrite E', IH. reflexivity.
Qed.

(** What [lstrip] returns is empty or starts with a character that is no
    blank. *)
Lemma lstrip_head s :
  PyStr.lstrip s = EmptyString
  \/ exists c r, PyStr.lstrip s = String c r /\ PyStr.isspace c = false.
Proof.
  induction s as [|c r IH]; [now left|].
  simpl. destruct (PyStr.isspace c) eqn:E; [exact IH|]. right. eauto.
Qed.

Lemma lstrip_fixed c r :
  PyStr.isspace c = false -> PyStr.lstrip (String c r) = String c r.
Proof. intros E. simpl. now rewrite E. Qed.

Lemma strip_idem s : PyStr.strip (PyStr.strip s) = PyStr.strip s.
Proof.
  unfold PyStr.strip. destruct (lstrip_head s) as [->|[c [r [-> E]]]];
    [reflexivity|].
  assert (R : PyStr.rstrip (String c r) = String c (PyStr.rstrip r)).
  { rewrite rstrip_cons. simpl. now rewrite E. }
  rewrite R, (lstrip_fixed c _ E), <- R. apply rstrip_idem.
Qed.

(** A stripped string neither starts nor ends with a blank. *)
Lemma strip_head s c r :
  PyStr.strip s = String c r -> PyStr.isspace c = false.
Proof.
  unfold PyStr.strip. destruct (lstrip_head s) as [->|[d [t [-> E]]]];
    [discriminate|].
  rewrite rstrip_cons. simpl. rewrite E. simpl. now intros [= <- _].
Qed.

Lemma rstrip_last s :
  PyStr.rstrip s = EmptyString
  \/ exists t c, PyStr.rstrip s = (t ++ String c EmptyString)%string
                 /\ PyStr.isspace c = false.
Proof.
  induction s as [|c r IH]; [now left|].
  rewrite rstrip_cons. destruct (PyStr.all_space (String c r)) eqn:E; [now left|].
  right. destruct IH as [Er|[t [d [-> Hd]]]].
  - exists EmptyString, c. rewrite Er. split; [reflexivity|].
    pose proof (all_space_rstrip r) as A. rewrite Er in A. simpl in A, E.
    rewrite <- A, andb_true_r in E. exact E.
  - exists (String c t), d. split; [reflexivity | exact Hd].
Qed.
End Strip.

(** ** The candidates of the scan over adb *)

Section AdbCandidates.
Context {W : Type} {os : OS W}.
Implicit Types s : State W.

Lemma Android_scan_path_shape line media :
  Forall adb_candidate media ->
  returns_only (W:=W) (Forall adb_candidate) (AndroidBackup.scan_path line media).
Proof.
  intros H. unfold AndroidBackup.scan_path.
  destruct (String.eqb_spec (PyStr.strip line) EmptyString) as [E|E];
    [now apply returns_only_ret|].
  destruct (str_in _ _); [|now apply returns_only_ret].
  eapply returns_only_bind; [apply returns_only_any|].
  intros size_result _.
  destruct (returncode size_result =? 0); [|now apply returns_only_ret].
  apply returns_only_try_except; [|now apply returns_only_ret].
  eapply returns_only_bind; [apply returns_only_any|].
  intros size _. apply returns_only_ret.
  apply Forall_app. split; [exact H|]. constructor; [|constructor].
  repeat split; simpl; [apply strip_idem | exact E].
Qed.

Lemma Android_find_media_files_shape :
  returns_only (W:=W) (Forall adb_candidate) AndroidBackup.find_media_files.
Proof.
  unfold AndroidBackup.find_media_files.
  apply returns_only_try_except.
  - eapply returns_only_bind; [apply returns_only_any|]. intros r _.
    destruct (negb _).
    { eapply returns_only_bind; [apply returns_only_any|]. intros _ _.
      apply returns_only_ret. constructor. }
    eapply returns_only_bind with (P := Forall adb_candidate).
    + apply returns_only_for_fold; [constructor|].
      intros line media Hm. now apply Android_scan_path_shape.
    + intros media Hm. apply returns_only_ret.
      apply (Permutation_Forall (sorted_Permutation fileName media)), Hm.
  - eapply returns_only_bind; [apply returns_only_any|]. intros _ _.
    apply returns_only_ret. constructor.
Qed.
End AdbCandidates.

(** X8. The candidates of the scan over adb.  For every candidate that
    [AndroidBackup.find_media_files] returns, the file name is the base
    name of the source locator and holds no separator, and the locator is
    a non-empty line of the listing without blanks around it.  So the
    destination path of the candidate lies directly in the destination
    directory, whatever folder of the device the file is in. *)
Theorem adb_candidates_are_flat
    {W : Type} {os : OS W} (s : State W) (catalog : list Candidate) :
  result (AndroidBackup.find_media_files s) = Ret catalog ->
  forall c, In c catalog ->
    fileName c = OsPath.basename (sourceRef c)
    /\ contains "/" (fileName c) = false
    /\ PyStr.strip (sourceRef c) = sourceRef c
    /\ sourceRef c <> EmptyString
    /\ (forall dest, dest <> EmptyString -> OsPath.ends_with_sep dest = false ->
          OsPath.join dest (fileName c) = (dest ++ "/" ++ fileName c)%string)
    /\ (forall dest, OsPath.basename (OsPath.join dest (fileName c)) = fileName c).
Proof.
  intros H c Hc.
  pose proof (Android_find_media_files_shape s catalog H) as F.
  rewrite Forall_forall in F. destruct (F c Hc) as [Hn [Hs He]].
  assert (Hclean : contains "/" (fileName c) = false).
  { rewrite Hn. apply basename_clean. }
  repeat split; try assumption.
  - intros dest Hd Hend. apply join_plain; try assumption.
    now apply starts_with_sep_contains.
  - intros dest. now apply basename_join.
Qed.

Lemma adb_candidates_are_flat_witness :
  fileName ("/sdcard/DCIM/clip.MP4", "clip.MP4", 100)
  = OsPath.basename (sourceRef ("/sdcard/DCIM/clip.MP4", "clip.MP4", 100))
  /\ contains "/" "clip.MP4" = false.
Proof.
  destruct (adb_candidates_are_flat (os:=Sim.os) (Sim.android_at Sim.listed)
              Sim.listed_catalog_android eq_refl
              ("/sdcard/DCIM/clip.MP4", "clip.MP4", 100))
    as [H1 [H2 _]].
  - simpl. auto.
  - split; [exact H1 | exact H2].
Defined.

(** * The session: set-up, clean-up and [main] *)

(** ** Laws of the session monad *)

Section SessionLaws.
Context {W : Type}.
Implicit Types s : State W.

Lemma steps_only_ret {A} P (a : A) : steps_only (W:=W) P (Session.ret a).
Proof. intros s. constructor. Qed.

Lemma steps_only_raise {A} P e : steps_only (W:=W) (A:=A) P (Session.raise e).
Proof. intros s. constructor. Qed.

Lemma steps_only_emit P e : P e -> steps_only (W:=W) P (Session.emit e).
Proof. intros H s. constructor; [exact H | constructor]. Qed.

Lemma steps_only_lift {A} P (m : M W A) :
  emits_only (fun e => P (Core e)) m -> steps_only P (Session.lift m).
Proof.
  intros H s. specialize (H s). unfold Session.lift.
  destruct (m s) as [[r s1] t1]. unfold trace in H. simpl in *.
  apply Forall_forall. intros e He. apply in_map_iff in He.
  destruct He as [x [<- Hx]]. rewrite Forall_forall in H. now apply H.
Qed.

Lemma steps_only_bind {A B} P (m : Session.T W A) (f : A -> Session.T W B) :
  steps_only P m -> (forall a, steps_only P (f a)) -> steps_only P (Session.bind m f).
Proof.
  intros Hm Hf s. specialize (Hm s). unfold Session.bind.
  destruct (m s) as [[[a|e] s1] t1]; simpl in *; [|exact Hm].
  specialize (Hf a s1). destruct (f a s1) as [[r s2] t2]. simpl in *.
  apply Forall_app. now split.
Qed.

Lemma steps_only_try_except {A} P c (body handler : Session.T W A) :
  steps_only P body -> steps_only P handler ->
  steps_only P (Session.try_except c body handler).
Proof.
  intros Hb Hh s. specialize (Hb s). unfold Session.try_except.
  destruct (body s) as [[[a|e] s1] t1]; simpl in *; [exact Hb|].
  destruct (c e); [|exact Hb].
  specialize (Hh s1). destruct (handler s1) as [[r s2] t2]. simpl in *.
  apply Forall_app. now split.
Qed.

Lemma steps_only_try_finally {A} P (body : Session.T W A) fin :
  steps_only P body -> steps_only P fin ->
  steps_only P (Session.try_finally body fin).
Proof.
  intros Hb Hf s. specialize (Hb s). unfold Session.try_finally.
  destruct (body s) as [[r s1] t1]. specialize (Hf s1).
  destruct (fin s1) as [[[u|e] s2] t2]; simpl in *; apply Forall_app; now split.
Qed.

Lemma session_keeps_ret {A} (a : A) : session_keeps_self (W:=W) (Session.ret a).
Proof. intros s. reflexivity. Qed.

Lemma session_keeps_raise {A} e : session_keeps_self (W:=W) (A:=A) (Session.raise e).
Proof. intros s. reflexivity. Qed.

Lemma session_keeps_emit e : session_keeps_self (W:=W) (Session.emit e).
Proof. intros s. reflexivity. Qed.

Lemma session_keeps_lift {A} (m : M W A) :
  keeps_self m -> session_keeps_self (Session.lift m).
Proof.
  intros H s. specialize (H s). unfold Session.lift, Session.final, final in *.
  destruct (m s) as [[r s1] t1]. exact H.
Qed.

Lemma session_keeps_bind {A B} (m : Session.T W A) (f : A -> Session.T W B) :
  session_keeps_self m -> (forall a, session_keeps_self (f a)) ->
  session_keeps_self (Session.bind m f).
Proof.
  intros Hm Hf s. specialize (Hm s). unfold Session.bind, Session.final in *.
  destruct (m s) as [[[a|e] s1] t1]; simpl in *; [|exact Hm].
  specialize (Hf a s1). unfold Session.final in Hf.
  destruct (f a s1) as [[r s2] t2]. simpl in *.
  congruence.
Qed.

Lemma session_keeps_try_except {A} c (body handler : Session.T W A) :
  session_keeps_self body -> session_keeps_self handler ->
  session_keeps_self (Session.try_except c body handler).
Proof.
  intros Hb Hh s. specialize (Hb s). unfold Session.try_except, Session.final in *.
  destruct (body s) as [[[a|e] s1] t1]; simpl in *; [exact Hb|].
  destruct (c e); [|exact Hb].
  specialize (Hh s1). unfold Session.final in Hh.
  destruct (handler s1) as [[r s2] t2]. simpl in *.
  congruence.
Qed.

Lemma core_app t1 t2 : core (t1 ++ t2) = (core t1 ++ core t2)%list.
Proof. unfold core. apply flat_map_app. Qed.

Lemma core_map t : core (map Core t) = t.
Proof. induction t as [|e t IH]; simpl; [reflexivity | now f_equal]. Qed.

End SessionLaws.

(** Goals [steps_only P m] and [session_keeps_self m] follow the shape
    of [m]. *)
Ltac session_step :=
  match goal with
  | |- forall _, _ => intro
  | |- steps_only _ (Session.bind _ _) => apply steps_only_bind
  | |- steps_only _ (Session.try_except _ _ _) => apply steps_only_try_except
  | |- steps_only _ (Session.try_finally _ _) => apply steps_only_try_finally
  | |- steps_only _ (Session.ret _) => apply steps_only_ret
  | |- steps_only _ (Session.raise _) => apply steps_only_raise
  | |- steps_only _ (Session.lift _) => apply steps_only_lift
  | |- steps_only _ (Session.emit _) => apply steps_only_emit
  | |- steps_only _ (Session.say _) => apply steps_only_emit
  | |- session_keeps_self (Session.bind _ _) => apply session_keeps_bind
  | |- session_keeps_self (Session.try_except _ _ _) =>
      apply session_keeps_try_except
  | |- session_keeps_self (Session.ret _) => apply session_keeps_ret
  | |- session_keeps_self (Session.raise _) => apply session_keeps_raise
  | |- session_keeps_self (Session.lift _) => apply session_keeps_lift
  | |- session_keeps_self (Session.emit _) => apply session_keeps_emit
  | |- session_keeps_self (Session.say _) => apply session_keeps_emit
  | |- context [match ?x with _ => _ end] => destruct x
  end.

Ltac session_shape := repeat session_step; shape.

(** ** Which programs each part runs *)

Section Programs.
Context {W : Type} {os : OS W} {host : Host W}.
Implicit Types s : State W.

Lemma adb_only_adb r : adb_only (CallRun ("adb" :: r)).
Proof. now exists r. Qed.

Lemma verify_files_adb_only files :
  emits_only (W:=W) adb_only (DeviceBackup.verify_files files).
Proof.
  intros s. pose proof (verify_files_run files s) as R. cbv zeta in R.
  rewrite R. unfold trace. simpl. repeat constructor.
  unfold failed_report. destruct (failed_of _ _ _); [constructor|].
  constructor; [exact I|]. apply Forall_forall.
  intros e He. apply in_map_iff in He. destruct He as [f [<- _]]. exact I.
Qed.

(** The backup proper runs no program but [adb]. *)
Lemma main_run_adb_only : emits_only (W:=W) adb_only main_run.
Proof.
  unfold main_run, preflight_stage, transfer_stage, verify_and_delete,
    find_media_files, copy_files, delete_files,
    iPhoneBackup.find_media_files, AndroidBackup.find_media_files,
    iPhoneBackup.scan_dir, iPhoneBackup.scan_file, AndroidBackup.scan_path,
    iPhoneBackup.copy_files, AndroidBackup.copy_files,
    iPhoneBackup.copy_one, AndroidBackup.copy_one,
    iPhoneBackup.delete_files, AndroidBackup.delete_files,
    iPhoneBackup.delete_one, AndroidBackup.delete_one,
    DeviceBackup.check_disk_space,
    size_mb_of, speed_mbps_of, progress_of, path_exists, getsize, int.
  shape;
    first [ exact I
          | apply ask_emits
          | apply exists_with_size_emits
          | apply verify_files_adb_only
          | apply run_emits, adb_only_adb ].
Qed.

Lemma harmless_adb_only e :
  adb_only e -> is_umount (Core e) = false.
Proof.
  destruct e as [m|a b|p|[|prog r]]; try reflexivity.
  intros [r' [= -> _]]. reflexivity.
Qed.

Lemma main_run_no_umount s :
  Forall (fun e => is_umount e = false) (map Core (trace (main_run s))).
Proof.
  apply Forall_forall. intros e He. apply in_map_iff in He.
  destruct He as [x [<- Hx]]. apply harmless_adb_only.
  pose proof (main_run_adb_only s) as H. rewrite Forall_forall in H.
  now apply H.
Qed.

Lemma probe_harmless (P : Step -> Prop) args :
  P (Core (CallRun args)) ->
  emits_only (W:=W) (fun e => P (Core e)) (run args).
Proof. intros H. now apply run_emits. Qed.

Lemma setup_harmless args : steps_only (W:=W) harmless (setup args).
Proof.
  unfold setup, connect, get_destination, get_device_type,
    check_dependencies, is_device_connected,
    iPhoneDevice.check_dependencies, AndroidDevice.check_dependencies,
    iPhoneDevice.is_device_connected, AndroidDevice.is_device_connected,
    iPhoneDevice.mount_device, run_checked, makedirs, ask_line.
  session_shape;
    first [ exact I | apply run_emits; split; reflexivity ].
Qed.

Lemma setup_no_umount args :
  steps_only (W:=W) (fun e => is_umount e = false) (setup args).
Proof.
  unfold setup, connect, get_destination, get_device_type,
    check_dependencies, is_device_connected,
    iPhoneDevice.check_dependencies, AndroidDevice.check_dependencies,
    iPhoneDevice.is_device_connected, AndroidDevice.is_device_connected,
    iPhoneDevice.mount_device, run_checked, makedirs, ask_line.
  session_shape;
    first [ reflexivity | apply run_emits; reflexivity ].
Qed.

Lemma cleanup_harmless : steps_only (W:=W) harmless cleanup.
Proof.
  unfold cleanup, iPhoneDevice.unmount_device, rmdir.
  session_shape;
    first [ exact I | apply run_emits; split; reflexivity ].
Qed.

Lemma cleanup_keeps_self : session_keeps_self (W:=W) cleanup.
Proof.
  unfold cleanup, iPhoneDevice.unmount_device, rmdir.
  session_shape. apply run_keeps_self.
Qed.
End Programs.

(** ** How a run of [main] is put together *)

Section MainShape.
Context {W : Type} {os : OS W} {host : Host W}.
Implicit Types s : State W.

Lemma press_enter_run s :
  Session.bind (Session.lift (call input)) (fun _ => Session.ret tt) s
  = (Ret tt, mkState (snd (input (world s))) (self s), []).
Proof.
  unfold Session.bind, Session.lift, call, Session.ret.
  destruct (input (world s)). reflexivity.
Qed.

Ltac pick_tail :=
  first
    [ exists []; split;
      [ now left
      | split; [rewrite ?app_nil_r, <- ?app_assoc; reflexivity | reflexivity] ]
    | exists [Say MsgErrorOccurred]; split;
      [ now right
      | split; [rewrite <- ?app_assoc; reflexivity | reflexivity] ] ].

Lemma main_shape args s :
  let before := setup args s in
  let out := main args s in
  (Session.result before = Ret true ->
   let run := main_run (Session.final before) in
   let fin := cleanup (final run) in
   exists tail, gave_up tail
     /\ Session.trace out
        = (Session.trace before ++ map Core (trace run)
           ++ Session.trace fin ++ tail)%list
     /\ self (Session.final out) = self (Session.final fin))
  /\ (Session.result before <> Ret true ->
      exists tail, gave_up tail
        /\ Session.trace out = (Session.trace before ++ tail)%list
        /\ self (Session.final out) = self (Session.final before)).
Proof.
  cbv zeta.
  unfold main, Session.try_finally, Session.try_except, Session.bind,
    Session.lift, Session.ret, call.
  unfold Session.result, Session.final, Session.trace, final, trace.
  destruct (setup args s) as [[[[|]|e] s1] t1]; simpl.
  - destruct (main_run s1) as [[r2 s2] t2]. simpl.
    destruct (cleanup s2) as [[[[]|e3] s3] t3]; simpl;
      [destruct r2 as [[]|e2]; [|destruct e2] | destruct e3]; simpl;
      destruct (input (world s3)) as [line w]; simpl;
      (split; [intros _; pick_tail | intros H; now elim H]).
  - destruct (input (world s1)) as [line w]; simpl.
    split.
    + intros [=].
    + intros _. exists [].
      split; [now left | split; [now rewrite !app_nil_r | reflexivity]].
  - destruct e; simpl; destruct (input (world s1)) as [line w]; simpl;
      (split; [intros [=] | intros _; pick_tail]).
Qed.
End MainShape.

(** ** Gate-keeping of [main] *)

Section Gate.
Context {W : Type} {os : OS W} {host : Host W}.
Implicit Types s : State W.

Lemma harmless_not_deleted t p :
  Forall harmless t -> ~ deleted (core t) p.
Proof.
  intros H [e [He Hd]]. unfold core in He. apply in_flat_map in He.
  destruct He as [x [Hx Hin]]. rewrite Forall_forall in H.
  specialize (H x Hx). destruct x as [e'| | |]; simpl in Hin; try contradiction.
  destruct Hin as [-> | []]. destruct H as [H _].
  destruct Hd as [-> | ->]; [discriminate|].
  now rewrite rm_cmd_is_delete in H.
Qed.

Lemma gave_up_harmless tail : gave_up tail -> Forall harmless tail.
Proof. intros [-> | ->]; repeat constructor. Qed.

Lemma deleted_app t1 t2 p :
  deleted (t1 ++ t2) p -> deleted t1 p \/ deleted t2 p.
Proof.
  intros [e [He Hd]]. apply in_app_or in He.
  destruct He as [He|He]; [left|right]; now exists e.
Qed.

(** Without the answer [Y] the backup prints one line and stops. *)
Lemma main_run_cancelled s :
  PyStr.upper (PyStr.strip (fst (input (world s)))) <> "Y" ->
  trace (main_run s) = [Print MsgCancelled].
Proof.
  intros H. unfold main_run.
  rewrite (bind_Ret _ _ s _ _ _ (ask_run s)).
  apply String.eqb_neq in H. rewrite H. reflexivity.
Qed.

Lemma main_run_deleted_consent s p :
  deleted (trace (main_run s)) p ->
  PyStr.upper (PyStr.strip (fst (input (world s)))) = "Y".
Proof.
  intros [e [He Hd]].
  destruct (string_dec (PyStr.upper (PyStr.strip (fst (input (world s))))) "Y")
    as [E|E]; [exact E|].
  rewrite (main_run_cancelled s E) in He.
  destruct He as [<- | []]. destruct Hd; discriminate.
Qed.
End Gate.

(** X9. [main] keeps the device and the destination untouched until the
    set-up has succeeded.  The set-up (destination, device type, dated
    directory, tooling check, connection check, mount) makes no fetch call
    and no delete call.  When it does not end with success (a missing
    destination, an invalid selection, missing tools, no device, a failed
    mount, or an exception) the whole run makes none.  When it succeeds,
    the run is the set-up, then the backup proper from the state the
    set-up left, then steps that fetch and delete nothing. *)
Theorem main_gates_the_backup
    {W : Type} {os : OS W} {host : Host W} (args : Args.t) (s : State W) :
  let before := setup args s in
  let out := main args s in
  Forall harmless (Session.trace before)
  /\ (Session.result before <> Ret true -> Forall harmless (Session.trace out))
  /\ (Session.result before = Ret true ->
      exists after,
        Session.trace out
        = (Session.trace before
           ++ map Core (trace (main_run (Session.final before)))
           ++ after)%list
        /\ Forall harmless after).
Proof.
  intros before out.
  destruct (main_shape args s) as [Hyes Hno].
  split; [apply setup_harmless|].
  split.
  - intros H. destruct (Hno H) as [tail [Ht [E _]]].
    subst out. rewrite E. apply Forall_app.
    split; [apply setup_harmless | now apply gave_up_harmless].
  - intros H. destruct (Hyes H) as [tail [Ht [E _]]].
    eexists. split; [exact E|]. apply Forall_app.
    split; [apply cleanup_harmless | now apply gave_up_harmless].
Qed.

(** X10. Deletion containment for the whole of [main].  If a run of
    [main] issues a delete call for a locator, then the set-up had
    succeeded, the user had answered [Y] (in either case, blanks aside) to
    the question to commence, and the locator is in the verified list of
    the backup object at the end of the run. *)
Theorem session_deletes_only_verified
    {W : Type} {os : OS W} {host : Host W} (args : Args.t) (s : State W)
    (p : string) :
  deleted (core (Session.trace (main args s))) p ->
  Session.result (setup args s) = Ret true
  /\ PyStr.upper
       (PyStr.strip (fst (input (world (Session.final (setup args s)))))) = "Y"
  /\ In p (verified_files (self (Session.final (main args s)))).
Proof.
  intros Hd.
  destruct (main_shape args s) as [Hyes Hno]. cbv zeta in *.
  assert (R : Session.result (setup args s) = Ret true).
  { destruct (Session.result (setup args s)) as [[|]|e] eqn:E;
      [reflexivity| |];
      (destruct Hno as [tail [Ht [Et _]]]; [discriminate|];
       rewrite Et in Hd; exfalso; revert Hd; apply harmless_not_deleted;
       apply Forall_app;
       split; [apply setup_harmless | now apply gave_up_harmless]). }
  destruct (Hyes R) as [tail [Ht [Et Es]]].
  rewrite Et, !core_app, core_map in Hd.
  apply deleted_app in Hd. destruct Hd as [Hd|Hd].
  { exfalso. revert Hd. apply harmless_not_deleted, setup_harmless. }
  apply deleted_app in Hd. destruct Hd as [Hd|Hd].
  - split; [exact R|]. split; [now apply main_run_deleted_consent with p|].
    rewrite Es, cleanup_keeps_self.
    apply (deleted_within _ _ _ (deletes_verified_main _) Hd).
  - exfalso. rewrite <- core_app in Hd. revert Hd.
    apply harmless_not_deleted, Forall_app.
    split; [apply cleanup_harmless | now apply gave_up_harmless].
Qed.

Lemma session_deletes_only_verified_witness :
  Session.result (setup (os:=Sim.os) SimHost.to_backup_iphone
                    (SimHost.boot SimHost.phone)) = Ret true
  /\ In "/tmp/iphone_mount_4242/DCIM/a.jpg"
       (verified_files
          (self (Session.final
                   (main (os:=Sim.os) SimHost.to_backup_iphone
                      (SimHost.boot SimHost.phone))))).
Proof.
  destruct (session_deletes_only_verified (os:=Sim.os) (host:=SimHost.host)
              SimHost.to_backup_iphone (SimHost.boot SimHost.phone)
              "/tmp/iphone_mount_4242/DCIM/a.jpg") as [H1 [_ H3]].
  - exists (CallRemove "/tmp/iphone_mount_4242/DCIM/a.jpg").
    split; [vm_compute; tauto | now left].
  - split; [exact H1 | exact H3].
Defined.

(** ** Mounting and unmounting *)

Section Mounting.
Context {W : Type} {os : OS W} {host : Host W}.
Implicit Types s : State W.

Ltac mount_failed mp :=
  split; [intros e [=]; try (subst; reflexivity)|];
  split; [intros p [=]|];
  split; [intros _; reflexivity|];
  split;
  [ intros H;
    first [ discriminate H
          | exists [CallMakedirs mp; Core (CallRun ["ifuse"; mp])];
            first [now left | now right]
          | exists [CallMakedirs mp]; first [now left | now right] ]
  | eexists; reflexivity ].

Lemma mount_device_facts s :
  let mp := ("/tmp/iphone_mount_" ++ str (os_getpid (world s)))%string in
  let out := iPhoneDevice.mount_device s in
  (forall e, Session.result out = Raise e -> e = KeyboardInterrupt)
  /\ (forall p, Session.result out = Ret (Some p) ->
        p = mp
        /\ self (Session.final out) = with_mount_point (self s) mp
        /\ Session.trace out
           = [CallMakedirs mp; Core (CallRun ["ifuse"; mp]); Say MsgConnected]
        /\ exists w1 r,
             os_makedirs mp (world s) = (Ret tt, w1)
             /\ fst (subprocess_run ["ifuse"; mp] w1) = Ret r
             /\ returncode r = 0)
  /\ (Session.result out <> Ret (Some mp) -> self (Session.final out) = self s)
  /\ (Session.result out = Ret None ->
        exists t, Session.trace out = (t ++ [Say MsgFailedToMount])%list
               \/ Session.trace out = (t ++ [Say MsgFailedToMountDevice])%list)
  /\ (exists t, Session.trace out = CallMakedirs mp :: t).
Proof.
  cbv zeta.
  unfold iPhoneDevice.mount_device, makedirs, run.
  unfold Session.try_except, Session.bind, Session.lift, Session.ret,
    Session.say, Session.emit, read, call_res, emit, get_self, set_self, bind.
  unfold Session.result, Session.final, Session.trace.
  cbv beta iota zeta.
  set (mp := ("/tmp/iphone_mount_" ++ str (os_getpid (world s)))%string).
  clearbody mp. simpl.
  destruct (os_makedirs mp (world s)) as [[[]|e1] w1]; simpl.
  - destruct (subprocess_run ["ifuse"; mp] w1) as [[r|e2] w2] eqn:Erun; simpl.
    + destruct (returncode r =? 0) eqn:E0; simpl.
      * split; [intros e [=]|].
        split.
        { intros p [= <-]. repeat (split; [reflexivity|]).
          exists w1, r. rewrite Erun.
          repeat (split; [reflexivity|]). now apply Z.eqb_eq. }
        split; [intros H; now elim H|].
        split; [intros [=] | eexists; reflexivity].
      * mount_failed mp.
    + destruct e2; simpl; mount_failed mp.
  - destruct e1; simpl; mount_failed mp.
Qed.

Lemma unmount_device_facts s :
  let out := iPhoneDevice.unmount_device s in
  self (Session.final out) = self s
  /\ (forall e, Session.result out = Raise e -> e = KeyboardInterrupt)
  /\ (truthy (mount_point (self s)) = false -> out = (Ret tt, s, []))
  /\ (forall mp, mount_point (self s) = Some mp -> mp <> EmptyString ->
        exists rest,
          Session.trace out = Core (CallRun ["umount"; mp]) :: rest
          /\ Forall (fun e => e = CallRmdir mp \/ e = Say MsgErrorUnmounting) rest
          /\ (In (CallRmdir mp) rest <->
              exists r, fst (subprocess_run ["umount"; mp] (world s)) = Ret r)).
Proof.
  cbv zeta.
  unfold iPhoneDevice.unmount_device, rmdir, run.
  unfold Session.try_except, Session.bind, Session.lift, Session.ret,
    Session.say, Session.emit, call_res, emit, get_self, bind.
  unfold Session.result, Session.final, Session.trace. simpl.
  destruct (mount_point (self s)) as [mp|] eqn:Emp; simpl.
  2:{ repeat split; try discriminate. }
  destruct (String.eqb_spec mp EmptyString) as [E|E]; simpl.
  { repeat split; try discriminate. intros mp' [= <-] H. now elim H. }
  destruct (subprocess_run ["umount"; mp] (world s)) as [[r|e1] w1] eqn:Erun;
    simpl.
  - destruct (os_rmdir mp w1) as [[[]|e2] w2]; simpl;
      [|destruct e2; simpl];
      (split; [reflexivity|]; split;
       [ intros e [=]; try (subst; reflexivity)
       | split; [intros [=]|];
         intros mp' [= <-] _; eexists; split; [reflexivity|]; split;
         [ apply Forall_forall; intros x Hx; simpl in Hx;
           repeat (destruct Hx as [<-|Hx]; [auto|]); contradiction
         | split; [intros _; exists r; now rewrite Erun | intros _; now left] ] ]).
  - destruct e1; simpl;
      (split; [reflexivity|]; split;
       [ intros e [=]; try (subst; reflexivity)
       | split; [intros [=]|];
         intros mp' [= <-] _; eexists; split; [reflexivity|]; split;
         [ apply Forall_forall; intros x Hx; simpl in Hx;
           repeat (destruct Hx as [<-|Hx]; [auto|]); contradiction
         | split; [ intros H; exfalso; simpl in H;
                    repeat (destruct H as [H|H]; try discriminate); exact H
                  | rewrite Erun; intros [r [=]] ] ] ]).
Qed.
End Mounting.

(** Projections of a computed run. *)
Ltac out :=
  unfold Session.result, Session.final, Session.trace in *;
  cbn [fst snd] in *.

(** ** What the set-up leaves behind *)

Section SetUp.
Context {W : Type} {os : OS W} {host : Host W}.
Implicit Types s : State W.

Lemma session_bind_run {A B} (m : Session.T W A) (f : A -> Session.T W B) s :
  Session.bind m f s
  = match m s with
    | (Ret a, s1, t1) =>
        (Session.result (f a s1), Session.final (f a s1),
         (t1 ++ Session.trace (f a s1))%list)
    | (Raise e, s1, t1) => (Raise e, s1, t1)
    end.
Proof.
  unfold Session.bind. destruct (m s) as [[[a|e] s1] t1]; [|reflexivity].
  destruct (f a s1) as [[r s2] t2]. reflexivity.
Qed.

Lemma check_dependencies_keeps_self :
  session_keeps_self (W:=W) check_dependencies.
Proof.
  unfold check_dependencies, iPhoneDevice.check_dependencies,
    AndroidDevice.check_dependencies, run_checked.
  session_shape; apply run_keeps_self.
Qed.

Lemma is_device_connected_keeps_self :
  session_keeps_self (W:=W) is_device_connected.
Proof.
  unfold is_device_connected, iPhoneDevice.is_device_connected,
    AndroidDevice.is_device_connected.
  session_shape; apply run_keeps_self.
Qed.

(** The checks on the handler object change it only by a mount point. *)
Lemma connect_facts s :
  let out := connect s in
  (Session.result out = Ret true ->
   match kind (self s) with
   | Android => self (Session.final out) = self s
   | iPhone =>
       exists mp,
         mp <> EmptyString
         /\ self (Session.final out) = with_mount_point (self s) mp
         /\ In (Core (CallRun ["ifuse"; mp])) (Session.trace out)
   end)
  /\ (Session.result out <> Ret true -> self (Session.final out) = self s).
Proof.
  cbv zeta. unfold connect. rewrite session_bind_run.
  pose proof (check_dependencies_keeps_self s) as H1.
  destruct (check_dependencies s) as [[[ok|e] s1] t1];
    unfold Session.final in H1; simpl in H1.
  2:{ split; [intros [=] | intros _; exact H1]. }
  destruct ok; cbn [negb].
  2:{ split; [intros [=] | intros _; exact H1]. }
  rewrite session_bind_run.
  pose proof (is_device_connected_keeps_self s1) as H2.
  destruct (is_device_connected s1) as [[[c|e] s2] t2];
    unfold Session.final in H2; simpl in H2.
  2:{ split; [intros [=] | intros _; out; congruence]. }
  destruct c; cbn [negb].
  2:{ out. simpl. split; [intros [=] | intros _; congruence]. }
  rewrite session_bind_run.
  change (Session.lift get_self s2) with (Ret (self s2), s2, @nil Step).
  cbv beta iota. rewrite H2, H1.
  destruct (kind (self s)) eqn:K.
  - rewrite session_bind_run.
    destruct (mount_device_facts s2) as [_ [Hsome [Hnone _]]].
    cbv zeta in Hsome, Hnone.
    set (mp := ("/tmp/iphone_mount_" ++ str (os_getpid (world s2)))%string) in *.
    assert (Hmp : mp <> EmptyString) by (subst mp; simpl; discriminate).
    clearbody mp.
    destruct (iPhoneDevice.mount_device s2) as [[[[p|]|e] s3] t3]; out.
    + destruct (Hsome p eq_refl) as [-> [Hs [Ht _]]].
      unfold Session.ret, truthy. cbn [fst snd].
      destruct (String.eqb_spec mp EmptyString) as [E|_]; [now elim Hmp|].
      cbn [negb].
      split; [intros _ | intros H; now elim H].
      exists mp. split; [exact Hmp|]. split.
      * rewrite Hs. unfold with_mount_point. congruence.
      * rewrite Ht. apply in_or_app. right. apply in_or_app. right.
        right. left. reflexivity.
    + unfold Session.ret, truthy. cbn [fst snd].
      split; [intros [=] | intros _].
      rewrite Hnone by discriminate. congruence.
    + split; [intros [=] | intros _].
      rewrite Hnone by discriminate. congruence.
  - out. unfold Session.ret. cbn [fst snd].
    split; [intros _ | intros H; now elim H]. congruence.
Qed.
End SetUp.

(** ** The backup keeps the device of the handler object *)

Section Frame.
Context {W : Type} {os : OS W}.
Implicit Types s : State W.

Lemma keeps_device_of_keeps_self {A} (m : M W A) :
  keeps_self m -> keeps_device m.
Proof. intros H s. rewrite (H s). auto. Qed.

Lemma keeps_device_bind {A B} (m : M W A) (f : A -> M W B) :
  keeps_device m -> (forall a, keeps_device (f a)) -> keeps_device (bind m f).
Proof.
  intros Hm Hf s. rewrite final_bind.
  destruct (result (m s)) as [a|e]; [|apply Hm].
  destruct (Hf a (final (m s))) as [H1 [H2 H3]].
  destruct (Hm s) as [H4 [H5 H6]]. repeat split; congruence.
Qed.

Lemma keeps_device_try_except {A} c (body handler : M W A) :
  keeps_device body -> keeps_device handler ->
  keeps_device (try_except c body handler).
Proof.
  intros Hb Hh s. specialize (Hb s). unfold try_except.
  destruct (body s) as [[[a|e] s1] t1]; [exact Hb|].
  destruct (c e); [|exact Hb].
  specialize (Hh s1). destruct (handler s1) as [[r s2] t2].
  unfold final in *. simpl in *.
  destruct Hb as [H1 [H2 H3]], Hh as [H4 [H5 H6]]. repeat split; congruence.
Qed.

Lemma keeps_device_try_finally {A} (body : M W A) fin :
  keeps_device body -> keeps_device fin ->
  keeps_device (try_finally body fin).
Proof.
  intros Hb Hf s. rewrite final_try_finally.
  destruct (Hf (final (body s))) as [H1 [H2 H3]].
  destruct (Hb s) as [H4 [H5 H6]]. repeat split; congruence.
Qed.

Lemma verify_files_keeps_device files :
  keeps_device (W:=W) (DeviceBackup.verify_files files).
Proof.
  intros s. pose proof (verify_files_run files s) as R. cbv zeta in R.
  rewrite R. repeat split.
Qed.

Lemma find_media_files_keeps_self : keeps_self (W:=W) find_media_files.
Proof.
  unfold find_media_files, iPhoneBackup.find_media_files,
    AndroidBackup.find_media_files, iPhoneBackup.scan_dir,
    iPhoneBackup.scan_file, AndroidBackup.scan_path, path_exists, getsize, int.
  shape; apply run_keeps_self.
Qed.

Lemma check_disk_space_keeps_self required :
  keeps_self (W:=W) (DeviceBackup.check_disk_space required).
Proof. unfold DeviceBackup.check_disk_space. shape. Qed.

Lemma transfer_stage_keeps_device files :
  keeps_device (W:=W) (transfer_stage files).
Proof.
  unfold transfer_stage, verify_and_delete.
  apply keeps_device_bind; [|intros _; now apply keeps_device_of_keeps_self, keeps_self_emit].
  apply keeps_device_try_finally.
  - apply keeps_device_of_keeps_self, copy_part_keeps_self.
  - apply keeps_device_bind; [apply verify_files_keeps_device|].
    intros [verified failed]. destruct verified as [|v verified].
    + apply keeps_device_of_keeps_self, keeps_self_ret.
    + apply keeps_device_bind;
        [apply keeps_device_of_keeps_self, ask_keeps_self|].
      intros response. destruct (String.eqb response "Y").
      * apply keeps_device_of_keeps_self, delete_files_keeps_self.
      * apply keeps_device_of_keeps_self, keeps_self_emit.
Qed.

Lemma main_run_keeps_device : keeps_device (W:=W) main_run.
Proof.
  unfold main_run, preflight_stage.
  apply keeps_device_bind; [apply keeps_device_of_keeps_self, ask_keeps_self|].
  intros response. destruct (negb _).
  { apply keeps_device_of_keeps_self, keeps_self_emit. }
  apply keeps_device_bind;
    [apply keeps_device_of_keeps_self, keeps_self_get_self|].
  intros b. apply keeps_device_bind;
    [apply keeps_device_of_keeps_self, keeps_self_emit|].
  intros _. apply keeps_device_bind;
    [apply keeps_device_of_keeps_self, find_media_files_keeps_self|].
  intros media_files. destruct media_files as [|c media_files].
  { apply keeps_device_of_keeps_self, keeps_self_emit. }
  apply keeps_device_bind;
    [apply keeps_device_of_keeps_self, check_disk_space_keeps_self|].
  intros sufficient. destruct (negb sufficient).
  - apply keeps_device_bind;
      [apply keeps_device_of_keeps_self, ask_keeps_self|].
    intros response'. destruct (negb _).
    + apply keeps_device_of_keeps_self, keeps_self_emit.
    + apply transfer_stage_keeps_device.
  - apply transfer_stage_keeps_device.
Qed.
End Frame.

(** ** The set-up, step by step *)

Section SetUpRun.
Context {W : Type} {os : OS W} {host : Host W}.
Implicit Types s : State W.

Lemma ask_line_run s :
  ask_line s
  = (Ret (PyStr.strip (fst (input (world s)))),
     mkState (snd (input (world s))) (self s), []).
Proof.
  unfold ask_line, Session.bind, Session.lift, Session.ret, call.
  destruct (input (world s)). reflexivity.
Qed.

Lemma makedirs_run path s :
  makedirs path s
  = (fst (os_makedirs path (world s)),
     mkState (snd (os_makedirs path (world s))) (self s),
     [CallMakedirs path]).
Proof.
  unfold makedirs, Session.bind, Session.lift, Session.emit, call_res.
  simpl. destruct (os_makedirs path (world s)) as [[[]|e] w]; reflexivity.
Qed.

(** The destination is what [--dest] gives or, without it, the line the
    user types, and is never empty. *)
Lemma get_destination_facts args s :
  let out := get_destination args s in
  self (Session.final out) = self s
  /\ Forall is_say (Session.trace out)
  /\ (forall d, Session.result out = Ret (Some d) ->
        d <> EmptyString
        /\ (Args.dest args = Some d
            \/ (truthy (Args.dest args) = false
                /\ d = PyStr.strip (fst (input (world s)))))).
Proof.
  cbv zeta. unfold get_destination.
  destruct (truthy (Args.dest args)) eqn:T.
  - unfold Session.ret. out. split; [reflexivity|]. split; [constructor|].
    intros d [= E]. rewrite E in T. split; [|now left].
    intros ->. discriminate T.
  - rewrite session_bind_run, ask_line_run.
    set (line := PyStr.strip (fst (input (world s)))).
    unfold truthy.
    destruct (String.eqb_spec line EmptyString) as [E|E]; cbn [negb]; out.
    + simpl. split; [reflexivity|]. split; [repeat constructor|]. intros d [=].
    + simpl. split; [reflexivity|]. split; [constructor|].
      intros d [= <-]. split; [exact E | now right].
Qed.

(** The device type is what [--device] gives or, without it, [iphone]
    for the answer 1 and [android] for the answer 2. *)
Lemma get_device_type_facts args s :
  let out := get_device_type args s in
  self (Session.final out) = self s
  /\ Forall is_say (Session.trace out)
  /\ (forall t, Session.result out = Ret (Some t) ->
        Args.device args = Some t
        \/ (truthy (Args.device args) = false
            /\ ((PyStr.strip (fst (input (world s))) = "1" /\ t = "iphone")
                \/ (PyStr.strip (fst (input (world s))) = "2"
                    /\ t = "android")))).
Proof.
  cbv zeta. unfold get_device_type.
  destruct (truthy (Args.device args)) eqn:T.
  - unfold Session.ret. out. split; [reflexivity|]. split; [constructor|].
    intros t [= E]. now left.
  - unfold Session.bind, Session.say, Session.emit. cbv beta iota.
    rewrite ask_line_run. cbv beta iota.
    set (line := PyStr.strip (fst (input (world s)))).
    destruct (String.eqb_spec line "1") as [E1|E1]; out.
    { simpl. split; [reflexivity|]. split; [repeat constructor|].
      intros t [= <-]. right. split; [reflexivity|]. now left. }
    destruct (String.eqb_spec line "2") as [E2|E2]; out.
    { simpl. split; [reflexivity|]. split; [repeat constructor|].
      intros t [= <-]. right. split; [reflexivity|]. now right. }
    simpl. split; [reflexivity|]. split; [repeat constructor|]. intros t [=].
Qed.

(** A set-up that succeeds has chosen a destination and a device type,
    made the dated directory, made the handler object and passed the
    checks on it. *)
Lemma setup_success args s :
  Session.result (setup args s) = Ret true ->
  exists d t s1 s2 w3,
    Session.result (get_destination args s) = Ret (Some d)
    /\ s1 = Session.final (get_destination args s)
    /\ Session.result (get_device_type args s1) = Ret (Some t)
    /\ s2 = Session.final (get_device_type args s1)
    /\ let dest :=
         OsPath.join (abspath_expanduser d (world s1)) (today (world s2)) in
       let b0 :=
         if String.eqb (if String.eqb t "pixel" then "android" else t) "iphone"
         then iPhoneDevice.init dest else AndroidDevice.init dest in
       os_makedirs dest (world s2) = (Ret tt, w3)
       /\ Session.result (connect (mkState w3 b0)) = Ret true
       /\ Session.final (setup args s) = Session.final (connect (mkState w3 b0))
       /\ Session.trace (setup args s)
          = (Session.trace (get_destination args s)
             ++ Session.trace (get_device_type args s1)
             ++ CallMakedirs dest :: Session.trace (connect (mkState w3 b0)))%list.
Proof.
  unfold setup. rewrite session_bind_run.
  destruct (get_destination args s) as [[[[d|]|e] s1] t1]; out;
    try (intros [=]; fail).
  rewrite session_bind_run.
  change (Session.lift (read (abspath_expanduser d)) s1)
    with (Ret (abspath_expanduser d (world s1)), s1, @nil Step).
  cbv beta iota. out. rewrite session_bind_run.
  destruct (get_device_type args s1) as [[[[t|]|e] s2] t2] eqn:Et; out;
    try (intros [=]; fail).
  rewrite session_bind_run.
  change (Session.lift (read today) s2)
    with (Ret (today (world s2)), s2, @nil Step).
  cbv beta iota zeta. out. rewrite session_bind_run, makedirs_run.
  set (dest := OsPath.join (abspath_expanduser d (world s1)) (today (world s2))).
  destruct (os_makedirs dest (world s2)) as [[[]|e] w3] eqn:Em; out;
    [|intros [=]].
  rewrite session_bind_run. unfold Session.lift at 1, set_self at 1. out.
  set (b0 := if String.eqb (if String.eqb t "pixel" then "android" else t) "iphone"
             then iPhoneDevice.init dest else AndroidDevice.init dest).
  cbn [world self]. intros R. exists d, t, s1, s2, w3. rewrite Et. out.
  repeat (split; [reflexivity|]). fold dest. rewrite Em. fold b0.
  split; [reflexivity|]. split; [exact R|].
  split; [reflexivity|]. now rewrite !app_nil_l.
Qed.
End SetUpRun.

(** ** The mount is undone once *)

Section Scope.
Context {W : Type} {os : OS W} {host : Host W}.
Implicit Types s : State W.

Lemma filter_none {A} (f : A -> bool) (l : list A) :
  Forall (fun x => f x = false) l -> filter f l = [].
Proof.
  induction 1 as [|x l Hx _ IH]; simpl; [reflexivity|]. now rewrite Hx.
Qed.

(** After a set-up that succeeds, an iPhone handler has a mount point,
    the one [ifuse] was run on, and an Android handler has none. *)
Lemma setup_device args s :
  Session.result (setup args s) = Ret true ->
  let b := self (Session.final (setup args s)) in
  match kind b with
  | Android => mount_point b = None
  | iPhone =>
      exists mp,
        mp <> EmptyString
        /\ mount_point b = Some mp
        /\ In (Core (CallRun ["ifuse"; mp])) (Session.trace (setup args s))
  end.
Proof.
  intros R. destruct (setup_success args s R)
    as [d [t [s1 [s2 [w3 [_ [_ [_ [_ H]]]]]]]]].
  cbv zeta in H. destruct H as [_ [Rc [Ef Et]]].
  cbv zeta. rewrite Ef, Et.
  set (dest := OsPath.join (abspath_expanduser d (world s1)) (today (world s2))) in *.
  destruct (connect_facts
              (mkState w3
                 (if String.eqb (if String.eqb t "pixel" then "android" else t)
                      "iphone"
                  then iPhoneDevice.init dest else AndroidDevice.init dest)))
    as [H _].
  cbv zeta in H. specialize (H Rc). cbn [self] in H.
  destruct (String.eqb (if String.eqb t "pixel" then "android" else t) "iphone");
    cbn [kind iPhoneDevice.init AndroidDevice.init] in H.
  - destruct H as [mp [Hmp [Hs Hin]]]. rewrite Hs.
    cbn [kind with_mount_point mount_point]. exists mp.
    split; [exact Hmp|]. split; [reflexivity|].
    apply in_or_app. right. apply in_or_app. right. now right.
  - rewrite H. reflexivity.
Qed.

Lemma cleanup_run s :
  cleanup s
  = match kind (self s) with
    | iPhone => iPhoneDevice.unmount_device s
    | Android => (Ret tt, s, [])
    end.
Proof.
  unfold cleanup. rewrite session_bind_run.
  change (Session.lift get_self s) with (Ret (self s), s, @nil Step).
  cbv beta iota. destruct (kind (self s)); [|reflexivity].
  unfold Session.result, Session.final, Session.trace.
  now destruct (iPhoneDevice.unmount_device s) as [[r s1] t1].
Qed.

Lemma gave_up_no_umount tail :
  gave_up tail -> Forall (fun e => is_umount e = false) tail.
Proof. intros [-> | ->]; repeat constructor. Qed.
End Scope.

(** X11. The mount is undone exactly once, after the backup.  When the
    set-up has succeeded on an iPhone, the handler object holds the mount
    point that [ifuse] was run on, and the run of [main] is the set-up,
    the backup proper, then [umount] on that mount point, followed by
    nothing but [rmdir] of it and error lines; this holds however the
    backup ended.  No other [umount] is run; on Android, and when the
    set-up did not succeed, none is run at all. *)
Theorem unmount_is_scoped
    {W : Type} {os : OS W} {host : Host W} (args : Args.t) (s : State W) :
  let before := setup args s in
  let out := main args s in
  let b := self (Session.final before) in
  let run := map Core (trace (main_run (Session.final before))) in
  (Session.result before = Ret true -> kind b = iPhone ->
   exists mp rest,
     mount_point b = Some mp
     /\ In (Core (CallRun ["ifuse"; mp])) (Session.trace before)
     /\ Session.trace out
        = (Session.trace before ++ run
           ++ Core (CallRun ["umount"; mp]) :: rest)%list
     /\ Forall (fun e => e = CallRmdir mp \/ e = Say MsgErrorUnmounting
                         \/ e = Say MsgErrorOccurred) rest
     /\ filter is_umount (Session.trace out) = [Core (CallRun ["umount"; mp])])
  /\ (Session.result before = Ret true -> kind b = Android ->
      filter is_umount (Session.trace out) = [])
  /\ (Session.result before <> Ret true ->
      filter is_umount (Session.trace out) = []).
Proof.
  cbv zeta.
  destruct (main_shape args s) as [Hyes Hno]. cbv zeta in Hyes, Hno.
  pose proof (setup_no_umount args s) as Nb.
  pose proof (main_run_no_umount (Session.final (setup args s))) as Nr.
  destruct (main_run_keeps_device (Session.final (setup args s))) as [Kk [Km _]].
  split; [|split].
  - intros R K. destruct (Hyes R) as [tail [Ht [Et _]]].
    pose proof (setup_device args s R) as D. cbv zeta in D.
    rewrite K in D. destruct D as [mp [Hmp [Hm Hin]]].
    rewrite cleanup_run, Kk, K in Et.
    destruct (unmount_device_facts (final (main_run (Session.final (setup args s)))))
      as [_ [_ [_ U]]].
    cbv zeta in U. rewrite Km, Hm in U.
    destruct (U mp eq_refl Hmp) as [rest [Er [Fr _]]].
    rewrite Er in Et. exists mp, (rest ++ tail)%list.
    split; [exact Hm|]. split; [exact Hin|]. split; [exact Et|].
    assert (Frest : Forall (fun e => e = CallRmdir mp \/ e = Say MsgErrorUnmounting
                                     \/ e = Say MsgErrorOccurred)
                      (rest ++ tail)%list).
    { apply Forall_app. split.
      - eapply Forall_impl; [|exact Fr]. intros e [H|H]; auto.
      - destruct Ht as [-> | ->]; [constructor|].
        constructor; [auto | constructor]. }
    split; [exact Frest|].
    rewrite Et, !filter_app, (filter_none _ _ Nb), (filter_none _ _ Nr).
    simpl. f_equal. rewrite <- filter_app. apply filter_none.
    eapply Forall_impl; [|exact Frest].
    intros e [->|[->| ->]]; reflexivity.
  - intros R K. destruct (Hyes R) as [tail [Ht [Et _]]].
    rewrite cleanup_run, Kk, K in Et. unfold Session.trace at 3 in Et.
    cbn [snd] in Et.
    rewrite Et, !filter_app, (filter_none _ _ Nb), (filter_none _ _ Nr).
    simpl. apply filter_none, gave_up_no_umount, Ht.
  - intros R. destruct (Hno R) as [tail [Ht [Et _]]].
    rewrite Et, filter_app, (filter_none _ _ Nb).
    simpl. apply filter_none, gave_up_no_umount, Ht.
Qed.

(** X12. Mounting and unmounting.  [mount_device] never lets an exception
    other than [KeyboardInterrupt] out.  It returns a mount point only
    when the directory was made and [ifuse] exited with 0; the mount point
    is [/tmp/iphone_mount_<pid>] and is stored in the handler object; in
    every other case the object is left as it was and the last line
    printed reports the failure.  [unmount_device] does nothing without a
    mount point; with one it runs [umount] on it, then [rmdir] exactly
    when [umount] came back (whatever its exit code), keeps the object,
    and lets no exception other than [KeyboardInterrupt] out. *)
Theorem mount_then_unmount
    {W : Type} {os : OS W} {host : Host W} (s s' : State W) :
  let mp := ("/tmp/iphone_mount_" ++ str (os_getpid (world s)))%string in
  let m := iPhoneDevice.mount_device s in
  let u := iPhoneDevice.unmount_device s' in
  (forall e, Session.result m = Raise e -> e = KeyboardInterrupt)
  /\ (forall p, Session.result m = Ret (Some p) ->
        p = mp
        /\ self (Session.final m) = with_mount_point (self s) mp
        /\ Session.trace m
           = [CallMakedirs mp; Core (CallRun ["ifuse"; mp]); Say MsgConnected]
        /\ exists w1 r,
             os_makedirs mp (world s) = (Ret tt, w1)
             /\ fst (subprocess_run ["ifuse"; mp] w1) = Ret r
             /\ returncode r = 0)
  /\ (Session.result m <> Ret (Some mp) -> self (Session.final m) = self s)
  /\ (Session.result m = Ret None ->
        exists t, Session.trace m = (t ++ [Say MsgFailedToMount])%list
               \/ Session.trace m = (t ++ [Say MsgFailedToMountDevice])%list)
  /\ self (Session.final u) = self s'
  /\ (forall e, Session.result u = Raise e -> e = KeyboardInterrupt)
  /\ (mount_point (self s') = None -> u = (Ret tt, s', []))
  /\ (self s' = self (Session.final m) -> Session.result m = Ret (Some mp) ->
        exists rest,
          Session.trace u = Core (CallRun ["umount"; mp]) :: rest
          /\ Forall (fun e => e = CallRmdir mp \/ e = Say MsgErrorUnmounting) rest
          /\ (In (CallRmdir mp) rest <->
              exists r, fst (subprocess_run ["umount"; mp] (world s')) = Ret r)).
Proof.
  cbv zeta.
  destruct (mount_device_facts s) as [M1 [M2 [M3 [M4 _]]]].
  destruct (unmount_device_facts s') as [U1 [U2 [U3 U4]]].
  cbv zeta in *.
  set (mp := ("/tmp/iphone_mount_" ++ str (os_getpid (world s)))%string) in *.
  assert (Hmp : mp <> EmptyString) by (subst mp; simpl; discriminate).
  clearbody mp.
  repeat (split; [assumption|]). split.
  - intros H. apply U3. now rewrite H.
  - intros Hs R. apply U4; [|exact Hmp].
    destruct (M2 mp R) as [_ [E _]]. now rewrite Hs, E.
Qed.

(** ** The probes of the set-up *)

Section Probes.
Context {W : Type} {os : OS W} {host : Host W}.
Implicit Types s : State W.

Lemma prefix_spec (sub s : string) :
  String.prefix sub s = true <-> exists b, s = (sub ++ b)%string.
Proof.
  revert s. induction sub as [|c sub IH]; intros s; simpl.
  - split; [intros _; now exists s | intros _; now destruct s].
  - destruct s as [|d s]; simpl.
    + split; [discriminate | intros [b [=]]].
    + destruct (ascii_dec c d) as [E|N].
      * subst d. rewrite IH. split; intros [b E]; exists b; [now rewrite E|].
        now injection E.
      * split; [discriminate | intros [b [= E _]]; now elim N].
Qed.

(** [in_str] is the substring test. *)
Lemma in_str_spec (sub s : string) :
  in_str sub s = true <-> exists a b, s = (a ++ sub ++ b)%string.
Proof.
  induction s as [|c s IH].
  - change (in_str sub EmptyString)
      with (String.prefix sub EmptyString || false)%bool.
    rewrite orb_false_r, prefix_spec. split.
    + intros [b E]. now exists EmptyString, b.
    + intros [a [b E]]. destruct a; [now exists b | discriminate].
  - change (in_str sub (String c s))
      with (String.prefix sub (String c s) || in_str sub s)%bool.
    rewrite orb_true_iff, prefix_spec, IH. split.
    + intros [[b E]|[a [b E]]].
      * now exists EmptyString, b.
      * exists (String c a), b. simpl. now rewrite E.
    + intros [a [b E]]. destruct a as [|d a].
      * left. now exists b.
      * right. injection E as _ E. now exists a, b.
Qed.

Lemma lift_run_run args s :
  Session.lift (run args) s
  = (fst (subprocess_run args (world s)),
     mkState (snd (subprocess_run args (world s))) (self s),
     [Core (CallRun args)]).
Proof.
  unfold Session.lift, run, bind, emit, call_res. simpl.
  destruct (subprocess_run args (world s)) as [[r|e] w]; reflexivity.
Qed.

Lemma check_dependencies_run s :
  let args := tool_probe (kind (self s)) in
  let after := mkState (snd (subprocess_run args (world s))) (self s) in
  let failed :=
    (Ret false, after, Core (CallRun args) :: tool_hint (kind (self s))) in
  check_dependencies s
  = match fst (subprocess_run args (world s)) with
    | Ret r =>
        if returncode r =? 0 then (Ret true, after, [Core (CallRun args)])
        else failed
    | Raise e =>
        if except_tool_failure (program_missing args (world s)) e then failed
        else (Raise e, after, [Core (CallRun args)])
    end.
Proof.
  cbv zeta. unfold check_dependencies. rewrite session_bind_run.
  change (Session.lift get_self s) with (Ret (self s), s, @nil Step).
  cbv beta iota. unfold tool_probe, tool_hint.
  destruct (kind (self s));
    [unfold iPhoneDevice.check_dependencies
    |unfold AndroidDevice.check_dependencies];
    unfold run_checked, Session.try_except;
    rewrite !session_bind_run;
    match goal with
    | |- context [Session.lift (read ?f) s] =>
        change (Session.lift (read f) s) with (Ret (f (world s)), s, @nil Step)
    end;
    cbv beta iota; rewrite !session_bind_run, lift_run_run;
    (destruct (subprocess_run _ (world s)) as [[r|e] w]; cbn [fst snd];
     [ destruct (returncode r =? 0); reflexivity
     | destruct (except_tool_failure _ e); reflexivity ]).
Qed.

Lemma is_device_connected_run s :
  let args := connection_probe (kind (self s)) in
  let after := mkState (snd (subprocess_run args (world s))) (self s) in
  is_device_connected s
  = (match fst (subprocess_run args (world s)) with
     | Ret r =>
         Ret match kind (self s) with
             | iPhone => returncode r =? 0
             | Android =>
                 let lines := PyStr.split "010" (PyStr.strip (stdout r)) in
                 ((1 <? List.length lines)%nat
                  && in_str "device" (nth 1 lines EmptyString))%bool
             end
     | Raise e => if except_SubprocessError e then Ret false else Raise e
     end, after, [Core (CallRun args)]).
Proof.
  cbv zeta. unfold is_device_connected. rewrite session_bind_run.
  change (Session.lift get_self s) with (Ret (self s), s, @nil Step).
  cbv beta iota. unfold connection_probe.
  destruct (kind (self s));
    [unfold iPhoneDevice.is_device_connected
    |unfold AndroidDevice.is_device_connected];
    unfold Session.try_except; rewrite session_bind_run, lift_run_run;
    (destruct (subprocess_run _ (world s)) as [[r|e] w]; cbn [fst snd];
     [ reflexivity | destruct (except_SubprocessError e); reflexivity ]).
Qed.
End Probes.

(** X13. The verdict of the tooling check.  [check_dependencies] runs
    one command, [ideviceinfo -s] on the iPhone and [adb version] on
    Android.  It returns [True] exactly when the command exits with 0, and
    [False] exactly when it exits with another code, times out, or is not
    installed; each [False] comes with the two lines of advice.  Any other
    failure of the command is raised to the caller.  The handler object
    is not changed. *)
Theorem tooling_check_verdict
    {W : Type} {os : OS W} {host : Host W} (s : State W) :
  let k := kind (self s) in
  let args := tool_probe k in
  let call := subprocess_run args (world s) in
  let out := check_dependencies s in
  Session.final out = mkState (snd call) (self s)
  /\ (Session.result out = Ret true <->
      exists r, fst call = Ret r /\ returncode r = 0)
  /\ (Session.result out = Ret false <->
      (exists r, fst call = Ret r /\ returncode r <> 0)
      \/ fst call = Raise SubprocessError
      \/ (fst call = Raise OSError /\ program_missing args (world s) = true))
  /\ (Session.result out = Ret true ->
      Session.trace out = [Core (CallRun args)])
  /\ (Session.result out = Ret false ->
      Session.trace out = Core (CallRun args) :: tool_hint k)
  /\ (forall e, Session.result out = Raise e ->
        fst call = Raise e /\ Session.trace out = [Core (CallRun args)]).
Proof.
  cbv zeta. pose proof (check_dependencies_run s) as R. cbv zeta in R.
  rewrite R. clear R.
  destruct (fst (subprocess_run (tool_probe (kind (self s))) (world s)))
    as [r|e].
  - destruct (Z.eqb_spec (returncode r) 0) as [E|E]; out.
    + split; [reflexivity|]. split; [split; [intros _; now exists r | reflexivity]|].
      split.
      { split; [discriminate|].
        intros [[r' [[= <-] N]]|[H|[H _]]]; [now elim N | discriminate..]. }
      split; [reflexivity|]. split; [discriminate | intros e [=]].
    + split; [reflexivity|].
      split; [split; [discriminate | intros [r' [[= <-] Z0]]; now elim E]|].
      split; [split; [intros _; left; now exists r | reflexivity]|].
      split; [discriminate|]. split; [reflexivity | intros e [=]].
  - destruct e; cbn [except_tool_failure];
      try (out; split; [reflexivity|];
           split; [split; [discriminate | intros [r [[=] _]]]|];
           split;
           [ split; [discriminate|];
             intros [[r [[=] _]]|[[=]|[[=] _]]]
           | split; [discriminate|]; split; [discriminate|];
             intros e [= <-]; now split ]; fail).
    + destruct (program_missing _ (world s)) eqn:P; out.
      * split; [reflexivity|].
        split; [split; [discriminate | intros [r [[=] _]]]|].
        split; [split; [intros _; right; right; now split | reflexivity]|].
        split; [discriminate|]. split; [reflexivity | intros e [=]].
      * split; [reflexivity|].
        split; [split; [discriminate | intros [r [[=] _]]]|].
        split.
        { split; [discriminate|].
          intros [[r [[=] _]]|[[=]|[_ [=]]]]. }
        split; [discriminate|]. split; [discriminate|].
        intros e [= <-]. now split.
    + out. split; [reflexivity|].
      split; [split; [discriminate | intros [r [[=] _]]]|].
      split; [split; [intros _; right; now left | reflexivity]|].
      split; [discriminate|]. split; [reflexivity | intros e [=]].
Qed.

(** X14. The verdict of the connection check.  [is_device_connected]
    runs one command and prints nothing.  On the iPhone it returns [True]
    exactly when [ideviceinfo -s] exits with 0.  On Android the exit code
    of [adb devices] is not looked at: the verdict is [True] exactly when
    the output, blanks around it aside, has a second line in which the
    word [device] occurs.  A timeout gives [False]; any other failure of
    the command is raised to the caller.  The handler object is not
    changed. *)
Theorem connection_check_verdict
    {W : Type} {os : OS W} {host : Host W} (s : State W) :
  let k := kind (self s) in
  let args := connection_probe k in
  let call := subprocess_run args (world s) in
  let out := is_device_connected s in
  Session.final out = mkState (snd call) (self s)
  /\ Session.trace out = [Core (CallRun args)]
  /\ (Session.result out = Ret true <->
      exists r, fst call = Ret r
                /\ match k with
                   | iPhone => returncode r = 0
                   | Android => lists_a_device (stdout r)
                   end)
  /\ (fst call = Raise SubprocessError -> Session.result out = Ret false)
  /\ (forall e, Session.result out = Raise e ->
        fst call = Raise e /\ e <> SubprocessError).
Proof.
  cbv zeta. pose proof (is_device_connected_run s) as R. cbv zeta in R.
  rewrite R. clear R. out.
  split; [reflexivity|]. split; [reflexivity|].
  destruct (fst (subprocess_run (connection_probe (kind (self s))) (world s)))
    as [r|e].
  - split; [|split; [discriminate | intros e [=]]].
    destruct (kind (self s)).
    + split.
      * intros [= E]. exists r. split; [reflexivity | now apply Z.eqb_eq].
      * intros [r' [[= <-] E]]. f_equal. now apply Z.eqb_eq.
    + unfold lists_a_device.
      destruct (PyStr.split "010" (PyStr.strip (stdout r)))
        as [|header [|second rest]] eqn:Es;
        cbn [List.length nth Nat.ltb Nat.leb andb].
      * split; [discriminate|].
        intros [r' [[= <-] [h [x [t [a [b [E _]]]]]]]].
        rewrite Es in E. discriminate E.
      * split; [discriminate|].
        intros [r' [[= <-] [h [x [t [a [b [E _]]]]]]]].
        rewrite Es in E. discriminate E.
      * split.
        -- intros [= E]. apply in_str_spec in E. destruct E as [a [b E]].
           exists r. split; [reflexivity|].
           exists header, second, rest, a, b. now rewrite Es.
        -- intros [r' [[= <-] [h [x [t [a [b [E E']]]]]]]].
           rewrite Es in E. injection E as _ <- _.
           f_equal. apply in_str_spec. now exists a, b.
  - split.
    { split; [|intros [r [[=] _]]].
      destruct e; cbn [except_SubprocessError]; discriminate. }
    split; [intros [= ->]; reflexivity|].
    intros e'. destruct e; cbn [except_SubprocessError]; intros [= <-];
      (split; [reflexivity | discriminate]).
Qed.

(** X15. The handler object that a successful set-up builds.  Its
    destination is the dated directory
    [join(abspath(expanduser(dest)), today)], where [dest] is the value
    of [--dest] or, without it, the line typed by the user, never empty;
    that directory is made before any program is run.  It is an iPhone
    handler exactly when the device type is [iphone], which is the value
    of [--device] or, without it, the answer 1; [pixel], [android] and the
    answer 2 give an Android handler.  Its verified and failed lists are
    empty. *)
Theorem setup_builds_the_handler
    {W : Type} {os : OS W} {host : Host W} (args : Args.t) (s : State W) :
  Session.result (setup args s) = Ret true ->
  let b := self (Session.final (setup args s)) in
  let typed :=
    PyStr.strip (fst (input (world (Session.final (get_destination args s))))) in
  exists d t w1 w2 pre rest,
    d <> EmptyString
    /\ (Args.dest args = Some d
        \/ (truthy (Args.dest args) = false
            /\ d = PyStr.strip (fst (input (world s)))))
    /\ (Args.device args = Some t
        \/ (truthy (Args.device args) = false
            /\ ((typed = "1" /\ t = "iphone") \/ (typed = "2" /\ t = "android"))))
    /\ destination b = OsPath.join (abspath_expanduser d w1) (today w2)
    /\ (kind b = iPhone <-> t = "iphone")
    /\ verified_files b = [] /\ failed_files b = []
    /\ Session.trace (setup args s)
       = (pre ++ CallMakedirs (destination b) :: rest)%list
    /\ Forall is_say pre.
Proof.
  intros R. destruct (setup_success args s R)
    as [d [t [s1 [s2 [w3 [Rd [Es1 [Rt [Es2 H]]]]]]]]].
  cbv zeta in H. destruct H as [_ [Rc [Ef Et]]]. cbv zeta.
  destruct (get_destination_facts args s) as [_ [Sd Hd]]. cbv zeta in Hd, Sd.
  destruct (Hd d Rd) as [Nd Cd].
  destruct (get_device_type_facts args s1) as [_ [St Ht]]. cbv zeta in Ht, St.
  specialize (Ht t Rt). rewrite Es1 in Ht at 1 2.
  set (dest := OsPath.join (abspath_expanduser d (world s1)) (today (world s2))) in *.
  set (b0 := if String.eqb (if String.eqb t "pixel" then "android" else t) "iphone"
             then iPhoneDevice.init dest else AndroidDevice.init dest) in *.
  destruct (connect_facts (mkState w3 b0)) as [C _]. cbv zeta in C.
  specialize (C Rc). cbn [self] in C.
  assert (B : destination (self (Session.final (connect (mkState w3 b0)))) = dest
              /\ (kind (self (Session.final (connect (mkState w3 b0)))) = iPhone
                  <-> t = "iphone")
              /\ verified_files (self (Session.final (connect (mkState w3 b0)))) = []
              /\ failed_files (self (Session.final (connect (mkState w3 b0)))) = []).
  { assert (K : kind b0 = iPhone <-> t = "iphone").
    { subst b0. destruct (String.eqb_spec t "pixel") as [->|Np].
      - simpl. split; discriminate.
      - destruct (String.eqb_spec t "iphone") as [->|Ni]; simpl.
        + split; reflexivity.
        + split; [discriminate | intros E; now elim Ni]. }
    assert (D : destination b0 = dest /\ verified_files b0 = []
                /\ failed_files b0 = []).
    { subst b0. destruct (String.eqb _ "iphone"); repeat split. }
    destruct D as [D1 [D2 D3]].
    destruct (kind b0) eqn:Kb.
    - destruct C as [mp [_ [-> _]]]. unfold with_mount_point. simpl.
      rewrite Kb. repeat split; tauto.
    - rewrite C, Kb. repeat split; tauto. }
  destruct B as [B1 [B2 [B3 B4]]].
  exists d, t, (world s1), (world s2),
    (Session.trace (get_destination args s)
     ++ Session.trace (get_device_type args s1))%list,
    (Session.trace (connect (mkState w3 b0))).
  rewrite Ef, B1.
  split; [exact Nd|]. split; [exact Cd|]. split; [exact Ht|].
  split; [reflexivity|]. split; [exact B2|]. split; [exact B3|].
  split; [exact B4|]. split.
  - rewrite Et, <- app_assoc. reflexivity.
  - apply Forall_app. now split.
Qed.

Lemma setup_builds_the_handler_witness :
  Session.result (setup (os:=Sim.os) SimHost.to_backup_iphone
                    (SimHost.boot SimHost.phone)) = Ret true
  /\ verified_files
       (self (Session.final
                (setup (os:=Sim.os) SimHost.to_backup_iphone
                   (SimHost.boot SimHost.phone)))) = []
  /\ exists pre rest,
       Session.trace (setup (os:=Sim.os) SimHost.to_backup_iphone
                        (SimHost.boot SimHost.phone))
       = (pre ++ CallMakedirs "/backup/2024-05-17" :: rest)%list
       /\ Forall is_say pre.
Proof.
  destruct (setup_builds_the_handler (os:=Sim.os) (host:=SimHost.host)
              SimHost.to_backup_iphone (SimHost.boot SimHost.phone) eq_refl)
    as [d [t [w1 [w2 [pre [rest [_ [_ [_ [_ [_ [V [_ [T P]]]]]]]]]]]]]].
  split; [reflexivity|]. split; [exact V|].
  exists pre, rest. split; [exact T | exact P].
Defined.

(** ** Enumeration at its edges *)

Section EnumerationEdges.
Context {W : Type} {os : OS W}.
Implicit Types s : State W.

Lemma iPhone_find_cases s :
  iPhoneBackup.find_media_files s
  = match mount_point (self s) with
    | None => (Ret [], s, [])
    | Some mp =>
        if String.eqb mp EmptyString then (Ret [], s, [])
        else
          let dcim_path := OsPath.join mp "DCIM" in
          match stat_size dcim_path (world s) with
          | None => (Ret [], s, [Print (MsgDcimNotFound dcim_path)])
          | Some _ =>
              let walk := os_walk dcim_path (world s) in
              (Ret (sorted fileName (iPhone_listing (world s) walk)), s,
               flat_map (fun entry =>
                           flat_map
                             (iPhone_file_report (world s) (fst (fst entry)))
                             (snd entry)) walk)
          end
    end.
Proof.
  destruct (mount_point (self s)) as [mp|] eqn:Emp.
  - destruct (String.eqb_spec mp EmptyString) as [Ee|Ee].
    { unfold iPhoneBackup.find_media_files.
      rewrite (bind_pure _ _ s (self s)) by reflexivity. rewrite Emp.
      apply String.eqb_eq in Ee. now rewrite Ee. }
    cbv zeta. destruct (stat_size (OsPath.join mp "DCIM") (world s)) eqn:Es.
    + apply iPhone_find_media_files_run; [exact Emp | exact Ee | now rewrite Es].
    + unfold iPhoneBackup.find_media_files.
      rewrite (bind_pure _ _ s (self s)) by reflexivity. rewrite Emp.
      apply String.eqb_neq in Ee. rewrite Ee.
      cbv zeta. rewrite (bind_pure _ _ s false).
      * reflexivity.
      * unfold path_exists, read. now rewrite Es.
  - unfold iPhoneBackup.find_media_files.
    rewrite (bind_pure _ _ s (self s)) by reflexivity. now rewrite Emp.
Qed.

Lemma iPhone_reports_only (w : W)
    (walk : list (string * list string * list string)) :
  Forall (fun e => exists f, e = Print (MsgCouldNotAccess f))
    (flat_map (fun entry =>
                 flat_map (iPhone_file_report w (fst (fst entry))) (snd entry))
       walk).
Proof.
  apply Forall_forall. intros e He. apply in_flat_map in He.
  destruct He as [entry [_ He]]. apply in_flat_map in He.
  destruct He as [f [_ He]]. unfold iPhone_file_report in He.
  destruct (str_in _ _); [|contradiction].
  destruct (stat_size _ _); [contradiction|].
  destruct He as [<-|[]]. now exists f.
Qed.

Lemma guarded_raises {A} (body handler : M W A) s e :
  (forall s1, exists a, result (handler s1) = Ret a) ->
  result (try_except except_Exception body handler s) = Raise e ->
  e = KeyboardInterrupt.
Proof.
  intros Hh. unfold try_except.
  destruct (body s) as [[[a|e'] s1] t1]; [discriminate|].
  destruct e'; simpl;
    try (destruct (Hh s1) as [a Ha]; destruct (handler s1) as [[r s2] t2];
         unfold result in *; simpl in *; congruence).
Qed.

Lemma Android_find_refused s r w1 :
  subprocess_run (AndroidBackup.find_cmd "/sdcard/DCIM") (world s) = (Ret r, w1) ->
  returncode r <> 0 ->
  AndroidBackup.find_media_files s
  = (Ret [], mkState w1 (self s),
     [CallRun (AndroidBackup.find_cmd "/sdcard/DCIM"); Print MsgNoDcimAccess]).
Proof.
  intros Hr Hc. apply Z.eqb_neq in Hc.
  unfold AndroidBackup.find_media_files, try_except, run, bind, emit,
    call_res, print. simpl. rewrite Hr. simpl. rewrite Hc. reflexivity.
Qed.

Lemma Android_find_failed s e w1 :
  subprocess_run (AndroidBackup.find_cmd "/sdcard/DCIM") (world s) = (Raise e, w1) ->
  except_Exception e = true ->
  AndroidBackup.find_media_files s
  = (Ret [], mkState w1 (self s),
     [CallRun (AndroidBackup.find_cmd "/sdcard/DCIM"); Print MsgErrorFinding]).
Proof.
  intros Hr Hc.
  unfold AndroidBackup.find_media_files, try_except, run, bind, emit,
    call_res, print. simpl. rewrite Hr. simpl. rewrite Hc. reflexivity.
Qed.
End EnumerationEdges.

(** X16. Enumeration at its edges.  [find_media_files] never changes the
    handler object and lets no exception other than [KeyboardInterrupt]
    out.  On the mounted device it always returns, changes nothing in the
    world, and prints only about a missing DCIM folder or a file it cannot
    read; without a mount point it returns the empty catalog silently,
    and without a DCIM folder it says so and returns the empty catalog.
    Over adb, a listing command that exits with an error or fails gives
    the empty catalog after one line, and no other command is run. *)
Theorem enumeration_edge_cases
    {W : Type} {os : OS W} (s : State W) :
  let out := find_media_files s in
  let listing := AndroidBackup.find_cmd "/sdcard/DCIM" in
  self (final out) = self s
  /\ (forall e, result out = Raise e -> e = KeyboardInterrupt)
  /\ (kind (self s) = iPhone ->
      world (final out) = world s
      /\ (exists catalog, result out = Ret catalog)
      /\ Forall (fun e => (exists f, e = Print (MsgCouldNotAccess f))
                          \/ (exists p, e = Print (MsgDcimNotFound p)))
           (trace out)
      /\ (mount_point (self s) = None -> out = (Ret [], s, []))
      /\ (forall mp, mount_point (self s) = Some mp -> mp <> EmptyString ->
            stat_size (OsPath.join mp "DCIM") (world s) = None ->
            out = (Ret [], s, [Print (MsgDcimNotFound (OsPath.join mp "DCIM"))])))
  /\ (kind (self s) = Android ->
      (forall r w1, subprocess_run listing (world s) = (Ret r, w1) ->
         returncode r <> 0 ->
         out = (Ret [], mkState w1 (self s),
                [CallRun listing; Print MsgNoDcimAccess]))
      /\ (forall e w1, subprocess_run listing (world s) = (Raise e, w1) ->
            e <> KeyboardInterrupt ->
            out = (Ret [], mkState w1 (self s),
                   [CallRun listing; Print MsgErrorFinding]))).
Proof.
  cbv zeta. split; [apply find_media_files_keeps_self|].
  rewrite find_media_files_kind.
  destruct (kind (self s)) eqn:K.
  - rewrite iPhone_find_cases.
    assert (F : forall (P : Event -> Prop) l,
               Forall (fun e => exists f, e = Print (MsgCouldNotAccess f)) l ->
               Forall (fun e => (exists f, e = Print (MsgCouldNotAccess f))
                                \/ (exists p, e = Print (MsgDcimNotFound p))) l).
    { intros _ l H. eapply Forall_impl; [|exact H]. intros e He. now left. }
    destruct (mount_point (self s)) as [mp|]; cbv zeta.
    + destruct (String.eqb_spec mp EmptyString) as [Ee|Ee].
      { split; [intros e [=]|]. split; [|intros [=]]. intros _.
        split; [reflexivity|]. split; [eexists; reflexivity|].
        split; [constructor|]. split; [intros [=]|].
        intros mp' [= <-] N. now elim N. }
      destruct (stat_size (OsPath.join mp "DCIM") (world s)) eqn:Es.
      * split; [intros e [=]|]. split; [|intros [=]]. intros _.
        split; [reflexivity|]. split; [eexists; reflexivity|].
        split; [apply (F (fun _ => True)), iPhone_reports_only|].
        split; [intros [=]|].
        intros mp' [= <-] _ H. rewrite Es in H. discriminate H.
      * split; [intros e [=]|]. split; [|intros [=]]. intros _.
        split; [reflexivity|]. split; [eexists; reflexivity|].
        split; [constructor; [right; eexists; reflexivity | constructor]|].
        split; [intros [=] | intros mp' [= <-] _ _; reflexivity].
    + split; [intros e [=]|]. split; [|intros [=]]. intros _.
      split; [reflexivity|]. split; [eexists; reflexivity|].
      split; [constructor|]. split; [reflexivity | intros mp' [=]].
  - split.
    { intros e H. unfold AndroidBackup.find_media_files in H. cbv zeta in H.
      eapply guarded_raises; [|exact H]. intros s1.
      exists []. reflexivity. }
    split; [intros [=]|]. intros _. split.
    + intros r w1. apply Android_find_refused.
    + intros e w1 Hr He. apply (Android_find_failed s e w1 Hr).
      destruct e; try reflexivity. now elim He.
Qed.

(** ** Sessions on the simulated host *)

(** A whole session on the iPhone: set-up, one photo fetched, verified
    and removed, then the mount undone. *)
Example session_on_the_phone :
  Session.trace
    (main (os:=Sim.os) SimHost.to_backup_iphone (SimHost.boot SimHost.phone))
  = [CallMakedirs "/backup/2024-05-17";
     Core (CallRun ["ideviceinfo"; "-s"]);
     Core (CallRun ["ideviceinfo"; "-s"]);
     CallMakedirs SimHost.mp;
     Core (CallRun ["ifuse"; SimHost.mp]);
     Say MsgConnected;
     Core (Print (MsgStarting "/backup/2024-05-17"));
     Core (Print (MsgSpaceCheck (10 # 1073741824) (5000 # 1073741824)));
     Core (Print MsgSufficient);
     Core (CallCopy2 "/tmp/iphone_mount_4242/DCIM/a.jpg"
             "/backup/2024-05-17/a.jpg");
     Core (Print (MsgCopied "a.jpg" 1 1 (100 # 1) (10 # 1048576)
                    (10 # 1048576)));
     Core (Print MsgVerifying);
     Core (Print (MsgVerified 1));
     Core (Print MsgDeleting);
     Core (CallRemove "/tmp/iphone_mount_4242/DCIM/a.jpg");
     Core (Print (MsgDeleted "a.jpg"));
     Core (Print MsgDone);
     Core (CallRun ["umount"; SimHost.mp]);
     CallRmdir SimHost.mp].
Proof. vm_compute. reflexivity. Qed.

(** When [ifuse] fails the session ends after the report, and the user
    is not asked to commence. *)
Example session_without_mount :
  Session.trace
    (main (os:=Sim.os) SimHost.to_backup_iphone
       (SimHost.boot SimHost.phone_locked))
  = [CallMakedirs "/backup/2024-05-17";
     Core (CallRun ["ideviceinfo"; "-s"]);
     Core (CallRun ["ideviceinfo"; "-s"]);
     CallMakedirs SimHost.mp;
     Core (CallRun ["ifuse"; SimHost.mp]);
     Say MsgFailedToMount].
Proof. vm_compute. reflexivity. Qed.

(** Without [--device] the user picks 2; [adb] is not installed. *)
Example session_without_tools :
  Session.trace
    (main (os:=Sim.os) (Args.mk (Some "b") None) (SimHost.boot SimHost.no_tools))
  = [Say MsgSelectDevice; Say MsgOptionIPhone; Say MsgOptionAndroid;
     CallMakedirs "/home/me/b/2024-05-17";
     Core (CallRun ["adb"; "version"]);
     Say MsgAdbNotFound; Say MsgInstallAdb].
Proof. vm_compute. reflexivity. Qed.

(** ** Only media files are fetched *)

Section MediaOnly.
Context {W : Type} {os : OS W}.
Implicit Types s : State W.














End MediaOnly.


(** ** An interrupt during the transfer *)

Section Interrupt.
Context {W : Type} {os : OS W}.
Implicit Types s : State W.

Lemma copy_files_mid_run files :
  emits_only (W:=W) mid_run (copy_files files).
Proof.
  unfold copy_files, iPhoneBackup.copy_files, AndroidBackup.copy_files,
    iPhoneBackup.copy_one, AndroidBackup.copy_one, size_mb_of, speed_mbps_of,
    progress_of.
  shape;
    first [ split; discriminate
          | apply exists_with_size_emits
          | apply run_emits; split; discriminate ].
Qed.

Lemma verify_and_delete_mid_run files :
  emits_only (W:=W) mid_run (verify_and_delete files).
Proof.
  unfold verify_and_delete, DeviceBackup.verify_files, DeviceBackup.verify_one,
    delete_files, iPhoneBackup.delete_files, AndroidBackup.delete_files,
    iPhoneBackup.delete_one, AndroidBackup.delete_one.
  shape;
    first [ split; discriminate
          | apply ask_emits
          | apply exists_with_size_emits
          | apply run_emits; split; discriminate ].
Qed.

End Interrupt.

(** X18. An interrupt during the transfer does not skip verification.
    When [copy_files] is interrupted from the keyboard, the [finally]
    clause still runs: the files are verified against the destination as
    it is at that moment, the verified list is stored, and deletion of the
    verified files is offered as usual.  The stage then does not return:
    it ends with the interrupt or, when the [finally] clause raised
    itself, with what that raised; neither the line about an interrupted
    transfer nor the closing line is printed. *)
Theorem interrupt_still_verifies
    {W : Type} {os : OS W} (files : list Candidate) (s : State W) :
  result (copy_files files s) = Raise KeyboardInterrupt ->
  let s1 := final (copy_files files s) in
  let after := verify_and_delete files s1 in
  transfer_stage files s
  = (match result after with
     | Ret _ => Raise KeyboardInterrupt
     | Raise e => Raise e
     end, final after,
     (trace (copy_files files s) ++ trace after)%list)
  /\ (exists e, result (transfer_stage files s) = Raise e)
  /\ verified_files (self (final (transfer_stage files s)))
     = verified_of (world s1) (destination (self s)) files
  /\ In (Print MsgVerifying) (trace (transfer_stage files s))
  /\ ~ In (Print MsgDone) (trace (transfer_stage files s))
  /\ ~ In (Print MsgInterrupted) (trace (transfer_stage files s)).
Proof.
  intros R. cbv zeta.
  pose proof (copy_files_mid_run files s) as Mc.
  pose proof (copy_files_keeps_self files s) as Kc.
  pose proof (verify_and_delete_mid_run files (final (copy_files files s))) as Mv.
  destruct (verify_and_delete_facts files (final (copy_files files s)))
    as [Fs [_ Fv]].
  assert (E : transfer_stage files s
              = (match result (verify_and_delete files
                                 (final (copy_files files s))) with
                 | Ret _ => Raise KeyboardInterrupt
                 | Raise e => Raise e
                 end,
                 final (verify_and_delete files (final (copy_files files s))),
                 (trace (copy_files files s)
                  ++ trace (verify_and_delete files
                              (final (copy_files files s))))%list)).
  { unfold transfer_stage, bind, try_finally, try_except.
    destruct (copy_files files s) as [[r s1] t1].
    unfold result, final, trace in *. cbn [fst snd] in *. subst r.
    cbn [except_Exception].
    destruct (verify_and_delete files s1) as [[[[]|e] s2] t2];
      cbn [fst snd] in *; reflexivity. }
  rewrite E. split; [reflexivity|].
  split.
  { unfold result at 1. cbn [fst].
    destruct (result (verify_and_delete files (final (copy_files files s))));
      eexists; reflexivity. }
  unfold final at 1, trace at 1 3 5. cbn [fst snd].
  split.
  { rewrite Fs. unfold verified_self. cbn [verified_files]. now rewrite Kc. }
  split; [apply in_or_app; now right|].
  assert (N : Forall mid_run
                (trace (copy_files files s)
                 ++ trace (verify_and_delete files (final (copy_files files s))))%list).
  { apply Forall_app. now split. }
  rewrite Forall_forall in N.
  split; intros H; destruct (N _ H) as [N1 N2]; [now elim N1 | now elim N2].
Qed.

Lemma interrupt_still_verifies_witness :
  result (transfer_stage [Sim.photo; Sim.clip; Sim.shot]
            (Sim.iphone_at Sim.second_interrupted)) = Raise KeyboardInterrupt
  /\ verified_files
       (self (final (transfer_stage [Sim.photo; Sim.clip; Sim.shot]
                       (Sim.iphone_at Sim.second_interrupted))))
     = ["/m/DCIM/100APPLE/a.jpg"].
Proof.
  destruct (interrupt_still_verifies (os:=Sim.os)
              [Sim.photo; Sim.clip; Sim.shot]
              (Sim.iphone_at Sim.second_interrupted) eq_refl)
    as [E [_ [V _]]].
  split; [rewrite E; reflexivity | rewrite V; reflexivity].
Defined.
